(** * Batch resume-scoring pipeline of the HR portal

    A shallow embedding of the scheduler [startAnalysis] and of [removeFile]
    of pages/ResumeScore.tsx, of the two other revisions of that page kept
    in the repository (one resolves the job from [jobSource] and [parsedJd],
    the other from [jdSource] and [jdFile]), and of the parts of
    services/ai.ts they call; then the properties of the pipeline that
    follow from that code.

    The page is asynchronous but sequential: every [await] is a point where
    the outside answers or fails.  The model threads the React state, the
    two stores and a log of observable events through a small monad whose
    computations complete normally, throw, or return; what the outside does
    is read from an environment. *)

From Stdlib Require Import ZArith QArith String Ascii List Bool Lia.
From Stdlib.Strings Require Import Byte.
From Stdlib Require Import DecimalString DecimalZ DecimalPos.
From stdpp Require Import base list.
Import ListNotations.
Local Open Scope string_scope.
Local Open Scope Z_scope.
Set Warnings "-register-all".

(** ** Values of the host language *)

Module JS.

(** An IEEE number: the scores are compared and tested for truthiness
    only, so a finite number is kept as a rational. *)
Inductive number : Type :=
| NaN
| PInf
| NInf
| Fin (q : Q).

(** What [JSON.parse] can return, plus [undefined] for an absent property. *)
Inductive value : Type :=
| Undefined
| Null
| Bool (b : bool)
| Num (n : number)
| Str (s : string)
| Arr (elems : list value)
| Obj (props : list (string * value)).

Definition num_truthy (n : number) : bool :=
  match n with
  | NaN => false
  | PInf | NInf => true
  | Fin q => negb (Qeq_bool q 0)
  end.

Definition str_truthy (s : string) : bool :=
  match s with
  | EmptyString => false
  | String _ _ => true
  end.

(** ToBoolean. *)
Definition truthy (v : value) : bool :=
  match v with
  | Undefined | Null => false
  | Bool b => b
  | Num n => num_truthy n
  | Str s => str_truthy s
  | Arr _ | Obj _ => true
  end.

(** [a || b] on values. *)
Definition or_else (a b : value) : value := if truthy a then a else b.

(** [a || b] where [a] is a number. *)
Definition num_or (a b : number) : number := if num_truthy a then a else b.

(** [s || d] where [s] is an optional string property. *)
Definition str_or (s : option string) (d : string) : string :=
  match s with
  | Some (String c r) => String c r
  | _ => d
  end.

(** [a > b] on numbers. *)
Definition gt (a b : number) : bool :=
  match a, b with
  | NaN, _ | _, NaN => false
  | PInf, PInf => false
  | PInf, _ => true
  | _, PInf => false
  | NInf, _ => false
  | Fin _, NInf => true
  | Fin x, Fin y => negb (Qle_bool x y)
  end.

(** [0 <= n <= 100]. *)
Definition in_0_100 (n : number) : bool :=
  match n with
  | Fin q => Qle_bool 0 q && Qle_bool q 100
  | _ => false
  end.

Definition nullish (v : value) : bool :=
  match v with
  | Undefined | Null => true
  | _ => false
  end.

Fixpoint assoc (k : string) (props : list (string * value)) : value :=
  match props with
  | [] => Undefined
  | (k', v) :: rest => if String.eqb k' k then v else assoc k rest
  end.

(** [v.k] for a [v] that is neither [null] nor [undefined]; none of the
    property names read by the pipeline exists on a primitive or an
    array, so those yield [undefined]. *)
Definition prop (v : value) (k : string) : value :=
  match v with
  | Obj props => assoc k props
  | _ => Undefined
  end.

(** The string and object cases of the built-in [Number(v)] follow the
    numeric-literal grammar and [ToPrimitive]; they are supplied by the
    host. *)
Record Conversions : Type := {
  StringToNumber : string -> number;
  ObjectToNumber : value -> number
}.

Definition Number (cv : Conversions) (v : value) : number :=
  match v with
  | Undefined => NaN
  | Null => Fin 0
  | Bool true => Fin 1
  | Bool false => Fin 0
  | Num n => n
  | Str s => StringToNumber cv s
  | Arr _ | Obj _ => ObjectToNumber cv v
  end.

(** A thrown or rejected value, as far as the handlers look at it: [null],
    [undefined], or a value whose property [message] can be read and is a
    string or missing, as for every [Error] and for every event object. *)
Inductive Exn : Type :=
| ThrownNull
| ThrownUndefined
| Thrown (message : option string).

(** [new Error(msg)] *)
Definition Error (msg : string) : Exn := Thrown (Some msg).

(** What a [FileReader] hands to [onerror]: an event object, which is
    neither [null] nor [undefined] and has no [message]. *)
Inductive ProgressEvent : Type := progress_event.

Definition of_event (ev : ProgressEvent) : Exn := Thrown None.

Definition nullish_exn (e : Exn) : bool :=
  match e with
  | ThrownNull | ThrownUndefined => true
  | Thrown _ => false
  end.

(** The message of the TypeError raised by reading the property [message]
    of [null] or [undefined] (in V8's wording, as for the other
    TypeErrors of the model). *)
Definition no_message (what : string) : string :=
  "Cannot read properties of " ++ what ++ " (reading 'message')".

(** [err.message]: the message of the TypeError this raises, or the value
    of the property. *)
Definition get_message (e : Exn) : string + option string :=
  match e with
  | ThrownNull => inl (no_message "null")
  | ThrownUndefined => inl (no_message "undefined")
  | Thrown message => inr message
  end.

(** [IEEE 754]: the double nearest to the integer [x], ties to even.  Up
    to [2^53] every integer is a double; beyond, the doubles are the
    multiples of [ulp].  (No counter comes near the largest double.) *)
Definition to_double (x : Z) : Z :=
  if Z.abs x <=? 2 ^ 53 then x
  else
    let ulp := 2 ^ (Z.log2 (Z.abs x) - 52) in
    let q := Z.abs x / ulp in
    let r := Z.abs x mod ulp in
    Z.sgn x
    * (ulp * (if 2 * r <? ulp then q
              else if ulp <? 2 * r then q + 1
              else if Z.even q then q else q + 1)).

(** [n + 1] on a number that holds an integer. *)
Definition plus_one (n : Z) : Z := to_double (n + 1).

(** [String.prototype.split] on a one-character separator. *)
Fixpoint split (sep : ascii) (s : string) : list string :=
  match s with
  | EmptyString => [EmptyString]
  | String c r =>
      if Ascii.eqb c sep then EmptyString :: split sep r
      else match split sep r with
           | h :: t => String c h :: t
           | [] => [String c EmptyString]
           end
  end.

Fixpoint map_chars (f : ascii -> ascii) (s : string) : string :=
  match s with
  | EmptyString => EmptyString
  | String c r => String (f c) (map_chars f r)
  end.

Fixpoint all_chars (p : ascii -> bool) (s : string) : bool :=
  match s with
  | EmptyString => true
  | String c r => p c && all_chars p r
  end.

Definition string_of_Z (z : Z) : string := NilZero.string_of_int (Z.to_int z).
Definition string_of_nat (n : nat) : string := string_of_Z (Z.of_nat n).

End JS.

(** ** File names: the two [replace] calls of the candidate-name fallback *)

(** The class [[^/.]]. *)
Definition ext_char (c : ascii) : bool :=
  negb (Ascii.eqb c "/") && negb (Ascii.eqb c ".").

(** Does [/\.[^/.]+$/] match at the head of [s]? *)
Definition ext_here (s : string) : bool :=
  match s with
  | String d (String c r) =>
      Ascii.eqb d "." && JS.all_chars ext_char (String c r)
  | _ => false
  end.

(** [s.replace(/\.[^/.]+$/, "")]: the leftmost match is removed. *)
Fixpoint strip_ext (s : string) : string :=
  if ext_here s then EmptyString
  else match s with
       | EmptyString => EmptyString
       | String c r => String c (strip_ext r)
       end.

(** [s.replace(/[_-]/g, ' ')]. *)
Definition sep_to_space (c : ascii) : ascii :=
  if Ascii.eqb c "_" || Ascii.eqb c "-" then " "%char else c.

Definition spaced (s : string) : string := JS.map_chars sep_to_space s.

Definition name_from_file (fname : string) : string := spaced (strip_ext fname).

(** ** Files and their base64 payload (services/ai.ts, [fileToBase64]) *)

Record File : Type := {
  file_name : string;
  file_type : string;
  content : list byte
}.

(** [file.size]. *)
Definition file_size (f : File) : Z := Z.of_nat (length (content f)).

(** The same file name and type over other bytes. *)
Definition with_content (bytes : list byte) (f : File) : File :=
  {| file_name := file_name f; file_type := file_type f; content := bytes |}.

(** A character other than the comma. *)
Definition no_comma (c : ascii) : bool := negb (Ascii.eqb c ",").

Definition b64_alphabet : list ascii :=
  list_ascii_of_string
    "ABCDEFGHIJKLMNOPQRSTUVWXYZabcdefghijklmnopqrstuvwxyz0123456789+/".

Definition b64 (n : N) : ascii := nth (N.to_nat n) b64_alphabet "="%char.

(** RFC 4648 encoding, as [FileReader.readAsDataURL] produces it. *)
Fixpoint base64 (l : list byte) : string :=
  match l with
  | [] => EmptyString
  | [a] =>
      let x := Byte.to_N a in
      String (b64 (x / 4)) (String (b64 ((x mod 4) * 16)) "==")
  | [a; b] =>
      let x := Byte.to_N a in
      let y := Byte.to_N b in
      String (b64 (x / 4)) (String (b64 ((x mod 4) * 16 + y / 16))
        (String (b64 ((y mod 16) * 4)) "="))
  | a :: b :: c :: rest =>
      let x := Byte.to_N a in
      let y := Byte.to_N b in
      let z := Byte.to_N c in
      String (b64 (x / 4)) (String (b64 ((x mod 4) * 16 + y / 16))
        (String (b64 ((y mod 16) * 4 + z / 64)) (String (b64 (z mod 64))
          (base64 rest))))
  end%N.

(** [reader.result] after [readAsDataURL(file)]. *)
Definition readAsDataURL (f : File) : string :=
  "data:" ++
  (if JS.str_truthy (file_type f) then file_type f else "application/octet-stream")
  ++ ";base64," ++ base64 (content f).

(** [(reader.result as string).split(',')[1]].  A data URL always holds a
    comma, so the second piece exists and the default is never reached. *)
Definition base64_of_dataURL (url : string) : string :=
  nth 1 (JS.split "," url) EmptyString.

(** ** The data model of the page *)

Inductive Status : Type := READY | READING | PARSING | COMPLETED | ERROR.

Definition Status_eqb (a b : Status) : bool :=
  match a, b with
  | READY, READY | READING, READING | PARSING, PARSING
  | COMPLETED, COMPLETED | ERROR, ERROR => true
  | _, _ => false
  end.

Module UploadFile.
Record t : Type := {
  id : string;
  file : File;
  name : string;
  size : string;
  status : Status;
  progress : Z;
  result : option JS.value
}.

(** [{ ...f, status: s, progress: p }] *)
Definition with_status (s : Status) (p : Z) (f : t) : t :=
  {| id := id f; file := file f; name := name f; size := size f;
     status := s; progress := p; result := result f |}.

(** [{ ...f, progress: p }] *)
Definition with_progress (p : Z) (f : t) : t :=
  {| id := id f; file := file f; name := name f; size := size f;
     status := status f; progress := p; result := result f |}.

(** The same queue entry over another file object. *)
Definition with_file (x : File) (f : t) : t :=
  {| id := id f; file := x; name := name f; size := size f;
     status := status f; progress := progress f; result := result f |}.

(** [{ ...f, status: s, progress: p, result: data }] *)
Definition with_result (s : Status) (p : Z) (data : JS.value) (f : t) : t :=
  {| id := id f; file := file f; name := name f; size := size f;
     status := s; progress := p; result := Some data |}.
End UploadFile.

Module Job.
(** The type [Job] is declared outside the sources at hand; the fields are
    those of the job literal the page builds, and the optional ones are
    those the page guards with [||]. *)
Record t : Type := {
  id : string;
  title : string;
  department : string;
  location : option string;
  type : string;
  status : string;
  applicantsCount : option Z;
  matchesCount : option Z;
  skills : option (list string);
  description : option string
}.

(** [count || 0] *)
Definition count_or_0 (c : option Z) : Z :=
  match c with
  | Some n => n
  | None => 0
  end.

(** The partial document handed to [updateOne]. *)
Record stats : Type := {
  new_applicantsCount : Z;
  new_matchesCount : Z
}.

Definition apply (u : stats) (j : t) : t :=
  {| id := id j; title := title j; department := department j;
     location := location j; type := type j; status := status j;
     applicantsCount := Some (new_applicantsCount u);
     matchesCount := Some (new_matchesCount u);
     skills := skills j; description := description j |}.
End Job.

Module Candidate.
(** The fields of the candidate literal the page builds.  A field copied
    from the answer of the provider holds whatever value came back. *)
Record t : Type := {
  id : string;
  name : JS.value;
  role : JS.value;
  company : string;
  location : string;
  appliedDate : string;
  status : string;
  matchScore : JS.number;
  jdMatchScore : JS.value;
  qualificationMatchScore : JS.value;
  resumeMatchScore : JS.value;
  candidateRecordScore : option JS.value;
  jdMatchReason : JS.value;
  qualificationMatchReason : JS.value;
  resumeMatchReason : JS.value;
  candidateRecordReason : option JS.value;
  deepAnalysis : JS.value;
  associatedJdId : string;
  analysis : JS.value;
  resumeBase64 : string;
  resumeMimeType : string
}.

(** The same record with another document payload. *)
Definition with_resumeBase64 (payload : string) (c : t) : t :=
  {| id := id c; name := name c; role := role c; company := company c;
     location := location c; appliedDate := appliedDate c;
     status := status c; matchScore := matchScore c;
     jdMatchScore := jdMatchScore c;
     qualificationMatchScore := qualificationMatchScore c;
     resumeMatchScore := resumeMatchScore c;
     candidateRecordScore := candidateRecordScore c;
     jdMatchReason := jdMatchReason c;
     qualificationMatchReason := qualificationMatchReason c;
     resumeMatchReason := resumeMatchReason c;
     candidateRecordReason := candidateRecordReason c;
     deepAnalysis := deepAnalysis c; associatedJdId := associatedJdId c;
     analysis := analysis c; resumeBase64 := payload;
     resumeMimeType := resumeMimeType c |}.
End Candidate.

(** [ExtractedJobDetails] of services/ai.ts, as parsed from the response:
    any field may be missing. *)
Record ExtractedJobDetails : Type := {
  jd_title : option string;
  jd_department : option string;
  jd_location : option string;
  jd_type : option string;
  jd_skills : option (list string)
}.

(** The job context handed to the gateway. *)
Record JobContext : Type := {
  ctx_title : option string;
  ctx_skills : option (list string);
  ctx_description : option string;
  ctx_location : option string
}.

(** ** The state the scheduler runs on *)

(** What an observer of a run sees, in order. *)
Inductive Event : Type :=
| EvDelay (ms : Z)
| EvAnalyze (i : nat)
| EvSetFiles (before after : list UploadFile.t)
| EvError (msg : string).

(** The React state of the page, the two stores behind [db], and the
    events of the run so far. *)
Record World : Type := {
  files : list UploadFile.t;
  errorMsg : option string;
  isAnalyzing : bool;
  isExtractingJd : bool;
  jobs : list Job.t;
  selectedJobId : string;
  db_jobs : list Job.t;
  db_candidates : list Candidate.t;
  trace : list Event
}.

Definition set_files (fs : list UploadFile.t) (w : World) : World :=
  {| files := fs; errorMsg := errorMsg w; isAnalyzing := isAnalyzing w;
     isExtractingJd := isExtractingJd w; jobs := jobs w;
     selectedJobId := selectedJobId w; db_jobs := db_jobs w;
     db_candidates := db_candidates w; trace := trace w |}.

Definition set_errorMsg (m : option string) (w : World) : World :=
  {| files := files w; errorMsg := m; isAnalyzing := isAnalyzing w;
     isExtractingJd := isExtractingJd w; jobs := jobs w;
     selectedJobId := selectedJobId w; db_jobs := db_jobs w;
     db_candidates := db_candidates w; trace := trace w |}.

Definition set_isAnalyzing (b : bool) (w : World) : World :=
  {| files := files w; errorMsg := errorMsg w; isAnalyzing := b;
     isExtractingJd := isExtractingJd w; jobs := jobs w;
     selectedJobId := selectedJobId w; db_jobs := db_jobs w;
     db_candidates := db_candidates w; trace := trace w |}.

Definition set_isExtractingJd (b : bool) (w : World) : World :=
  {| files := files w; errorMsg := errorMsg w; isAnalyzing := isAnalyzing w;
     isExtractingJd := b; jobs := jobs w;
     selectedJobId := selectedJobId w; db_jobs := db_jobs w;
     db_candidates := db_candidates w; trace := trace w |}.

Definition set_jobs (js : list Job.t) (w : World) : World :=
  {| files := files w; errorMsg := errorMsg w; isAnalyzing := isAnalyzing w;
     isExtractingJd := isExtractingJd w; jobs := js;
     selectedJobId := selectedJobId w; db_jobs := db_jobs w;
     db_candidates := db_candidates w; trace := trace w |}.

Definition set_selectedJobId (s : string) (w : World) : World :=
  {| files := files w; errorMsg := errorMsg w; isAnalyzing := isAnalyzing w;
     isExtractingJd := isExtractingJd w; jobs := jobs w;
     selectedJobId := s; db_jobs := db_jobs w;
     db_candidates := db_candidates w; trace := trace w |}.

Definition set_db_jobs (js : list Job.t) (w : World) : World :=
  {| files := files w; errorMsg := errorMsg w; isAnalyzing := isAnalyzing w;
     isExtractingJd := isExtractingJd w; jobs := jobs w;
     selectedJobId := selectedJobId w; db_jobs := js;
     db_candidates := db_candidates w; trace := trace w |}.

Definition set_db_candidates (cs : list Candidate.t) (w : World) : World :=
  {| files := files w; errorMsg := errorMsg w; isAnalyzing := isAnalyzing w;
     isExtractingJd := isExtractingJd w; jobs := jobs w;
     selectedJobId := selectedJobId w; db_jobs := db_jobs w;
     db_candidates := cs; trace := trace w |}.

Definition emit (ev : Event) (w : World) : World :=
  {| files := files w; errorMsg := errorMsg w; isAnalyzing := isAnalyzing w;
     isExtractingJd := isExtractingJd w; jobs := jobs w;
     selectedJobId := selectedJobId w; db_jobs := db_jobs w;
     db_candidates := db_candidates w; trace := trace w ++ [ev] |}.

(** ** Statements that complete normally, throw, or return *)

Inductive Completion (A : Type) : Type :=
| Normal (a : A)
| Throw (e : JS.Exn)
| Return.
Arguments Normal {A} a.
Arguments Throw {A} e.
Arguments Return {A}.

Definition M (A : Type) : Type := World -> Completion A * World.

Definition ret {A} (a : A) : M A := fun w => (Normal a, w).

Definition bind {A B} (m : M A) (k : A -> M B) : M B :=
  fun w =>
    match m w with
    | (Normal a, w') => k a w'
    | (Throw e, w') => (Throw e, w')
    | (Return, w') => (Return, w')
    end.

Definition throw {A} (e : JS.Exn) : M A := fun w => (Throw e, w).

(** [return;] *)
Definition return_ {A} : M A := fun w => (Return, w).

Definition modify (f : World -> World) : M unit := fun w => (Normal tt, f w).

(** [try { body } catch (err) { handler }] *)
Definition try_catch {A} (body : M A) (handler : JS.Exn -> M A) : M A :=
  fun w =>
    match body w with
    | (Throw e, w') => handler e w'
    | r => r
    end.

(** [try { body } finally { fin }], for a [fin] that completes normally. *)
Definition try_finally {A} (body : M A) (fin : M unit) : M A :=
  fun w =>
    match body w with
    | (c, w') => (c, snd (fin w'))
    end.

(** The body of an [async] function called without [await] by the page:
    a [return] ends it normally. *)
Definition function_body (body : M unit) : M unit :=
  fun w =>
    match body w with
    | (Return, w') => (Normal tt, w')
    | r => r
    end.

Declare Scope js_scope.
Delimit Scope js_scope with js.
Notation "x <- c1 ;; c2" := (bind c1 (fun x => c2))
  (at level 100, c1 at next level, c2 at level 200, right associativity)
  : js_scope.
Notation "c1 ;; c2" := (bind c1 (fun _ => c2))
  (at level 100, c2 at level 200, right associativity) : js_scope.
Local Open Scope js_scope.

(** ** The outside of the page *)

Inductive ReadSite : Type :=
| ReadJd
| ReadInGateway (i : nat)
| ReadInScheduler (i : nat).

Inductive DbCall : Type :=
| FindJobs
| FindJobsAfter (i : nat)
| InsertJob
| InsertCandidate (i : nat)
| UpdateJob (i : nat).

(** Everything the run does not decide itself: the host conversions, the
    API key read at module load, which file reads, provider calls and
    store calls fail (and with what: a provider or store call may reject
    with any value), what the provider answers for the [i]-th file, and
    the clock. *)
Record Env : Type := {
  conv : JS.Conversions;
  API_KEY : option string;
  key_debug_info : string;
  reader_error : ReadSite -> option JS.ProgressEvent;
  gemini_resume : nat -> JS.Exn + JS.value;
  gemini_jd : JS.Exn + ExtractedJobDetails;
  db_error : DbCall -> option JS.Exn;
  now : nat -> Z;
  now_job : Z;
  today : nat -> string
}.

Inductive JobSource : Type := Database | Upload.
Inductive JdSource : Type := Select | UploadJd.

(** How one revision of [startAnalysis] updates the job counters after a
    candidate was stored: from the job object it resolved before the loop,
    or from a fresh [find] and only for a stored job. *)
Inductive StatsPolicy : Type :=
| StatsFromJob (currentJob : Job.t)
| StatsRefetch (jobSource : JobSource) (selectedJobId : string).

(** What differs between the revisions inside the loop. *)
Record Variant : Type := {
  with_record_score : bool;
  ctx : JobContext;
  assoc_id : string;
  stats : StatsPolicy
}.

Section Pipeline.

Variable env : Env.

(** [err.message] inside a handler: reading it from [null] or
    [undefined] throws. *)
Definition read_message (err : JS.Exn) : M (option string) :=
  match JS.get_message err with
  | inl type_error => throw (JS.Error type_error)
  | inr message => ret message
  end.

(** *** React state setters *)

Definition setFiles (f : list UploadFile.t -> list UploadFile.t) : M unit :=
  modify (fun w =>
    emit (EvSetFiles (files w) (f (files w))) (set_files (f (files w)) w)).

Definition setErrorMsg (m : option string) : M unit :=
  modify (fun w =>
    match m with
    | Some s => emit (EvError s) (set_errorMsg m w)
    | None => set_errorMsg m w
    end).

Definition setIsAnalyzing (b : bool) : M unit := modify (set_isAnalyzing b).
Definition setIsExtractingJd (b : bool) : M unit := modify (set_isExtractingJd b).
Definition setJobs (f : list Job.t -> list Job.t) : M unit :=
  modify (fun w => set_jobs (f (jobs w)) w).
Definition setSelectedJobId (s : string) : M unit := modify (set_selectedJobId s).

(** [prev.map((f, idx) => idx === i ? g(f) : f)] *)
Definition map_at (i : nat) (g : UploadFile.t -> UploadFile.t)
    (prev : list UploadFile.t) : list UploadFile.t :=
  imap (fun idx f => if Nat.eqb idx i then g f else f) prev.

(** [await new Promise(r => setTimeout(r, ms))] *)
Definition delay (ms : Z) : M unit := modify (emit (EvDelay ms)).

(** *** The stores *)

(** Modelled from the spec: services/db is not among the sources.  The
    spec gives the job store [find], [insertOne] and
    [updateOne(id, partialFields)] and the candidate store [insertOne];
    a call that fails leaves the store as it was. *)
Definition db_call {A} (c : DbCall) (ok : M A) : M A :=
  match db_error env c with
  | Some e => throw e
  | None => ok
  end.

(** Modelled from the spec: the effect of [updateOne] on the stored jobs. *)
Fixpoint update_first (id : string) (u : Job.stats) (js : list Job.t)
    : list Job.t :=
  match js with
  | [] => []
  | j :: rest =>
      if String.eqb (Job.id j) id then Job.apply u j :: rest
      else j :: update_first id u rest
  end.

(** Modelled from the spec: [db.jobs.find()], the list of stored jobs. *)
Definition db_jobs_find (c : DbCall) : M (list Job.t) :=
  db_call c (fun w => (Normal (db_jobs w), w)).

(** Modelled from the spec: [db.jobs.insertOne(job)]. *)
Definition db_jobs_insertOne (j : Job.t) : M unit :=
  db_call InsertJob (modify (fun w => set_db_jobs (db_jobs w ++ [j]) w)).

(** Modelled from the spec: [db.jobs.updateOne(id, partialFields)] sets the
    given fields of the job with that id. *)
Definition db_jobs_updateOne (c : DbCall) (id : string) (u : Job.stats) : M unit :=
  db_call c (modify (fun w => set_db_jobs (update_first id u (db_jobs w)) w)).

(** Modelled from the spec: [db.candidates.insertOne(candidate)]. *)
Definition db_candidates_insertOne (c : DbCall) (cand : Candidate.t) : M unit :=
  db_call c (modify (fun w => set_db_candidates (db_candidates w ++ [cand]) w)).

(** *** services/ai.ts *)

(** [!!API_KEY] *)
Definition has_key : bool :=
  match API_KEY env with
  | Some k => JS.str_truthy k
  | None => false
  end.

Definition fileToBase64 (site : ReadSite) (f : File) : M string :=
  match reader_error env site with
  | Some error => throw (JS.of_event error)
  | None => ret (base64_of_dataURL (readAsDataURL f))
  end.

Definition extractJobDetailsFromPDF (f : File) : M ExtractedJobDetails :=
  if negb has_key then
    throw (JS.Error ("Gemini API Key Missing. Debug: " ++ key_debug_info env
                     ++ ". Please set VITE_GEMINI_API_KEY in Vercel."))
  else
    _ <- fileToBase64 ReadJd f ;;
    match gemini_jd env with
    | inl e => throw e
    | inr details => ret details
    end.

(** The gateway.  A call is logged on entry; the parsed response is
    returned as it is, without any check of its fields.  The prompt is
    built with [jobContext.skills.join], which throws on a context without
    skills. *)
Definition analyzeResume (i : nat) (f : File) (jobContext : JobContext)
    : M JS.value :=
  modify (emit (EvAnalyze i)) ;;
  if negb has_key then throw (JS.Error "Gemini API Key is missing.")
  else
    _ <- fileToBase64 (ReadInGateway i) f ;;
    match ctx_skills jobContext with
    | None =>
        throw (JS.Error "Cannot read properties of undefined (reading 'join')")
    | Some _ =>
        match gemini_resume env i with
        | inl e => throw e
        | inr parsed => ret parsed
        end
    end.

(** *** The loop of [startAnalysis] *)

Definition threshold : JS.number := JS.Fin (80 # 1).

(** The document of [db.jobs.updateOne(currentJob.id, {...})]. *)
Definition job_stats (currentJob : Job.t) (matchScore : JS.number) : Job.stats :=
  {| Job.new_applicantsCount :=
       JS.plus_one (Job.count_or_0 (Job.applicantsCount currentJob));
     Job.new_matchesCount :=
       if JS.gt matchScore threshold
       then JS.plus_one (Job.count_or_0 (Job.matchesCount currentJob))
       else Job.count_or_0 (Job.matchesCount currentJob) |}.

Definition find_job (id : string) (allJobs : list Job.t) : option Job.t :=
  List.find (fun j => String.eqb (Job.id j) id) allJobs.

Definition updateJobStats (p : StatsPolicy) (i : nat) (matchScore : JS.number)
    : M unit :=
  match p with
  | StatsFromJob currentJob =>
      db_jobs_updateOne (UpdateJob i) (Job.id currentJob)
        (job_stats currentJob matchScore)
  | StatsRefetch Database selectedJobId =>
      allJobs <- db_jobs_find (FindJobsAfter i) ;;
      match find_job selectedJobId allJobs with
      | Some currentJob =>
          db_jobs_updateOne (UpdateJob i) (Job.id currentJob)
            (job_stats currentJob matchScore)
      | None => ret tt
      end
  | StatsRefetch Upload _ => ret tt
  end.

Definition opt_str (s : option string) : JS.value :=
  match s with
  | Some x => JS.Str x
  | None => JS.Undefined
  end.

Definition MiB : Z := 1 * 1024 * 1024.

Definition newCandidate (v : Variant) (i : nat) (currentFile : UploadFile.t)
    (data : JS.value) (matchScore : JS.number) (base64Data : string)
    : Candidate.t :=
  let unavailable := JS.Str "Analysis not available" in
  let zero := JS.Num (JS.Fin 0) in
  {| Candidate.id :=
       "c-" ++ JS.string_of_Z (now env i) ++ "-" ++ JS.string_of_nat i;
     Candidate.name :=
       JS.or_else (JS.prop data "candidateName")
         (JS.Str (name_from_file (UploadFile.name currentFile)));
     Candidate.role :=
       JS.or_else (JS.prop data "currentRole") (opt_str (ctx_title (ctx v)));
     Candidate.company := "Extracted Profile";
     Candidate.location := JS.str_or (ctx_location (ctx v)) "Remote";
     Candidate.appliedDate := today env i;
     Candidate.status := "New";
     Candidate.matchScore := matchScore;
     Candidate.jdMatchScore := JS.or_else (JS.prop data "jdMatchScore") zero;
     Candidate.qualificationMatchScore :=
       JS.or_else (JS.prop data "qualificationMatchScore") zero;
     Candidate.resumeMatchScore :=
       JS.or_else (JS.prop data "resumeMatchScore") zero;
     Candidate.candidateRecordScore :=
       if with_record_score v
       then Some (JS.or_else (JS.prop data "candidateRecordScore") zero)
       else None;
     Candidate.jdMatchReason :=
       JS.or_else (JS.prop data "jdMatchReason") unavailable;
     Candidate.qualificationMatchReason :=
       JS.or_else (JS.prop data "qualificationMatchReason") unavailable;
     Candidate.resumeMatchReason :=
       JS.or_else (JS.prop data "resumeMatchReason") unavailable;
     Candidate.candidateRecordReason :=
       if with_record_score v
       then Some (JS.or_else (JS.prop data "candidateRecordReason") unavailable)
       else None;
     Candidate.deepAnalysis := JS.prop data "deepAnalysis";
     Candidate.associatedJdId := assoc_id v;
     Candidate.analysis := JS.prop data "analysis";
     Candidate.resumeBase64 :=
       if file_size (UploadFile.file currentFile) <? MiB
       then base64Data else "";
     Candidate.resumeMimeType := file_type (UploadFile.file currentFile) |}.

(** [Number(data.matchScore) || 0]; reading a property of [null] throws. *)
Definition read_matchScore (data : JS.value) : M JS.number :=
  if JS.nullish data then
    throw (JS.Error "Cannot read properties of null (reading 'matchScore')")
  else
    ret (JS.num_or (JS.Number (conv env) (JS.prop data "matchScore")) (JS.Fin 0)).

(** The [try] block of one iteration. *)
Definition tryItem (v : Variant) (i : nat) (currentFile : UploadFile.t) : M unit :=
  setFiles (map_at i (UploadFile.with_status PARSING 30)) ;;
  data <- analyzeResume i (UploadFile.file currentFile) (ctx v) ;;
  matchScore <- read_matchScore data ;;
  setFiles (map_at i (UploadFile.with_progress 80)) ;;
  base64Data <- fileToBase64 (ReadInScheduler i) (UploadFile.file currentFile) ;;
  db_candidates_insertOne (InsertCandidate i)
    (newCandidate v i currentFile data matchScore base64Data) ;;
  updateJobStats (stats v) i matchScore ;;
  setFiles (map_at i (UploadFile.with_result COMPLETED 100 data)).

(** The [catch] block of one iteration: the item is moved to [ERROR],
    then the notice is built from [err.message || 'Unknown error'], which
    throws out of the block when [err] is [null] or [undefined]. *)
Definition catchItem (i : nat) (currentFile : UploadFile.t) (err : JS.Exn)
    : M unit :=
  setFiles (map_at i (UploadFile.with_status ERROR 0)) ;;
  message <- read_message err ;;
  setErrorMsg (Some ("Failed to analyze " ++ UploadFile.name currentFile
                     ++ ": " ++ JS.str_or message "Unknown error")).

Definition processItem (v : Variant) (i : nat) (currentFile : UploadFile.t)
    : M unit :=
  setFiles (map_at i (UploadFile.with_status READING 10)) ;;
  try_catch (tryItem v i currentFile) (catchItem i currentFile).

(** One iteration: [continue] on a completed item, the throttle, the item. *)
Definition iteration (v : Variant) (i : nat) (currentFile : UploadFile.t)
    : M unit :=
  if Status_eqb (UploadFile.status currentFile) COMPLETED then ret tt
  else
    (if (0 <? i)%nat then delay 3000 else ret tt) ;;
    processItem v i currentFile.

(** [for (let i = 0; i < files.length; i++)] over the [files] the
    function closed over, from index [i] on. *)
Fixpoint loop (v : Variant) (i : nat) (rest : list UploadFile.t) : M unit :=
  match rest with
  | [] => ret tt
  | currentFile :: rest' =>
      iteration v i currentFile ;;
      loop v (S i) rest'
  end.

Definition ctx_of_job (j : Job.t) : JobContext :=
  {| ctx_title := Some (Job.title j);
     ctx_skills := Some (match Job.skills j with Some l => l | None => [] end);
     ctx_description := Job.description j;
     ctx_location := Job.location j |}.

(** The [catch] block around the whole run, the same in the three
    revisions. *)
Definition catchRun (err : JS.Exn) : M unit :=
  message <- read_message err ;;
  setErrorMsg (Some ("Analysis failed: " ++ JS.str_or message "Unknown error")).

(** *** [removeFile] *)

Definition removeFile (id : string) : M unit :=
  setFiles (List.filter (fun f => negb (String.eqb (UploadFile.id f) id))).

(** *** [startAnalysis], pages/ResumeScore.tsx *)

Definition variant_of_job (recordScore : bool) (selectedJobId0 : string)
    (currentJob : Job.t) : Variant :=
  {| with_record_score := recordScore;
     ctx := ctx_of_job currentJob;
     assoc_id := selectedJobId0;
     stats := StatsFromJob currentJob |}.

Definition not_found_msg : string :=
  "The selected job could not be found in the database. Please refresh.".

Definition startAnalysis : M unit :=
  fun w0 =>
    let files0 := files w0 in
    let selectedJobId0 := selectedJobId w0 in
    function_body
      (setErrorMsg None ;;
       if negb (JS.str_truthy selectedJobId0) || (length files0 =? 0)%nat then
         setErrorMsg (Some "Please select a job and upload at least one resume.") ;;
         return_
       else
         setIsAnalyzing true ;;
         try_finally
           (try_catch
              (allJobs <- db_jobs_find FindJobs ;;
               match find_job selectedJobId0 allJobs with
               | None =>
                   setErrorMsg (Some not_found_msg) ;;
                   setIsAnalyzing false ;;
                   return_
               | Some currentJob =>
                   loop (variant_of_job true selectedJobId0 currentJob) 0 files0
               end)
              catchRun)
           (setIsAnalyzing false)) w0.

(** *** [startAnalysis], the revision with [jobSource] and [parsedJd]

    The description is parsed when it is uploaded; [startAnalysis] gets the
    parsed details, and fetches the job again before each counter update. *)

(** [`${x}`] for an optional string. *)
Definition tpl (s : option string) : string :=
  match s with
  | Some x => x
  | None => "undefined"
  end.

Definition ctx_of_parsed (parsedJd : ExtractedJobDetails) : JobContext :=
  {| ctx_title := jd_title parsedJd;
     ctx_skills := jd_skills parsedJd;
     ctx_description :=
       Some ("Department: " ++ tpl (jd_department parsedJd) ++ ". Type: "
             ++ tpl (jd_type parsedJd) ++ ". " ++ tpl (jd_title parsedJd) ++ ".");
     ctx_location := jd_location parsedJd |}.

Definition resolve_jobSource (jobSource : JobSource)
    (parsedJd : option ExtractedJobDetails) (selectedJobId0 : string)
    : M Variant :=
  match jobSource with
  | Database =>
      allJobs <- db_jobs_find FindJobs ;;
      match find_job selectedJobId0 allJobs with
      | None => throw (JS.Error "Selected job not found in database.")
      | Some job =>
          ret {| with_record_score := false;
                 ctx := ctx_of_job job;
                 assoc_id := selectedJobId0;
                 stats := StatsRefetch jobSource selectedJobId0 |}
      end
  | Upload =>
      match parsedJd with
      | None => throw (JS.Error "No parsed JD available.")
      | Some p =>
          ret {| with_record_score := false;
                 ctx := ctx_of_parsed p;
                 assoc_id := "temp-uploaded-jd";
                 stats := StatsRefetch jobSource selectedJobId0 |}
      end
  end.

Definition is_database (s : JobSource) : bool :=
  match s with Database => true | Upload => false end.

Definition is_none {A} (o : option A) : bool :=
  match o with Some _ => false | None => true end.

Definition startAnalysis_jobSource (jobSource : JobSource)
    (parsedJd : option ExtractedJobDetails) : M unit :=
  fun w0 =>
    let files0 := files w0 in
    let selectedJobId0 := selectedJobId w0 in
    function_body
      (setErrorMsg None ;;
       if is_database jobSource && negb (JS.str_truthy selectedJobId0) then
         setErrorMsg (Some "Please select a job from the list.") ;; return_
       else if negb (is_database jobSource) && is_none parsedJd then
         setErrorMsg (Some "Please upload and let AI parse a Job Description first.") ;;
         return_
       else if (length files0 =? 0)%nat then
         setErrorMsg (Some "Please upload at least one resume.") ;; return_
       else
         setIsAnalyzing true ;;
         try_finally
           (try_catch
              (v <- resolve_jobSource jobSource parsedJd selectedJobId0 ;;
               loop v 0 files0)
              catchRun)
           (setIsAnalyzing false)) w0.

(** *** [startAnalysis], the revision with [jdSource] and [jdFile]

    The description is parsed inside [startAnalysis], and a job record is
    stored for it before the loop. *)

Definition newJob (extractedJd : ExtractedJobDetails) (jdFile : File) : Job.t :=
  {| Job.id := "j-" ++ JS.string_of_Z (now_job env);
     Job.title := JS.str_or (jd_title extractedJd) "Uploaded Job Position";
     Job.department := JS.str_or (jd_department extractedJd) "General";
     Job.location := Some (JS.str_or (jd_location extractedJd) "Remote");
     Job.type := JS.str_or (jd_type extractedJd) "Full-time";
     Job.status := "Active";
     Job.applicantsCount := Some 0;
     Job.matchesCount := Some 0;
     Job.skills :=
       Some (match jd_skills extractedJd with Some l => l | None => [] end);
     Job.description := Some ("Extracted from " ++ file_name jdFile) |}.

(** The job of the batch: extracted from [jdFile] and stored, or looked
    up.  A failed extraction reports and returns from [startAnalysis]. *)
Definition resolve_jdSource (jdSource : JdSource) (jdFile : option File)
    (selectedJobId0 : string) : M (option Job.t) :=
  match jdSource, jdFile with
  | UploadJd, Some jd =>
      setIsExtractingJd true ;;
      try_finally
        (try_catch
           (extractedJd <- extractJobDetailsFromPDF jd ;;
            let j := newJob extractedJd jd in
            setJobs (fun prev => j :: prev) ;;
            setSelectedJobId (Job.id j) ;;
            db_jobs_insertOne j ;;
            ret (Some j))
           (fun err =>
              message <- read_message err ;;
              setErrorMsg (Some ("Failed to extract job details: "
                                 ++ tpl message)) ;;
              setIsAnalyzing false ;;
              setIsExtractingJd false ;;
              return_))
        (setIsExtractingJd false)
  | _, _ =>
      allJobs <- db_jobs_find FindJobs ;;
      ret (find_job selectedJobId0 allJobs)
  end.

Definition startAnalysis_jdSource (jdSource : JdSource) (jdFile : option File)
    : M unit :=
  fun w0 =>
    let files0 := files w0 in
    let selectedJobId0 := selectedJobId w0 in
    function_body
      (setErrorMsg None ;;
       if negb (JS.str_truthy selectedJobId0) || (length files0 =? 0)%nat then
         setErrorMsg (Some "Please select a job and upload at least one resume.") ;;
         return_
       else
         setIsAnalyzing true ;;
         try_finally
           (try_catch
              (currentJob <- resolve_jdSource jdSource jdFile selectedJobId0 ;;
               match currentJob with
               | None =>
                   setErrorMsg (Some not_found_msg) ;;
                   setIsAnalyzing false ;;
                   return_
               | Some job =>
                   loop (variant_of_job false selectedJobId0 job) 0 files0
               end)
              catchRun)
           (setIsAnalyzing false)) w0.

End Pipeline.

(** ** Vocabulary of the properties *)

Definition is_delay (ev : Event) : bool :=
  match ev with
  | EvDelay ms => ms =? 3000
  | _ => false
  end.

Definition is_analyze (ev : Event) : bool :=
  match ev with
  | EvAnalyze _ => true
  | _ => false
  end.

(** How many times the run waited the inter-item delay. *)
Definition count_delays (t : list Event) : nat := length (List.filter is_delay t).

(** How many analysis calls the run issued. *)
Definition count_analyze (t : list Event) : nat := length (List.filter is_analyze t).

Definition is_completed (f : UploadFile.t) : bool :=
  Status_eqb (UploadFile.status f) COMPLETED.

Definition count_completed (fs : list UploadFile.t) : nat :=
  length (List.filter is_completed fs).

(** The items a run still has to process. *)
Definition pending (fs : list UploadFile.t) : nat :=
  length (List.filter (fun f => negb (is_completed f)) fs).

(** One update of the queue never moves an item into [ERROR] from a state
    other than [READING] or [PARSING]. *)
Definition step_ok (before after : list UploadFile.t) : Prop :=
  forall j f f',
    before !! j = Some f -> after !! j = Some f' ->
    UploadFile.status f' = ERROR -> UploadFile.status f <> ERROR ->
    UploadFile.status f = READING \/ UploadFile.status f = PARSING.

(** The events [evs] take the queue from [fs] to [fs']: every recorded
    update starts from the queue the previous one left. *)
Inductive replays : list UploadFile.t -> list Event -> list UploadFile.t -> Prop :=
| replays_nil (fs : list UploadFile.t) : replays fs [] fs
| replays_set (fs fs' fs'' : list UploadFile.t) (evs : list Event) :
    replays fs' evs fs'' -> replays fs (EvSetFiles fs fs' :: evs) fs''
| replays_other (fs fs' : list UploadFile.t) (ev : Event) (evs : list Event) :
    (forall before after, ev <> EvSetFiles before after) ->
    replays fs evs fs' -> replays fs (ev :: evs) fs'.

Definition event_ok (ev : Event) : Prop :=
  match ev with
  | EvSetFiles before after => step_ok before after
  | _ => True
  end.

(** The delays the loop owes from index [i] on: one for every item that is
    not already completed and is not at index 0. *)
Fixpoint throttled (i : nat) (rest : list UploadFile.t) : nat :=
  match rest with
  | [] => 0
  | f :: rest' =>
      ((if is_completed f then 0 else if (0 <? i)%nat then 1 else 0)
       + throttled (S i) rest')%nat
  end.

(** A run that stops before the loop: one notice, nothing else touched. *)
Definition aborted (w w' : World) : Prop :=
  files w' = files w /\ db_candidates w' = db_candidates w
  /\ db_jobs w' = db_jobs w
  /\ exists m, trace w' = (trace w ++ [EvError m])%list /\ errorMsg w' = Some m.

(** A run whose outer [catch] block throws in its turn, on a rejection
    with [null] or [undefined] before the loop: no notice, nothing
    touched. *)
Definition escaped (w w' : World) : Prop :=
  files w' = files w /\ db_candidates w' = db_candidates w
  /\ db_jobs w' = db_jobs w /\ trace w' = trace w /\ errorMsg w' = None.

(** The notice of the outer [catch] block for an error with that
    message. *)
Definition run_failed_msg (message : option string) : string :=
  "Analysis failed: " ++ JS.str_or message "Unknown error".

(** What the outer [catch] block makes of the way the loop ended: an
    error thrown out of the loop is reported, where it has a [message] to
    read. *)
Definition after_loop (r : Completion unit * World) : World :=
  match r with
  | (Throw err, w2) =>
      match JS.get_message err with
      | inr message =>
          emit (EvError (run_failed_msg message))
            (set_errorMsg (Some (run_failed_msg message)) w2)
      | inl _ => w2
      end
  | (_, w2) => w2
  end.

(** The state in which the loop starts: that of the call, up to the
    notice and the busy flag. *)
Definition same_stores (w w1 : World) : Prop :=
  files w1 = files w /\ db_candidates w1 = db_candidates w
  /\ trace w1 = trace w.

(** Every revision of [startAnalysis] either stops before the loop, with
    or without a notice, or runs the loop, for some variant, over the
    queue it was called with. *)
Definition run_shape (lp : Variant -> nat -> list UploadFile.t -> M unit)
    (w w' : World) : Prop :=
  aborted w w' \/ escaped w w'
  \/ exists v w1,
       same_stores w w1
       /\ w' = set_isAnalyzing false (after_loop (lp v 0%nat (files w) w1)).

(** The state in which [processItem] starts, after the throttle. *)
Definition throttle (i : nat) (w : World) : World :=
  if (0 <? i)%nat then emit (EvDelay 3000) w else w.

(** Within the events [evs] of a run, no update of the queue moves an item
    into [ERROR] from a state other than [READING] or [PARSING]. *)
Definition enters_error_properly (evs : list Event) : Prop :=
  forall before after j f f',
    In (EvSetFiles before after) evs ->
    before !! j = Some f -> after !! j = Some f' ->
    UploadFile.status f' = ERROR ->
    UploadFile.status f = ERROR \/ UploadFile.status f = READING
    \/ UploadFile.status f = PARSING.

Section Vocabulary.

Variable env : Env.

(** [Number(data.matchScore) || 0] *)
Definition matchScore_of (data : JS.value) : JS.number :=
  JS.num_or (JS.Number (conv env) (JS.prop data "matchScore")) (JS.Fin 0).

(** The record the loop builds for item [i] from the answer [data]. *)
Definition record_of (v : Variant) (i : nat) (cur : UploadFile.t)
    (data : JS.value) : Candidate.t :=
  newCandidate env v i cur data (matchScore_of data)
    (base64_of_dataURL (readAsDataURL (UploadFile.file cur))).

(** The provider answered [data] for item [i]. *)
Definition answered (i : nat) (data : JS.value) : Prop :=
  gemini_resume env i = inr data /\ JS.nullish data = false.

(** The store calls of the counter update of item [i] all succeed. *)
Definition stats_calls_succeed (i : nat) : Prop :=
  db_error env (UpdateJob i) = None /\ db_error env (FindJobsAfter i) = None.

(** The notice the [catch] block of an item shows for an error with that
    message. *)
Definition failure_notice (f : UploadFile.t) (message : option string) : string :=
  "Failed to analyze " ++ UploadFile.name f ++ ": "
  ++ JS.str_or message "Unknown error".

(** How the [catch] block of an item ends, and the notice it leaves over
    the notice [before]: it shows its own, or throws the TypeError of
    reading [message] from [null] or [undefined] and leaves the notice
    as it was. *)
Definition caught (f : UploadFile.t) (before : option string)
    (c : Completion unit) (after : option string) : Prop :=
  (exists message, c = Normal tt /\ after = Some (failure_notice f message))
  \/ (exists what, c = Throw (JS.Error (JS.no_message what)) /\ after = before).

(** What one pass of [processItem] over item [i] leaves behind, and how
    it ends. *)
Inductive ItemPost (v : Variant) (i : nat) (cur : UploadFile.t)
    (w : World) (c : Completion unit) (w' : World) : Prop :=
| item_completed (data : JS.value) (g : UploadFile.t -> UploadFile.t) :
    answered i data ->
    (forall x, g x = UploadFile.with_result COMPLETED 100 data x) ->
    files w' = map_at i g (files w) ->
    db_candidates w' = (db_candidates w ++ [record_of v i cur data])%list ->
    errorMsg w' = errorMsg w ->
    c = Normal tt ->
    ItemPost v i cur w c w'
| item_failed (g : UploadFile.t -> UploadFile.t) (stored : list Candidate.t) :
    (forall x, g x = UploadFile.with_status ERROR 0 x) ->
    files w' = map_at i g (files w) ->
    db_candidates w' = (db_candidates w ++ stored)%list ->
    stored = [] \/
      (exists data, answered i data /\ stored = [record_of v i cur data]
                    /\ ~ stats_calls_succeed i) ->
    caught cur (errorMsg w) c (errorMsg w') ->
    ItemPost v i cur w c w'.

(** No call of the provider or of the stores rejects with [null] or
    [undefined]. *)
Definition no_nullish_rejection : Prop :=
  (forall i e, gemini_resume env i = inl e -> JS.nullish_exn e = false)
  /\ (forall c e, db_error env c = Some e -> JS.nullish_exn e = false).

(** [c] is the record built for a pending item of [rest], the part of
    the queue that starts at index [i]. *)
Definition persisted_by (v : Variant) (i : nat) (rest : list UploadFile.t)
    (c : Candidate.t) : Prop :=
  exists k f data,
    rest !! k = Some f /\ is_completed f = false
    /\ answered (i + k) data /\ c = record_of v (i + k) f data.

(** The run of pages/ResumeScore.tsx gets past validation and job
    lookup. *)
Definition reaches_loop (w : World) : Prop :=
  JS.str_truthy (selectedJobId w) = true
  /\ files w <> []
  /\ db_error env FindJobs = None
  /\ find_job (selectedJobId w) (db_jobs w) <> None.

End Vocabulary.

(** ** Concrete batches *)

Module Examples.

Definition conversions : JS.Conversions :=
  {| JS.StringToNumber := fun _ => JS.NaN;
     JS.ObjectToNumber := fun _ => JS.NaN |}.

(** An answer of the provider with the given name and scores. *)
Definition answer (candidateName : JS.value) (matchScore jdMatchScore : JS.value)
    : JS.value :=
  JS.Obj [("candidateName", candidateName);
          ("currentRole", JS.Str "Engineer");
          ("matchScore", matchScore);
          ("jdMatchScore", jdMatchScore);
          ("qualificationMatchScore", JS.Num (JS.Fin (70 # 1)));
          ("resumeMatchScore", JS.Num (JS.Fin (60 # 1)))].

Definition score (n : Z) : JS.value := JS.Num (JS.Fin (n # 1)).

Definition good_answer (n : Z) : JS.value :=
  answer (JS.Str "Jane Doe") (score n) (score 75).

Definition make_env (answers : nat -> JS.Exn + JS.value)
    (failures : DbCall -> option JS.Exn)
    (jd : JS.Exn + ExtractedJobDetails) : Env :=
  {| conv := conversions;
     API_KEY := Some "key";
     key_debug_info := "";
     reader_error := fun _ => None;
     gemini_resume := answers;
     gemini_jd := jd;
     db_error := failures;
     now := fun _ => 1700000000000;
     now_job := 1700000000000;
     today := fun _ => "Jan 5, 2026" |}.

Definition quota : JS.Exn := JS.Error "429 quota exceeded".

(** Every call succeeds and every resume scores 91. *)
Definition calm : Env :=
  make_env (fun _ => inr (good_answer 91)) (fun _ => None) (inl quota).

(** The provider rejects the second file. *)
Definition second_rejected : Env :=
  make_env (fun i => if Nat.eqb i 1 then inl quota else inr (good_answer 91))
    (fun _ => None) (inl quota).

(** The provider rejects the first file. *)
Definition first_rejected : Env :=
  make_env (fun i => if Nat.eqb i 0 then inl quota else inr (good_answer 91))
    (fun _ => None) (inl quota).


(** The job store rejects the counter update of the first file. *)
Definition update_rejected : Env :=
  make_env (fun _ => inr (good_answer 91))
    (fun c => match c with
              | UpdateJob 0 => Some (JS.Error "500")
              | _ => None
              end)
    (inl quota).

(** The provider returns a score of 150 and a textual sub-score. *)
Definition out_of_range : Env :=
  make_env (fun _ => inr (answer (JS.Str "Jane Doe") (score 150) (JS.Str "high")))
    (fun _ => None) (inl quota).

(** The provider returns an empty candidate name and no current role. *)
Definition nameless : Env :=
  make_env (fun _ => inr (JS.Obj [("candidateName", JS.Str "");
                                  ("matchScore", score 64)]))
    (fun _ => None) (inl quota).

Definition pdf (name : string) (bytes : list byte) : File :=
  {| file_name := name; file_type := "application/pdf"; content := bytes |}.

Definition item (id : string) (f : File) (st : Status) : UploadFile.t :=
  {| UploadFile.id := id; UploadFile.file := f;
     UploadFile.name := file_name f; UploadFile.size := "0.0 MB";
     UploadFile.status := st;
     UploadFile.progress := match st with COMPLETED => 100 | _ => 0 end;
     UploadFile.result := None |}.

Definition cv1 : File := pdf "jane_doe-cv.pdf" [x25; x50; x44; x46].
Definition cv2 : File := pdf "john.smith.pdf" [x25; x50; x44].
Definition blank : File := pdf "blank.pdf" [].

Definition backend : Job.t :=
  {| Job.id := "j-1"; Job.title := "Backend Engineer";
     Job.department := "Engineering"; Job.location := Some "Berlin";
     Job.type := "Full-time"; Job.status := "Active";
     Job.applicantsCount := Some 0; Job.matchesCount := Some 0;
     Job.skills := Some ["Go"; "SQL"]; Job.description := None |}.

Definition page (queue : list UploadFile.t) : World :=
  {| files := queue; errorMsg := None; isAnalyzing := false;
     isExtractingJd := false; jobs := [backend]; selectedJobId := "j-1";
     db_jobs := [backend]; db_candidates := []; trace := [] |}.

Definition item_a : UploadFile.t := item "a" cv1 READY.
Definition item_b : UploadFile.t := item "b" cv2 READY.

Definition two_ready : World := page [item_a; item_b].

(** What the page closes over in the loop once it resolved [backend]. *)
Definition page_variant : Variant := variant_of_job true "j-1" backend.

(** A second run over a queue whose second item is already done. *)
Definition rerun : World :=
  page [item "a" cv1 READY; item "b" cv2 COMPLETED].

Definition three_ready : World :=
  page [item "a" cv1 READY; item "b" cv2 READY; item "c" cv1 READY].

Definition one_ready : World := page [item "a" cv1 READY].

Definition one_blank : World := page [item "a" blank READY].

Definition one_done : World := page [item "a" cv1 COMPLETED].

(** The page after a first run over two files, the first of them rejected
    by the provider. *)
Definition after_first_run : World :=
  snd (startAnalysis first_rejected two_ready).

End Examples.

(** ** The rest of the page and of the services *)

(** *** What a run leaves in the queue *)

(** What the loop leaves at index [i] in place of the item [f] it found
    there: [f] itself when it was already completed, else [f] completed
    with the answer of the provider, or [f] in [ERROR]. *)
Inductive final_item (env : Env) (i : nat) (f f' : UploadFile.t) : Prop :=
| final_skipped :
    is_completed f = true -> f' = f -> final_item env i f f'
| final_completed (data : JS.value) :
    is_completed f = false -> answered env i data ->
    f' = UploadFile.with_result COMPLETED 100 data f -> final_item env i f f'
| final_failed :
    is_completed f = false ->
    f' = UploadFile.with_status ERROR 0 f -> final_item env i f f'.

(** Two queue entries for the same upload: same id, file, name and size
    label. *)
Definition same_upload (f f' : UploadFile.t) : Prop :=
  UploadFile.id f' = UploadFile.id f
  /\ UploadFile.file f' = UploadFile.file f
  /\ UploadFile.name f' = UploadFile.name f
  /\ UploadFile.size f' = UploadFile.size f.


(** The notice of an item that failed for want of an API key. *)
Definition key_missing_msg (f : UploadFile.t) : string :=
  "Failed to analyze " ++ UploadFile.name f ++ ": Gemini API Key is missing.".

(** *** What a run leaves in the job store *)

(** Two stored jobs that differ at most in their two counters. *)
Definition counters_only (j j' : Job.t) : Prop :=
  Job.id j' = Job.id j /\ Job.title j' = Job.title j
  /\ Job.department j' = Job.department j /\ Job.location j' = Job.location j
  /\ Job.type j' = Job.type j /\ Job.status j' = Job.status j
  /\ Job.skills j' = Job.skills j /\ Job.description j' = Job.description j.

(** The job store after the counter update of an item that scored
    [matchScore], when every store call of the update succeeds. *)
Definition stats_written (p : StatsPolicy) (matchScore : JS.number)
    (js : list Job.t) : list Job.t :=
  match p with
  | StatsFromJob currentJob =>
      update_first (Job.id currentJob) (job_stats currentJob matchScore) js
  | StatsRefetch Database selectedJobId0 =>
      match find_job selectedJobId0 js with
      | Some currentJob =>
          update_first (Job.id currentJob) (job_stats currentJob matchScore) js
      | None => js
      end
  | StatsRefetch Upload _ => js
  end.

(** What one iteration over item [i] does to the queue, the job store and
    the notice, and how it ends. *)
Inductive IterPost (env : Env) (v : Variant) (i : nat) (cur : UploadFile.t)
    (w : World) (c : Completion unit) (w' : World) : Prop :=
| iter_skipped :
    is_completed cur = true -> w' = w -> c = Normal tt ->
    IterPost env v i cur w c w'
| iter_completed (data : JS.value) :
    is_completed cur = false -> answered env i data ->
    files w' = map_at i (UploadFile.with_result COMPLETED 100 data) (files w) ->
    db_jobs w' = stats_written (stats v) (matchScore_of env data) (db_jobs w) ->
    errorMsg w' = errorMsg w ->
    c = Normal tt ->
    IterPost env v i cur w c w'
| iter_failed :
    is_completed cur = false ->
    files w' = map_at i (UploadFile.with_status ERROR 0) (files w) ->
    db_jobs w' = db_jobs w ->
    caught cur (errorMsg w) c (errorMsg w') ->
    IterPost env v i cur w c w'.

(** Between the two stores, only the counters of jobs with id [sel] may
    differ: no job is added, removed or moved. *)
Definition job_frame (sel : string) (js js' : list Job.t) : Prop :=
  Forall2 (fun j j' => counters_only j j' /\ (Job.id j <> sel -> j' = j)) js js'.

(** The id of the job whose counters a policy writes. *)
Definition targets (p : StatsPolicy) (sel : string) : Prop :=
  match p with
  | StatsFromJob currentJob => Job.id currentJob = sel
  | StatsRefetch _ s => s = sel
  end.

(** *** More concrete batches *)

Module MoreExamples.

(** No API key was found at module load. *)
Definition keyless : Env :=
  {| conv := Examples.conversions;
     API_KEY := None;
     key_debug_info := "";
     reader_error := fun _ => None;
     gemini_resume := fun _ => inr (Examples.good_answer 91);
     gemini_jd := inl Examples.quota;
     db_error := fun _ => None;
     now := fun _ => 1700000000000;
     now_job := 1700000000000;
     today := fun _ => "Jan 5, 2026" |}.

(** What the provider extracts from the uploaded description. *)
Definition parsed : ExtractedJobDetails :=
  {| jd_title := Some "Data Engineer"; jd_department := Some "Data";
     jd_location := None; jd_type := Some "Contract";
     jd_skills := Some ["Spark"] |}.

(** Every call succeeds, the description is extracted. *)
Definition extracting : Env :=
  Examples.make_env (fun _ => inr (Examples.good_answer 91)) (fun _ => None)
    (inr parsed).

(** The job store rejects the new job. *)
Definition insert_rejected : Env :=
  Examples.make_env (fun _ => inr (Examples.good_answer 91))
    (fun c => match c with
              | InsertJob => Some (JS.Error "500")
              | _ => None
              end)
    (inr parsed).

Definition jd : File := Examples.pdf "data-engineer.pdf" [x25; x50].

(** A parsed description that came back without its skills. *)
Definition skill_less : ExtractedJobDetails :=
  {| jd_title := Some "Data Engineer"; jd_department := Some "Data";
     jd_location := None; jd_type := Some "Contract"; jd_skills := None |}.

End MoreExamples.

(** The state in which the loop of the [jdSource] revision starts after
    the uploaded description was extracted and stored. *)
Definition after_upload (env : Env) (ex : ExtractedJobDetails) (jd : File)
    (w : World) : World :=
  set_isExtractingJd false
    (set_db_jobs (db_jobs w ++ [newJob env ex jd])
       (set_selectedJobId (Job.id (newJob env ex jd))
          (set_jobs (newJob env ex jd :: jobs w)
             (set_isExtractingJd true
                (set_isAnalyzing true (set_errorMsg None w)))))).



(** *** Selecting files (pages/ResumeScore.tsx, [handleFileSelect]) *)

(** The tenths of a MiB that [(size / (1024 * 1024)).toFixed(1)] prints:
    the integer nearest to [10 * size / 2^20], the larger one on a tie.
    The quotient by a power of two is exact in IEEE arithmetic for every
    file size. *)
Definition size_tenths (size : Z) : Z := (20 * size + 1048576) / 2097152.

(** [`${(size / (1024 * 1024)).toFixed(1)} MB`] *)
Definition size_label (size : Z) : string :=
  JS.string_of_Z (size_tenths size / 10) ++ "."
  ++ JS.string_of_Z (size_tenths size mod 10) ++ " MB".

(** The queue entry of a selected file; [id] is what
    [Math.random().toString(36).substr(2, 9)] gave. *)
Definition newFile (id : string) (f : File) : UploadFile.t :=
  {| UploadFile.id := id; UploadFile.file := f;
     UploadFile.name := file_name f;
     UploadFile.size := size_label (file_size f);
     UploadFile.status := READY; UploadFile.progress := 0;
     UploadFile.result := None |}.

(** [handleFileSelect]: [random_id k] is the id drawn for the [k]-th
    selected file, and [selected] is [e.target.files]. *)
Definition handleFileSelect (random_id : nat -> string)
    (selected : option (list File)) : M unit :=
  let selectedFiles := match selected with Some l => l | None => [] end in
  let newFiles := imap (fun k f => newFile (random_id k) f) selectedFiles in
  setFiles (fun prev => (prev ++ newFiles)%list).

(** *** Loading the jobs (pages/ResumeScore.tsx, the effect [fetchJobs]) *)

(** Modelled from the spec: [db.jobs.find()] at mount, which the store
    answers or rejects with [rejected]. *)
Definition db_jobs_find_at_mount (rejected : option JS.Exn) : M (list Job.t) :=
  match rejected with
  | Some e => throw e
  | None => fun w => (Normal (db_jobs w), w)
  end.

(** [fetchJobs]: the jobs are listed, and the first one is selected when
    the selection the effect closed over is empty. *)
Definition fetchJobs (rejected : option JS.Exn) : M unit :=
  fun w0 =>
    let selectedJobId0 := selectedJobId w0 in
    (data <- db_jobs_find_at_mount rejected ;;
     modify (set_jobs data) ;;
     match data with
     | first :: _ =>
         if negb (JS.str_truthy selectedJobId0)
         then modify (set_selectedJobId (Job.id first))
         else ret tt
     | [] => ret tt
     end) w0.

(** *** Uploading a description (the [jobSource] revision, [handleJdUpload]) *)

(** The state of the upload card. *)
Record JdUpload : Type := {
  uploadedJdFile : option File;
  parsedJd : option ExtractedJobDetails;
  isParsingJd : bool
}.

Definition parse_failed_msg (message : option string) : string :=
  "Failed to parse Job Description: " ++ tpl message
  ++ ". Please try a clearer PDF.".

(** [handleJdUpload], for [e.target.files?.[0]].  The upload is set and the
    parsed description and the notice are cleared before the [try]; the
    [catch] block builds its notice from [err.message], and when that
    throws neither the notice nor the reset of the upload is reached; the
    [finally] lowers the flag in every case. *)
Definition handleJdUpload (env : Env) (file : option File) (s : JdUpload)
    (w : World) : JdUpload * World :=
  match file with
  | None => (s, w)
  | Some f =>
      let w1 := snd (setErrorMsg None w) in
      match extractJobDetailsFromPDF env f w1 with
      | (Normal details, w2) =>
          ({| uploadedJdFile := Some f; parsedJd := Some details;
              isParsingJd := false |}, w2)
      | (Throw err, w2) =>
          match JS.get_message err with
          | inr message =>
              ({| uploadedJdFile := None; parsedJd := None;
                  isParsingJd := false |},
               snd (setErrorMsg (Some (parse_failed_msg message)) w2))
          | inl _ =>
              ({| uploadedJdFile := Some f; parsedJd := None;
                  isParsingJd := false |}, w2)
          end
      | (Return, w2) =>
          ({| uploadedJdFile := Some f; parsedJd := None; isParsingJd := false |},
           w2)
      end
  end.

(** *** The API key (services/ai.ts [getApiKey], and pages/Chat.tsx) *)

(** What the module finds behind the identifier [process]. *)
Inductive Process : Type :=
| ProcessUndeclared
| ProcessWithoutEnv
| ProcessEnv (vars : string -> option string).

(** The two places the key is looked for: [import.meta.env], which may be
    missing, and [process]. *)
Record Host : Type := {
  import_meta_env : option (string -> option string);
  process : Process
}.

(** The truthiness of an environment variable. *)
Definition var_truthy (o : option string) : bool :=
  match o with
  | Some s => JS.str_truthy s
  | None => false
  end.

(** [import.meta.env && import.meta.env.k] as far as its truthiness and,
    when truthy, its value go. *)
Definition meta_var (h : Host) (k : string) : option string :=
  match import_meta_env h with
  | Some vars => vars k
  | None => None
  end.

(** [getApiKey]: a reference to [process.env.k] throws when [process] is
    not declared or has no [env]; the empty [catch] then falls through to
    [return undefined]. *)
Definition getApiKey (h : Host) : option string :=
  if var_truthy (meta_var h "VITE_GEMINI_API_KEY")
  then meta_var h "VITE_GEMINI_API_KEY"
  else if var_truthy (meta_var h "GEMINI_API_KEY")
  then meta_var h "GEMINI_API_KEY"
  else
    match process h with
    | ProcessEnv vars =>
        if var_truthy (vars "VITE_GEMINI_API_KEY")
        then vars "VITE_GEMINI_API_KEY"
        else if var_truthy (vars "GEMINI_API_KEY") then vars "GEMINI_API_KEY"
        else if var_truthy (vars "API_KEY") then vars "API_KEY"
        else None
    | ProcessUndeclared | ProcessWithoutEnv => None
    end.

(** The key [handleSend] of pages/Chat.tsx looks up for itself. *)
Definition chat_API_KEY (h : Host) : option string :=
  if var_truthy (meta_var h "VITE_GEMINI_API_KEY")
  then meta_var h "VITE_GEMINI_API_KEY"
  else if var_truthy (meta_var h "GEMINI_API_KEY")
  then meta_var h "GEMINI_API_KEY"
  else None.

(** The environment of a run on a host: the key is read once, at module
    load. *)
Definition on_host (h : Host) (env : Env) : Env :=
  {| conv := conv env; API_KEY := getApiKey h;
     key_debug_info := key_debug_info env; reader_error := reader_error env;
     gemini_resume := gemini_resume env; gemini_jd := gemini_jd env;
     db_error := db_error env; now := now env; now_job := now_job env;
     today := today env |}.

(** *** Cleaning the answer of the provider (services/ai.ts, [analyzeResume]) *)

(** A string of the host, as its UTF-16 code units. *)
Definition ustring : Type := list N.

(** The code units of the two patterns: three backticks, and three
    backticks followed by [json]. *)
Definition fence : ustring := [96; 96; 96]%N.
Definition fence_json : ustring := [96; 96; 96; 106; 115; 111; 110]%N.

Fixpoint starts_with (p s : ustring) : bool :=
  match p, s with
  | [], _ => true
  | a :: p', b :: s' => (a =? b)%N && starts_with p' s'
  | _ :: _, [] => false
  end.

(** [s.replace(/p/g, '')] for a literal pattern [p]: the matches are found
    from left to right and do not overlap.  [skip] code units of the
    current match are still to be dropped. *)
Fixpoint remove_from (p : ustring) (skip : nat) (s : ustring) : ustring :=
  match s with
  | [] => []
  | a :: t =>
      match skip with
      | S k => remove_from p k t
      | O =>
          if starts_with p s then remove_from p (length p - 1) t
          else a :: remove_from p 0 t
      end
  end.

Definition remove_all (p s : ustring) : ustring := remove_from p 0 s.

(** The WhiteSpace and LineTerminator code units, which [trim] strips. *)
Definition is_space (c : N) : bool :=
  ((c =? 9) || (c =? 10) || (c =? 11) || (c =? 12) || (c =? 13) || (c =? 32)
   || (c =? 160) || (c =? 5760) || ((8192 <=? c) && (c <=? 8202))
   || (c =? 8232) || (c =? 8233) || (c =? 8239) || (c =? 8287)
   || (c =? 12288) || (c =? 65279))%N.

Fixpoint trim_start (s : ustring) : ustring :=
  match s with
  | [] => []
  | a :: t => if is_space a then trim_start t else s
  end.

Fixpoint trim_end (s : ustring) : ustring :=
  match s with
  | [] => []
  | a :: t =>
      match trim_end t with
      | [] => if is_space a then [] else [a]
      | r => a :: r
      end
  end.

(** [s.trim()] *)
Definition trim (s : ustring) : ustring := trim_end (trim_start s).

(** [text.replace(/```json/g, '').replace(/```/g, '').trim()] *)
Definition cleanJson (text : ustring) : ustring :=
  trim (remove_all fence (remove_all fence_json text)).

(** No three backticks in a row. *)
Definition no_fence (s : ustring) : Prop :=
  forall a b, s <> (a ++ fence ++ b)%list.

(** Does the text hold three backticks in a row? *)
Fixpoint has_fence (s : ustring) : bool :=
  match s with
  | [] => false
  | _ :: t => starts_with fence s || has_fence t
  end.

(** *** The history sent to the provider (pages/Chat.tsx, [handleSend]) *)

Module Chat.

Inductive MsgRole : Type := User | Assistant.

Record Message : Type := {
  id : string;
  role : MsgRole;
  content : string;
  timestamp : Z
}.

Inductive ContextType : Type := CtxJob | CtxResume | CtxCandidate.

(** [ChatContext]: [type] is [null] or one of the three kinds, and [data]
    is optional. *)
Record ChatContext : Type := {
  type : option ContextType;
  data : option (Job.t + Candidate.t)
}.

Inductive HistRole : Type := user | model.

Inductive Part : Type :=
| Text (text : string)
| InlineData (mimeType : string) (payload : string).

Record Turn : Type := {
  turn_role : HistRole;
  parts : list Part
}.

Definition HistRole_eqb (a b : HistRole) : bool :=
  match a, b with
  | user, user | model, model => true
  | _, _ => false
  end.

(** [context.type === 'resume' || context.type === 'candidate'] *)
Definition is_profile (t : option ContextType) : bool :=
  match t with
  | Some CtxResume | Some CtxCandidate => true
  | _ => false
  end.

(** [(context.data as any).resumeBase64] for a [data] that is there: a job
    has no such property. *)
Definition resumeBase64_of (d : Job.t + Candidate.t) : option string :=
  match d with
  | inl _ => None
  | inr c => Some (Candidate.resumeBase64 c)
  end.

(** The document to inject: the condition of the first [if], and [b64]. *)
Definition injected_resume (c : ChatContext) : option string :=
  if is_profile (type c) then
    match data c with
    | Some d =>
        match resumeBase64_of d with
        | Some b64 => if JS.str_truthy b64 then Some b64 else None
        | None => None
        end
    | None => None
    end
  else None.

Definition resume_turns (b64 : string) : list Turn :=
  [ {| turn_role := user;
       parts := [Text "Here is the candidate's resume document for reference.";
                 InlineData "application/pdf" b64] |};
    {| turn_role := model;
       parts := [Text "I have received the resume document. I will use it to answer your questions accurately."] |} ].

(** [conversationHistory[conversationHistory.length - 1]] *)
Fixpoint lastAdded (history : list Turn) : option Turn :=
  match history with
  | [] => None
  | [t] => Some t
  | _ :: rest => lastAdded rest
  end.

Definition turn_of (msg : Message) : Turn :=
  {| turn_role := match role msg with User => user | Assistant => model end;
     parts := [Text (content msg)] |}.

(** The [for] loop over [previousMessages]: a message whose role is that
    of the turn added last is left out. *)
Fixpoint push_messages (history : list Turn) (previousMessages : list Message)
    : list Turn :=
  match previousMessages with
  | [] => history
  | msg :: rest =>
      match lastAdded history with
      | Some t =>
          if HistRole_eqb (turn_role t) (turn_role (turn_of msg))
          then push_messages history rest
          else push_messages (history ++ [turn_of msg]) rest
      | None => push_messages (history ++ [turn_of msg]) rest
      end
  end.

(** The history [handleSend] hands to [startChat], or the [TypeError] of
    reading [resumeBase64] from a missing [context.data]. *)
Definition conversationHistory (c : ChatContext) (messages : list Message)
    : JS.Exn + list Turn :=
  let previousMessages := List.tl messages in
  let injected :=
    match injected_resume c with
    | Some b64 => resume_turns b64
    | None => []
    end in
  let history := push_messages injected previousMessages in
  match history with
  | [] => inr []
  | first :: rest =>
      if HistRole_eqb (turn_role first) user then inr history
      else if is_profile (type c) then
        match data c with
        | None =>
            inl (JS.Error
                   "Cannot read properties of undefined (reading 'resumeBase64')")
        | Some d =>
            match resumeBase64_of d with
            | Some (String _ _) => inr history
            | _ => inr rest
            end
        end
      else inr rest
  end.

Definition flip (r : HistRole) : HistRole :=
  match r with user => model | model => user end.

(** The turns take the roles [r], [flip r], [r], ... in order. *)
Fixpoint alternates_from (r : HistRole) (h : list Turn) : Prop :=
  match h with
  | [] => True
  | t :: rest => turn_role t = r /\ alternates_from (flip r) rest
  end.

End Chat.

(** *** The ids and payloads of the stored candidates *)

(** [`c-${Date.now()}-${i}`] *)
Definition candidate_id (env : Env) (i : nat) : string :=
  "c-" ++ JS.string_of_Z (now env i) ++ "-" ++ JS.string_of_nat i.

(** A character other than the dash. *)
Definition no_dash (c : ascii) : bool := negb (Ascii.eqb c "-").

(** What the loop of the [jobSource] revision closes over in upload mode. *)
Definition variant_of_parsed (selectedJobId0 : string)
    (parsedJd : ExtractedJobDetails) : Variant :=
  {| with_record_score := false;
     ctx := ctx_of_parsed parsedJd;
     assoc_id := "temp-uploaded-jd";
     stats := StatsRefetch Upload selectedJobId0 |}.

(** *** The order of calls and waits *)

Definition is_call_or_wait (ev : Event) : bool := is_delay ev || is_analyze ev.

(** The analysis calls and the waits among the events of a run, in order. *)
Definition schedule (evs : list Event) : list Event :=
  List.filter is_call_or_wait evs.

(** Are there two analysis calls with no wait between them? *)
Fixpoint back_to_back (l : list Event) : bool :=
  match l with
  | [] => false
  | a :: t =>
      match t with
      | [] => false
      | b :: _ => (is_analyze a && is_analyze b) || back_to_back t
      end
  end.

(** The calls and waits the loop goes through from index [i] on. *)
Fixpoint planned (i : nat) (rest : list UploadFile.t) : list Event :=
  match rest with
  | [] => []
  | f :: rest' =>
      ((if is_completed f then []
        else (if (0 <? i)%nat then [EvDelay 3000] else []) ++ [EvAnalyze i])
       ++ planned (S i) rest')%list
  end.


(** ** Indexed updates of the queue *)

Lemma map_at_lookup (i : nat) (g : UploadFile.t -> UploadFile.t)
    (l : list UploadFile.t) (j : nat) :
  map_at i g l !! j = (fun f => if Nat.eqb j i then g f else f) <$> l !! j.
Proof. unfold map_at. apply list_lookup_imap. Qed.

Lemma map_at_lookup_eq (i : nat) (g : UploadFile.t -> UploadFile.t)
    (l : list UploadFile.t) :
  map_at i g l !! i = g <$> l !! i.
Proof. rewrite map_at_lookup, Nat.eqb_refl. reflexivity. Qed.

Lemma map_at_lookup_ne (i j : nat) (g : UploadFile.t -> UploadFile.t)
    (l : list UploadFile.t) :
  i <> j -> map_at i g l !! j = l !! j.
Proof.
  intros Hij. rewrite map_at_lookup.
  destruct (Nat.eqb_spec j i) as [->|_]; [congruence|].
  destruct (l !! j); reflexivity.
Qed.

Lemma map_at_alter (i : nat) (g : UploadFile.t -> UploadFile.t)
    (l : list UploadFile.t) :
  map_at i g l = alter g i l.
Proof.
  apply list_eq. intros j. destruct (decide (i = j)) as [->|Hij].
  - rewrite map_at_lookup_eq, list_lookup_alter_eq. reflexivity.
  - rewrite map_at_lookup_ne, list_lookup_alter_ne by assumption. reflexivity.
Qed.

Lemma map_at_map_at (i : nat) (g h : UploadFile.t -> UploadFile.t)
    (l : list UploadFile.t) :
  map_at i g (map_at i h l) = map_at i (fun x => g (h x)) l.
Proof.
  apply list_eq. intros j. rewrite !map_at_lookup.
  destruct (l !! j); simpl; [|reflexivity].
  destruct (Nat.eqb j i); reflexivity.
Qed.

Lemma map_at_ext (i : nat) (g h : UploadFile.t -> UploadFile.t)
    (l : list UploadFile.t) :
  (forall x, g x = h x) -> map_at i g l = map_at i h l.
Proof.
  intros E. apply list_eq. intros j. rewrite !map_at_lookup.
  destruct (l !! j); simpl; [|reflexivity].
  destruct (Nat.eqb j i); [rewrite E|]; reflexivity.
Qed.

Lemma map_at_length (i : nat) (g : UploadFile.t -> UploadFile.t)
    (l : list UploadFile.t) :
  length (map_at i g l) = length l.
Proof. unfold map_at. apply length_imap. Qed.

Lemma map_at_drop (i : nat) (g : UploadFile.t -> UploadFile.t)
    (l : list UploadFile.t) :
  drop (S i) (map_at i g l) = drop (S i) l.
Proof.
  apply list_eq. intros j. rewrite !lookup_drop.
  apply map_at_lookup_ne. lia.
Qed.

Lemma step_ok_first (i : nat) (h : UploadFile.t -> UploadFile.t)
    (l : list UploadFile.t) :
  (forall x, UploadFile.status (h x) = ERROR -> UploadFile.status x <> ERROR ->
             UploadFile.status x = READING \/ UploadFile.status x = PARSING) ->
  step_ok l (map_at i h l).
Proof.
  intros H j f f' Hf Hf' He Hne. rewrite map_at_lookup, Hf in Hf'. simpl in Hf'.
  destruct (Nat.eqb j i); inversion Hf'; subst f'.
  - apply H; assumption.
  - contradiction.
Qed.

Lemma step_ok_from (i : nat) (k h : UploadFile.t -> UploadFile.t)
    (l : list UploadFile.t) :
  (forall x, UploadFile.status (h x) = ERROR -> UploadFile.status (k x) <> ERROR ->
             UploadFile.status (k x) = READING \/ UploadFile.status (k x) = PARSING) ->
  step_ok (map_at i k l) (map_at i h l).
Proof.
  intros H j f f' Hf Hf' He Hne. rewrite map_at_lookup in Hf, Hf'.
  destruct (l !! j) as [x|]; simpl in Hf, Hf'; [|discriminate].
  destruct (Nat.eqb j i); inversion Hf; inversion Hf'; subst f f'.
  - apply H; assumption.
  - contradiction.
Qed.

Section ItemFacts.

Variable env : Env.

Ltac run_try :=
  unfold tryItem, analyzeResume, read_matchScore, fileToBase64,
    db_candidates_insertOne, updateJobStats, db_jobs_updateOne, db_jobs_find,
    db_call, setFiles, modify, bind, ret, throw; simpl.

Ltac run_item :=
  unfold processItem, catchItem, read_message, try_catch, setErrorMsg;
  run_try.

(** The thrown value the [catch] block is looking at, by cases. *)
Ltac by_thrown_value :=
  try match goal with
      | |- context [JS.get_message ?e] => is_var e; destruct e as [| |message]
      end;
  simpl.

Ltac try_throws :=
  eexists; eexists; eexists; (split; [reflexivity|]); simpl;
  split; [rewrite ?map_at_map_at; reflexivity|];
  split; [reflexivity|];
  right; eexists; exists []; (split; [reflexivity|]);
  split; [intros x; reflexivity|];
  split; [rewrite app_nil_r; reflexivity|left; reflexivity].

Ltac try_throws_after_insert G N :=
  eexists; eexists; eexists; (split; [reflexivity|]); simpl;
  split; [rewrite ?map_at_map_at; reflexivity|];
  split; [reflexivity|];
  right; eexists; eexists; (split; [reflexivity|]);
  split; [intros x; reflexivity|];
  split; [reflexivity|];
  right; eexists; split; [split; [exact G|exact N]|];
  split; [reflexivity|]; unfold stats_calls_succeed; intros [? ?]; congruence.

Ltac try_completes G N :=
  eexists; eexists; eexists; (split; [reflexivity|]); simpl;
  split; [rewrite ?map_at_map_at; reflexivity|];
  split; [reflexivity|];
  left; eexists; (split; [reflexivity|]);
  split; [split; [exact G|exact N]|];
  split; [intros x; reflexivity|reflexivity].

(** What the [try] block of item [i] leaves behind, and how it ends: with
    the item completed and its record stored, or with an error thrown
    after updates of the item alone, and after at most the insert. *)
Lemma tryItem_post (v : Variant) (i : nat) (cur : UploadFile.t) (w : World) :
  exists c w' g,
    tryItem env v i cur w = (c, w')
    /\ files w' = map_at i g (files w)
    /\ errorMsg w' = errorMsg w
    /\ ((exists data,
           c = Normal tt /\ answered env i data
           /\ (forall x, g x = UploadFile.with_result COMPLETED 100 data x)
           /\ db_candidates w'
              = (db_candidates w ++ [record_of env v i cur data])%list)
        \/ (exists e stored,
              c = Throw e
              /\ (forall x, UploadFile.with_status ERROR 0 (g x)
                            = UploadFile.with_status ERROR 0 x)
              /\ db_candidates w' = (db_candidates w ++ stored)%list
              /\ (stored = [] \/
                  exists data,
                    answered env i data /\ stored = [record_of env v i cur data]
                    /\ ~ stats_calls_succeed env i))).
Proof.
  run_try.
  destruct (has_key env); simpl; [|try_throws].
  destruct (reader_error env (ReadInGateway i)); simpl; [try_throws|].
  destruct (ctx_skills (ctx v)); simpl; [|try_throws].
  destruct (gemini_resume env i) as [e|data] eqn:G; simpl; [try_throws|].
  destruct (JS.nullish data) eqn:N; simpl; [try_throws|].
  destruct (reader_error env (ReadInScheduler i)); simpl; [try_throws|].
  destruct (db_error env (InsertCandidate i)) as [e|]; simpl; [try_throws|].
  destruct (stats v) as [currentJob|[|] sel]; simpl.
  - destruct (db_error env (UpdateJob i)) as [e|] eqn:U; simpl;
      [try_throws_after_insert G N|try_completes G N].
  - destruct (db_error env (FindJobsAfter i)) as [e|] eqn:F; simpl;
      [try_throws_after_insert G N|].
    destruct (find_job sel (db_jobs w)); simpl; [|try_completes G N].
    destruct (db_error env (UpdateJob i)) as [e|] eqn:U; simpl;
      [try_throws_after_insert G N|try_completes G N].
  - try_completes G N.
Qed.

(** The [catch] block of item [i] on the thrown value [e]: the item goes
    to [ERROR], and then the notice is shown, unless [e] has no [message]
    to read. *)
Lemma catchItem_post (i : nat) (cur : UploadFile.t) (e : JS.Exn) (w : World) :
  files (snd (catchItem i cur e w))
  = map_at i (UploadFile.with_status ERROR 0) (files w)
  /\ db_candidates (snd (catchItem i cur e w)) = db_candidates w
  /\ db_jobs (snd (catchItem i cur e w)) = db_jobs w
  /\ match JS.get_message e with
     | inr message =>
         fst (catchItem i cur e w) = Normal tt
         /\ errorMsg (snd (catchItem i cur e w))
            = Some (failure_notice cur message)
         /\ trace (snd (catchItem i cur e w))
            = (trace w
               ++ [EvSetFiles (files w)
                     (map_at i (UploadFile.with_status ERROR 0) (files w));
                   EvError (failure_notice cur message)])%list
     | inl type_error =>
         fst (catchItem i cur e w) = Throw (JS.Error type_error)
         /\ errorMsg (snd (catchItem i cur e w)) = errorMsg w
         /\ trace (snd (catchItem i cur e w))
            = (trace w
               ++ [EvSetFiles (files w)
                     (map_at i (UploadFile.with_status ERROR 0) (files w))])%list
     end.
Proof.
  unfold catchItem, read_message, setFiles, setErrorMsg, modify, bind, ret, throw.
  destruct e as [| |message]; simpl; repeat split.
  rewrite <- app_assoc. reflexivity.
Qed.

Lemma catchItem_caught (i : nat) (cur : UploadFile.t) (e : JS.Exn) (w : World) :
  caught cur (errorMsg w) (fst (catchItem i cur e w))
    (errorMsg (snd (catchItem i cur e w))).
Proof.
  destruct (catchItem_post i cur e w) as (_ & _ & _ & H).
  destruct e as [| |message]; simpl in H; destruct H as (C & M & _).
  - right. exists "null". split; assumption.
  - right. exists "undefined". split; assumption.
  - left. exists message. split; assumption.
Qed.

(** [processItem], from the way its [try] block ends. *)
Lemma processItem_try (v : Variant) (i : nat) (cur : UploadFile.t) (w : World) :
  processItem env v i cur w
  = match tryItem env v i cur
            (snd (setFiles (map_at i (UploadFile.with_status READING 10)) w)) with
    | (Throw e, w1) => catchItem i cur e w1
    | r => r
    end.
Proof. reflexivity. Qed.

Lemma processItem_post (v : Variant) (i : nat) (cur : UploadFile.t) (w : World) :
  exists c w', processItem env v i cur w = (c, w')
               /\ ItemPost env v i cur w c w'.
Proof.
  rewrite processItem_try.
  set (w0 := snd (setFiles (map_at i (UploadFile.with_status READING 10)) w)).
  assert (F0 : files w0 = map_at i (UploadFile.with_status READING 10) (files w))
    by reflexivity.
  assert (D0 : db_candidates w0 = db_candidates w) by reflexivity.
  assert (M0 : errorMsg w0 = errorMsg w) by reflexivity.
  clearbody w0.
  destruct (tryItem_post v i cur w0)
    as (c & w1 & g & E & F & M & [(data & -> & A & G & D)|(e & stored & -> & G & D & S)]);
    rewrite E.
  - exists (Normal tt), w1. split; [reflexivity|].
    eapply item_completed with (g := fun x => g (UploadFile.with_status READING 10 x));
      [exact A| |rewrite F, F0, map_at_map_at; reflexivity|congruence|congruence
      |reflexivity].
    intros x. rewrite G. reflexivity.
  - destruct (catchItem_post i cur e w1) as (F2 & D2 & _).
    pose proof (catchItem_caught i cur e w1) as C.
    destruct (catchItem i cur e w1) as [c w2]. simpl in *.
    exists c, w2. split; [reflexivity|].
    eapply item_failed
      with (g := fun x => UploadFile.with_status ERROR 0
                            (g (UploadFile.with_status READING 10 x)))
           (stored := stored);
      [|rewrite F2, F, F0, !map_at_map_at; reflexivity|congruence|exact S
      |rewrite <- M0, <- M; exact C].
    intros x. rewrite G. reflexivity.
Qed.

(** The item completes normally when no call rejects with [null] or
    [undefined]. *)
Lemma processItem_normal (v : Variant) (i : nat) (cur : UploadFile.t) (w : World) :
  no_nullish_rejection env -> fst (processItem env v i cur w) = Normal tt.
Proof.
  intros [Hg Hd]. run_item.
  destruct (has_key env); simpl; [|reflexivity].
  destruct (reader_error env (ReadInGateway i)); simpl; [reflexivity|].
  destruct (ctx_skills (ctx v)); simpl; [|reflexivity].
  destruct (gemini_resume env i) as [e|data] eqn:G; simpl.
  { specialize (Hg i e G). destruct e; [discriminate..|reflexivity]. }
  destruct (JS.nullish data) eqn:N; simpl; [reflexivity|].
  destruct (reader_error env (ReadInScheduler i)); simpl; [reflexivity|].
  destruct (db_error env (InsertCandidate i)) as [e|] eqn:I; simpl.
  { specialize (Hd _ e I). destruct e; [discriminate..|reflexivity]. }
  destruct (stats v) as [currentJob|[|] sel]; simpl.
  - destruct (db_error env (UpdateJob i)) as [e|] eqn:U; simpl; [|reflexivity].
    specialize (Hd _ e U). destruct e; [discriminate..|reflexivity].
  - destruct (db_error env (FindJobsAfter i)) as [e|] eqn:F; simpl.
    { specialize (Hd _ e F). destruct e; [discriminate..|reflexivity]. }
    destruct (find_job sel (db_jobs w)); simpl; [|reflexivity].
    destruct (db_error env (UpdateJob i)) as [e|] eqn:U; simpl; [|reflexivity].
    specialize (Hd _ e U). destruct e; [discriminate..|reflexivity].
  - reflexivity.
Qed.

Ltac step_goal :=
  simpl; first [apply step_ok_from | apply step_ok_first];
  intros x; simpl; intros;
  first [discriminate | right; reflexivity | tauto].

Ltac replay_goal :=
  repeat first
    [ apply replays_nil
    | apply replays_set
    | apply replays_other; [intros ? ?; discriminate|] ].

Ltac trace_goal :=
  by_thrown_value;
  (rewrite <- ?app_assoc; simpl; rewrite ?map_at_map_at;
   eexists; split; [reflexivity|];
   split; [reflexivity|]; split; [reflexivity|];
   split; [repeat (apply List.Forall_cons; [first [exact I | step_goal]|]);
           apply List.Forall_nil|];
   split; [simpl; tauto|];
   replay_goal).

(** The events of one pass: no delay, one analysis call, and only
    admissible updates of the queue. *)
Lemma processItem_trace (v : Variant) (i : nat) (cur : UploadFile.t) (w : World) :
  exists evs,
    trace (snd (processItem env v i cur w)) = (trace w ++ evs)%list
    /\ count_delays evs = 0%nat
    /\ count_analyze evs = 1%nat
    /\ Forall event_ok evs
    /\ In (EvAnalyze i) evs
    /\ replays (files w) evs (files (snd (processItem env v i cur w))).
Proof.
  run_item.
  destruct (has_key env); simpl; [|trace_goal].
  destruct (reader_error env (ReadInGateway i)); simpl; [trace_goal|].
  destruct (ctx_skills (ctx v)); simpl; [|trace_goal].
  destruct (gemini_resume env i) as [e|data]; simpl; [trace_goal|].
  destruct (JS.nullish data); simpl; [trace_goal|].
  destruct (reader_error env (ReadInScheduler i)); simpl; [trace_goal|].
  destruct (db_error env (InsertCandidate i)) as [e|]; simpl; [trace_goal|].
  destruct (stats v) as [currentJob|[|] sel]; simpl.
  - destruct (db_error env (UpdateJob i)) as [e|]; simpl; trace_goal.
  - destruct (db_error env (FindJobsAfter i)) as [e|]; simpl; [trace_goal|].
    destruct (find_job sel (db_jobs w)); simpl; [|trace_goal].
    destruct (db_error env (UpdateJob i)) as [e|]; simpl; trace_goal.
  - trace_goal.
Qed.

End ItemFacts.

(** ** Counting *)

Lemma count_delays_app (a b : list Event) :
  count_delays (a ++ b) = (count_delays a + count_delays b)%nat.
Proof. unfold count_delays. rewrite List.filter_app, length_app. reflexivity. Qed.

Lemma count_analyze_app (a b : list Event) :
  count_analyze (a ++ b) = (count_analyze a + count_analyze b)%nat.
Proof. unfold count_analyze. rewrite List.filter_app, length_app. reflexivity. Qed.

Lemma pending_cons (f : UploadFile.t) (fs : list UploadFile.t) :
  pending (f :: fs) = ((if is_completed f then 0 else 1) + pending fs)%nat.
Proof. unfold pending. simpl. destruct (is_completed f); reflexivity. Qed.

Lemma count_completed_cons (f : UploadFile.t) (fs : list UploadFile.t) :
  count_completed (f :: fs)
  = ((if is_completed f then 1 else 0) + count_completed fs)%nat.
Proof. unfold count_completed. simpl. destruct (is_completed f); reflexivity. Qed.

Lemma pending_le_length (fs : list UploadFile.t) : (pending fs <= length fs)%nat.
Proof.
  induction fs as [|f fs IH]; [reflexivity|].
  rewrite pending_cons. simpl. destruct (is_completed f); lia.
Qed.

Lemma pending_all (fs : list UploadFile.t) :
  count_completed fs = 0%nat -> pending fs = length fs.
Proof.
  induction fs as [|f fs IH]; [reflexivity|].
  rewrite count_completed_cons, pending_cons. simpl.
  destruct (is_completed f); [discriminate|]. intros H. rewrite IH by exact H.
  reflexivity.
Qed.

Lemma throttled_succ (i : nat) (rest : list UploadFile.t) :
  throttled (S i) rest = pending rest.
Proof.
  revert i. induction rest as [|f rest IH]; intros i; [reflexivity|].
  simpl. rewrite IH, pending_cons. reflexivity.
Qed.

Lemma throttled_zero (fs : list UploadFile.t) :
  throttled 0 fs = pending (tail fs).
Proof.
  destruct fs as [|f fs]; [reflexivity|]. simpl.
  rewrite throttled_succ. destruct (is_completed f); reflexivity.
Qed.

(** ** The loop as a whole *)

Section LoopFacts.

Variable env : Env.
Variable v : Variant.

Lemma iteration_unfold (i : nat) (cur : UploadFile.t) (w : World) :
  iteration env v i cur w =
    if is_completed cur then (Normal tt, w)
    else processItem env v i cur (throttle i w).
Proof.
  unfold iteration, is_completed, throttle.
  destruct (Status_eqb (UploadFile.status cur) COMPLETED); [reflexivity|].
  unfold bind, delay, modify, ret. destruct (0 <? i)%nat; reflexivity.
Qed.

(** An iteration completes normally, or throws the TypeError of its
    [catch] block. *)
Lemma iteration_completion (i : nat) (cur : UploadFile.t) (w : World) :
  fst (iteration env v i cur w) = Normal tt
  \/ exists what,
       fst (iteration env v i cur w) = Throw (JS.Error (JS.no_message what)).
Proof.
  rewrite iteration_unfold. destruct (is_completed cur); [left; reflexivity|].
  destruct (processItem_post env v i cur (throttle i w)) as (c & w' & E & P).
  rewrite E. simpl.
  destruct P as [data g A G F D M C|g stored G F D S [(m & C & M)|(what & C & M)]].
  - left. exact C.
  - left. exact C.
  - right. exists what. exact C.
Qed.

Lemma iteration_normal (i : nat) (cur : UploadFile.t) (w : World) :
  no_nullish_rejection env -> fst (iteration env v i cur w) = Normal tt.
Proof.
  intros H. rewrite iteration_unfold. destruct (is_completed cur); [reflexivity|].
  apply processItem_normal, H.
Qed.

(** The loop goes on after an iteration that completes normally. *)
Lemma loop_continue (i : nat) (cur : UploadFile.t) (rest : list UploadFile.t)
    (w : World) :
  fst (iteration env v i cur w) = Normal tt ->
  loop env v i (cur :: rest) w
  = loop env v (S i) rest (snd (iteration env v i cur w)).
Proof.
  intros N. simpl. unfold bind.
  destruct (iteration env v i cur w) as [c w1]. simpl in N. subst c.
  reflexivity.
Qed.

(** It is abandoned by an iteration that throws. *)
Lemma loop_stop (i : nat) (cur : UploadFile.t) (rest : list UploadFile.t)
    (w : World) (t : JS.Exn) :
  fst (iteration env v i cur w) = Throw t ->
  loop env v i (cur :: rest) w = (Throw t, snd (iteration env v i cur w)).
Proof.
  intros N. simpl. unfold bind.
  destruct (iteration env v i cur w) as [c w1]. simpl in N. subst c.
  reflexivity.
Qed.

Lemma loop_step (i : nat) (cur : UploadFile.t) (rest : list UploadFile.t)
    (w : World) :
  (fst (iteration env v i cur w) = Normal tt
   /\ loop env v i (cur :: rest) w
      = loop env v (S i) rest (snd (iteration env v i cur w)))
  \/ (exists what,
        fst (iteration env v i cur w) = Throw (JS.Error (JS.no_message what))
        /\ loop env v i (cur :: rest) w
           = (Throw (JS.Error (JS.no_message what)),
              snd (iteration env v i cur w))).
Proof.
  destruct (iteration_completion i cur w) as [N|(what & N)].
  - left. split; [exact N|apply loop_continue, N].
  - right. exists what. split; [exact N|apply loop_stop, N].
Qed.

Lemma loop_completion (rest : list UploadFile.t) (i : nat) (w : World) :
  fst (loop env v i rest w) = Normal tt
  \/ exists what,
       fst (loop env v i rest w) = Throw (JS.Error (JS.no_message what)).
Proof.
  revert i w. induction rest as [|cur rest IH]; intros i w; [left; reflexivity|].
  destruct (loop_step i cur rest w) as [[_ ->]|(what & _ & ->)]; [apply IH|].
  right. exists what. reflexivity.
Qed.

Lemma loop_normal (rest : list UploadFile.t) (i : nat) (w : World) :
  no_nullish_rejection env -> fst (loop env v i rest w) = Normal tt.
Proof.
  intros H. revert i w. induction rest as [|cur rest IH]; intros i w;
    [reflexivity|].
  rewrite loop_continue by (apply iteration_normal, H). apply IH.
Qed.

(** A property of the states before and after that every iteration
    establishes, and that composes, holds of the loop. *)
Lemma loop_invariant (P : World -> World -> Prop) :
  (forall w, P w w) ->
  (forall a b c, P a b -> P b c -> P a c) ->
  (forall i cur w, P w (snd (iteration env v i cur w))) ->
  forall rest i w, P w (snd (loop env v i rest w)).
Proof.
  intros R T H rest. induction rest as [|cur rest IH]; intros i w; [apply R|].
  destruct (loop_step i cur rest w) as [[_ ->]|(what & _ & ->)].
  - eapply T; [apply H|apply IH].
  - apply H.
Qed.

Lemma iteration_trace (i : nat) (cur : UploadFile.t) (w : World) :
  exists evs,
    trace (snd (iteration env v i cur w)) = (trace w ++ evs)%list
    /\ count_delays evs
       = (if is_completed cur then 0 else if (0 <? i)%nat then 1 else 0)%nat
    /\ count_analyze evs = (if is_completed cur then 0 else 1)%nat
    /\ Forall event_ok evs
    /\ (is_completed cur = false -> In (EvAnalyze i) evs)
    /\ replays (files w) evs (files (snd (iteration env v i cur w))).
Proof.
  rewrite iteration_unfold. destruct (is_completed cur).
  - exists []. simpl. rewrite app_nil_r.
    split; [reflexivity|]. split; [reflexivity|]. split; [reflexivity|].
    split; [apply List.Forall_nil|]. split; [discriminate|apply replays_nil].
  - destruct (processItem_trace env v i cur (throttle i w))
      as (evs & T & D & A & O & I & R).
    unfold throttle in T, R |- *. destruct (0 <? i)%nat.
    + exists (EvDelay 3000 :: evs). simpl in T. rewrite <- app_assoc in T.
      split; [exact T|]. split.
      { change (EvDelay 3000 :: evs) with ([EvDelay 3000] ++ evs)%list.
        rewrite count_delays_app, D. reflexivity. }
      split.
      { change (EvDelay 3000 :: evs) with ([EvDelay 3000] ++ evs)%list.
        rewrite count_analyze_app, A. reflexivity. }
      split; [apply List.Forall_cons; [exact Logic.I | exact O]|].
      split; [intros _; right; exact I|].
      apply replays_other; [intros ? ?; discriminate|exact R].
    + exists evs. split; [exact T|]. split; [exact D|]. split; [exact A|].
      split; [exact O|]. split; [intros _; exact I|exact R].
Qed.

Lemma replays_app (a b c : list UploadFile.t) (e1 e2 : list Event) :
  replays a e1 b -> replays b e2 c -> replays a (e1 ++ e2) c.
Proof.
  intros H1 H2. induction H1 as [fs|fs fs' fs'' evs H IH|fs fs' ev evs N H IH];
    simpl.
  - exact H2.
  - apply replays_set, IH, H2.
  - apply replays_other; [exact N|apply IH, H2].
Qed.

(** The events of the loop over [rest], the queue from index [i] on: at
    most the calls and waits it owes, and exactly those when it is not
    abandoned. *)
Lemma loop_trace (rest : list UploadFile.t) (i : nat) (w : World) :
  exists evs,
    trace (snd (loop env v i rest w)) = (trace w ++ evs)%list
    /\ (count_delays evs <= throttled i rest)%nat
    /\ (count_analyze evs <= pending rest)%nat
    /\ Forall event_ok evs
    /\ replays (files w) evs (files (snd (loop env v i rest w)))
    /\ (fst (loop env v i rest w) = Normal tt ->
        count_delays evs = throttled i rest
        /\ count_analyze evs = pending rest
        /\ forall k f, rest !! k = Some f -> is_completed f = false ->
                       In (EvAnalyze (i + k)) evs).
Proof.
  revert i w. induction rest as [|cur rest IH]; intros i w.
  - exists []. simpl. rewrite app_nil_r.
    split; [reflexivity|]. split; [reflexivity|]. split; [reflexivity|].
    split; [apply List.Forall_nil|]. split; [apply replays_nil|].
    intros _. split; [reflexivity|]. split; [reflexivity|].
    intros k f H; discriminate.
  - destruct (iteration_trace i cur w) as (e1 & T1 & D1 & A1 & O1 & I1 & R1).
    destruct (loop_step i cur rest w) as [[_ ->]|(what & _ & ->)].
    + destruct (IH (S i) (snd (iteration env v i cur w)))
        as (e2 & T2 & D2 & A2 & O2 & R2 & N2).
      exists (e1 ++ e2)%list.
      split; [rewrite T2, T1, app_assoc; reflexivity|].
      split; [rewrite count_delays_app, D1; simpl; lia|].
      split; [rewrite count_analyze_app, A1, pending_cons; lia|].
      split; [apply Forall_app; split; assumption|].
      split; [exact (replays_app _ _ _ _ _ R1 R2)|].
      intros N. destruct (N2 N) as (D3 & A3 & I3).
      split; [rewrite count_delays_app, D1, D3; reflexivity|].
      split; [rewrite count_analyze_app, A1, A3, pending_cons; reflexivity|].
      intros k f Hk Hf. apply in_or_app. destruct k as [|k]; simpl in Hk.
      * inversion Hk; subst f. left. rewrite Nat.add_0_r. apply I1, Hf.
      * right. replace (i + S k)%nat with (S i + k)%nat by lia.
        eapply I3; eassumption.
    + exists e1. simpl.
      split; [exact T1|]. split; [rewrite D1; lia|].
      split; [rewrite A1, pending_cons; lia|].
      split; [exact O1|]. split; [exact R1|]. discriminate.
Qed.

Lemma throttle_stores (i : nat) (w : World) :
  files (throttle i w) = files w
  /\ db_candidates (throttle i w) = db_candidates w.
Proof. unfold throttle. destruct (0 <? i)%nat; split; reflexivity. Qed.

Lemma map_at_id (i : nat) (l : list UploadFile.t) :
  map_at i (fun x => x) l = l.
Proof. rewrite map_at_alter. apply list_alter_id. reflexivity. Qed.

Lemma persisted_by_here (i : nat) (cur : UploadFile.t)
    (rest : list UploadFile.t) (data : JS.value) :
  is_completed cur = false -> answered env i data ->
  persisted_by env v i (cur :: rest) (record_of env v i cur data).
Proof.
  intros Hc Ha. exists 0%nat, cur, data. rewrite Nat.add_0_r.
  repeat split; try assumption; apply Ha.
Qed.

Lemma persisted_by_later (i : nat) (cur : UploadFile.t)
    (rest : list UploadFile.t) (c : Candidate.t) :
  persisted_by env v (S i) rest c -> persisted_by env v i (cur :: rest) c.
Proof.
  intros (k & f & data & Hk & Hc & Ha & E). exists (S k), f, data.
  replace (i + S k)%nat with (S i + k)%nat by lia. repeat split; try assumption;
    apply Ha.
Qed.

(** One iteration changes the queue at index [i] only, stores at most
    one record, and completes the item only with its record stored. *)
Lemma iteration_store (i : nat) (cur : UploadFile.t) (rest : list UploadFile.t)
    (w : World) :
  exists g ins,
    files (snd (iteration env v i cur w)) = map_at i g (files w)
    /\ db_candidates (snd (iteration env v i cur w))
       = (db_candidates w ++ ins)%list
    /\ Forall (persisted_by env v i (cur :: rest)) ins
    /\ (is_completed cur = true -> is_completed (g cur) = true)
    /\ (is_completed (g cur) = true ->
        is_completed cur = true /\ ins = [] \/
        is_completed cur = false /\ length ins = 1%nat)
    /\ (stats_calls_succeed env i -> is_completed (g cur) = false -> ins = []).
Proof.
  rewrite iteration_unfold. destruct (is_completed cur) eqn:C.
  - exists (fun x => x), []. simpl. rewrite map_at_id, app_nil_r.
    split; [reflexivity|]. split; [reflexivity|].
    split; [apply List.Forall_nil|]. split; [auto|].
    split; [intros _; left; split; reflexivity|].
    intros _ H. congruence.
  - destruct (processItem_post env v i cur (throttle i w)) as (c & w' & E & P).
    destruct (throttle_stores i w) as [Tf Tc].
    rewrite E. simpl. destruct P as [data g A G F D M _|g stored G F D S M].
    + exists g, [record_of env v i cur data]. rewrite F, D, Tf, Tc.
      repeat split.
      * apply List.Forall_cons; [|apply List.Forall_nil].
        apply persisted_by_here; assumption.
      * discriminate.
      * intros _. right. split; reflexivity.
      * intros _ H. rewrite G in H. discriminate.
    + exists g, stored. rewrite F, D, Tf, Tc. repeat split.
      * destruct S as [->|(data & A & -> & _)]; [apply List.Forall_nil|].
        apply List.Forall_cons; [|apply List.Forall_nil].
        apply persisted_by_here; assumption.
      * discriminate.
      * intros H. rewrite G in H. discriminate.
      * intros Hs _. destruct S as [->|(data & _ & _ & N)]; [reflexivity|].
        contradiction.
Qed.

(** The queue and the candidate store after the loop over [rest], the
    part of the queue that starts at index [i]. *)
Lemma loop_store (rest : list UploadFile.t) (i : nat) (w : World) :
  drop i (files w) = rest ->
  length (files (snd (loop env v i rest w))) = length (files w)
  /\ (forall j, (j < i)%nat ->
                files (snd (loop env v i rest w)) !! j = files w !! j)
  /\ exists ins,
       db_candidates (snd (loop env v i rest w)) = (db_candidates w ++ ins)%list
       /\ Forall (persisted_by env v i rest) ins
       /\ (count_completed rest
           <= count_completed (drop i (files (snd (loop env v i rest w)))))%nat
       /\ (count_completed (drop i (files (snd (loop env v i rest w))))
           <= count_completed rest + length ins)%nat
       /\ ((forall k, stats_calls_succeed env (i + k)) ->
           count_completed (drop i (files (snd (loop env v i rest w))))
           = (count_completed rest + length ins)%nat).
Proof.
  revert i w. induction rest as [|cur rest IH]; intros i w Hd.
  - unfold loop, ret. simpl. split; [reflexivity|]. split; [reflexivity|].
    exists []. rewrite app_nil_r, Hd.
    split; [reflexivity|]. split; [apply List.Forall_nil|].
    unfold count_completed. simpl. split; [lia|]. split; [lia|]. intros _. lia.
  - assert (Hi : files w !! i = Some cur).
    { pose proof (lookup_drop (files w) i 0) as L. rewrite Hd in L.
      rewrite Nat.add_0_r in L. symmetry. exact L. }
    assert (Hr : drop (S i) (files w) = rest).
    { replace (S i) with (i + 1)%nat by lia.
      rewrite <- drop_drop, Hd. reflexivity. }
    destruct (iteration_store i cur rest w) as (g & ins1 & F1 & D1 & P1 & K1 & C1 & S1).
    set (w1 := snd (iteration env v i cur w)) in *.
    assert (Hd1 : drop (S i) (files w1) = rest).
    { rewrite F1, map_at_drop. exact Hr. }
    assert (Tail :
      length (files (snd (loop env v i (cur :: rest) w))) = length (files w1)
      /\ (forall j, (j < S i)%nat ->
            files (snd (loop env v i (cur :: rest) w)) !! j = files w1 !! j)
      /\ exists ins,
           db_candidates (snd (loop env v i (cur :: rest) w))
           = (db_candidates w1 ++ ins)%list
           /\ Forall (persisted_by env v (S i) rest) ins
           /\ (count_completed rest
               <= count_completed
                    (drop (S i) (files (snd (loop env v i (cur :: rest) w)))))%nat
           /\ (count_completed
                 (drop (S i) (files (snd (loop env v i (cur :: rest) w))))
               <= count_completed rest + length ins)%nat
           /\ ((forall k, stats_calls_succeed env (S i + k)) ->
               count_completed
                 (drop (S i) (files (snd (loop env v i (cur :: rest) w))))
               = (count_completed rest + length ins)%nat)).
    { destruct (loop_step i cur rest w) as [[_ ->]|(what & _ & ->)].
      - apply IH. exact Hd1.
      - simpl. fold w1. split; [reflexivity|]. split; [reflexivity|].
        exists []. rewrite app_nil_r, Hd1. simpl.
        split; [reflexivity|]. split; [apply List.Forall_nil|].
        split; [lia|]. split; [lia|]. intros _. lia. }
    destruct Tail as (L2 & U2 & ins2 & D2 & P2 & M2 & G2 & E2).
    set (w2 := snd (loop env v i (cur :: rest) w)) in *.
    assert (Hi2 : files w2 !! i = Some (g cur)).
    { rewrite U2 by lia. rewrite F1, map_at_lookup_eq, Hi. reflexivity. }
    split; [rewrite L2, F1; apply map_at_length|].
    split.
    { intros j Hj. rewrite U2 by lia. rewrite F1.
      apply map_at_lookup_ne. lia. }
    exists (ins1 ++ ins2)%list.
    rewrite (drop_S _ _ _ Hi2), !count_completed_cons, length_app.
    split; [rewrite D2, D1, app_assoc; reflexivity|].
    split.
    { apply Forall_app. split; [exact P1|].
      eapply Forall_impl; [exact P2|]. intros c. apply persisted_by_later. }
    destruct (is_completed cur) eqn:Cc, (is_completed (g cur)) eqn:Cg.
    + destruct (C1 eq_refl) as [[_ ->]|[? _]]; [|discriminate]. simpl.
      repeat split; [lia|lia|].
      intros Hs. rewrite E2; [lia|]. intros k.
      replace (S i + k)%nat with (i + S k)%nat by lia. apply Hs.
    + specialize (K1 eq_refl). discriminate.
    + destruct (C1 eq_refl) as [[? _]|[_ Hl]]; [discriminate|].
      repeat split; [lia|lia|].
      intros Hs. rewrite E2; [lia|]. intros k.
      replace (S i + k)%nat with (i + S k)%nat by lia. apply Hs.
    + repeat split; [lia|lia|].
      intros Hs. rewrite E2.
      * rewrite (S1 (eq_ind _ _ (Hs 0%nat) _ (Nat.add_0_r i)) eq_refl).
        simpl. lia.
      * intros k. replace (S i + k)%nat with (i + S k)%nat by lia. apply Hs.
Qed.

Lemma iteration_completed (i : nat) (cur f' : UploadFile.t) (w : World)
    (ins : list Candidate.t) :
  files w !! i = Some cur -> is_completed cur = false ->
  files (snd (iteration env v i cur w)) !! i = Some f' ->
  is_completed f' = true ->
  db_candidates (snd (iteration env v i cur w)) = (db_candidates w ++ ins)%list ->
  exists data, answered env i data /\ ins = [record_of env v i cur data].
Proof.
  intros Hi Hc. rewrite iteration_unfold, Hc.
  destruct (processItem_post env v i cur (throttle i w)) as (c & w' & E & P).
  destruct (throttle_stores i w) as [Tf Tc]. rewrite E. simpl.
  destruct P as [data g A G F D M _|g stored G F D S M];
    rewrite F, D, Tf, Tc, map_at_lookup_eq, Hi; simpl; intros Hf Hs Hd.
  - exists data. split; [exact A|]. symmetry. eapply app_inv_head. exact Hd.
  - inversion Hf; subst f'. rewrite G in Hs. discriminate.
Qed.

(** Every item the loop completes has its record among those stored. *)
Lemma loop_completed_stored (rest : list UploadFile.t) (i : nat) (w : World)
    (ins : list Candidate.t) :
  drop i (files w) = rest ->
  db_candidates (snd (loop env v i rest w)) = (db_candidates w ++ ins)%list ->
  forall k f f',
    rest !! k = Some f -> is_completed f = false ->
    files (snd (loop env v i rest w)) !! (i + k)%nat = Some f' ->
    is_completed f' = true ->
    exists data, answered env (i + k) data
                 /\ In (record_of env v (i + k) f data) ins.
Proof.
  revert i w ins. induction rest as [|cur rest IH]; intros i w ins Hd Hi k f f' Hk;
    [discriminate|].
  assert (Hcur : files w !! i = Some cur).
  { pose proof (lookup_drop (files w) i 0) as L. rewrite Hd in L.
    rewrite Nat.add_0_r in L. symmetry. exact L. }
  assert (Hr : drop (S i) (files w) = rest).
  { replace (S i) with (i + 1)%nat by lia.
    rewrite <- drop_drop, Hd. reflexivity. }
  destruct (iteration_store i cur rest w) as (g & ins1 & F1 & D1 & _).
  set (w1 := snd (iteration env v i cur w)) in *.
  assert (Hd1 : drop (S i) (files w1) = rest).
  { rewrite F1, map_at_drop. exact Hr. }
  destruct (loop_step i cur rest w) as [[_ L]|(what & _ & L)];
    rewrite L in *; fold w1 in Hi |- *.
  - destruct (loop_store rest (S i) w1 Hd1) as (_ & U2 & ins2 & D2 & _).
    assert (ins = (ins1 ++ ins2)%list) as ->.
    { rewrite D2, D1, <- app_assoc in Hi. symmetry. eapply app_inv_head. exact Hi. }
    intros Hc Hf Hs. destruct k as [|k]; simpl in Hk.
    + inversion Hk; subst f. rewrite Nat.add_0_r in *.
      rewrite U2 in Hf by lia.
      destruct (iteration_completed i cur f' w ins1 Hcur Hc Hf Hs D1)
        as (data & A & ->).
      exists data. split; [exact A|]. apply in_or_app. left. left. reflexivity.
    + replace (i + S k)%nat with (S i + k)%nat in * by lia.
      destruct (IH (S i) w1 ins2 Hd1 D2 k f f' Hk Hc Hf Hs) as (data & A & I).
      exists data. split; [exact A|]. apply in_or_app. right. exact I.
  - simpl in *. fold w1 in Hi |- *.
    assert (ins = ins1) as ->.
    { rewrite D1 in Hi. symmetry. eapply app_inv_head. exact Hi. }
    intros Hc Hf Hs. destruct k as [|k]; simpl in Hk.
    + inversion Hk; subst f. rewrite Nat.add_0_r in *.
      destruct (iteration_completed i cur f' w ins1 Hcur Hc Hf Hs D1)
        as (data & A & ->).
      exists data. split; [exact A|]. left. reflexivity.
    + exfalso.
      pose proof (lookup_drop (files w1) (S i) k) as X.
      rewrite Hd1, Hk in X.
      replace (S i + k)%nat with (i + S k)%nat in X by lia.
      rewrite Hf in X. inversion X; subst f'. congruence.
Qed.

End LoopFacts.

(** ** What the outer [catch] adds to the run of the loop *)

Lemma after_loop_normal (r : Completion unit * World) :
  fst r = Normal tt -> after_loop r = snd r.
Proof. destruct r as [[[]|e|] w2]; simpl; intros H; [reflexivity|discriminate..]. Qed.

Lemma after_loop_throw (type_error : string) (r : Completion unit * World) :
  fst r = Throw (JS.Error type_error) ->
  after_loop r
  = emit (EvError (run_failed_msg (Some type_error)))
      (set_errorMsg (Some (run_failed_msg (Some type_error))) (snd r)).
Proof.
  destruct r as [[[]|e|] w2]; simpl; intros H; try discriminate.
  injection H as ->. reflexivity.
Qed.

(** The outer [catch] leaves the queue, the stores and the rest of the
    page alone, and adds at most its notice to the events. *)
Lemma after_loop_fields (r : Completion unit * World) :
  files (after_loop r) = files (snd r)
  /\ db_candidates (after_loop r) = db_candidates (snd r)
  /\ db_jobs (after_loop r) = db_jobs (snd r)
  /\ selectedJobId (after_loop r) = selectedJobId (snd r)
  /\ jobs (after_loop r) = jobs (snd r)
  /\ isAnalyzing (after_loop r) = isAnalyzing (snd r)
  /\ isExtractingJd (after_loop r) = isExtractingJd (snd r)
  /\ exists tl,
       trace (after_loop r) = (trace (snd r) ++ tl)%list
       /\ (tl = [] \/ exists m, tl = [EvError m]).
Proof.
  destruct r as [[[]|[| |message]|] w2]; simpl; repeat split;
    first [ exists []; rewrite app_nil_r; split; [reflexivity|left; reflexivity]
          | eexists; split; [reflexivity|right; eexists; reflexivity] ].
Qed.

(** ** The three revisions of [startAnalysis] reach the same loop *)

Section Shapes.

Variable env : Env.

Ltac open_run :=
  unfold function_body, try_finally, try_catch, catchRun, read_message, bind,
    setErrorMsg, setIsAnalyzing, setIsExtractingJd, setJobs, setSelectedJobId,
    db_jobs_find, db_jobs_insertOne, db_call, modify, ret, throw, return_;
  simpl.

Ltac stops := left; repeat split; eexists; split; reflexivity.

Ltac escapes := right; left; repeat split.

(** A rejection before the loop, by cases on the rejected value. *)
Ltac halts :=
  try match goal with
      | |- context [JS.get_message ?e] => is_var e; destruct e as [| |message]
      end;
  simpl; first [stops | escapes].

Ltac enters_loop :=
  simpl;
  lazymatch goal with
  | |- _ = set_isAnalyzing false (after_loop (loop env ?ve 0 _ ?we)) =>
      match goal with
      | |- context [loop env ?v' 0 ?fs ?w'] =>
          assert_fails (has_evar v'); assert_fails (has_evar w');
          unify ve v'; unify we w';
          destruct (loop env v' 0 fs w') as [[[]|[| |message]|] w2]
      end
  end;
  reflexivity.

(** pages/ResumeScore.tsx: the run stops before the loop, or resolves
    the selected job and runs the loop over the queue. *)
Lemma startAnalysis_shape (w : World) :
  aborted w (snd (startAnalysis env w))
  \/ escaped w (snd (startAnalysis env w))
  \/ exists currentJob w1,
       same_stores w w1
       /\ find_job (selectedJobId w) (db_jobs w) = Some currentJob
       /\ snd (startAnalysis env w)
          = set_isAnalyzing false
              (after_loop
                 (loop env (variant_of_job true (selectedJobId w) currentJob)
                    0 (files w) w1)).
Proof.
  unfold startAnalysis. open_run.
  destruct (negb (JS.str_truthy (selectedJobId w)) || (length (files w) =? 0)%nat);
    simpl; [stops|].
  destruct (db_error env FindJobs) as [e|]; simpl; [halts|].
  destruct (find_job (selectedJobId w) (db_jobs w)) as [currentJob|] eqn:Fj;
    simpl; [|stops].
  right. right. exists currentJob.
  eexists (set_isAnalyzing true (set_errorMsg None w)).
  split; [repeat split|]. split; [reflexivity|].
  enters_loop.
Qed.

(** The revision with [jobSource]. *)
Lemma startAnalysis_jobSource_shape (jobSource : JobSource)
    (parsedJd : option ExtractedJobDetails) (w : World) :
  aborted w (snd (startAnalysis_jobSource env jobSource parsedJd w))
  \/ escaped w (snd (startAnalysis_jobSource env jobSource parsedJd w))
  \/ exists v w1,
       same_stores w w1
       /\ stats v = StatsRefetch jobSource (selectedJobId w)
       /\ snd (startAnalysis_jobSource env jobSource parsedJd w)
          = set_isAnalyzing false (after_loop (loop env v 0 (files w) w1)).
Proof.
  unfold startAnalysis_jobSource, resolve_jobSource. open_run.
  destruct jobSource; simpl.
  - destruct (negb (JS.str_truthy (selectedJobId w))); simpl; [stops|].
    destruct (length (files w) =? 0)%nat; simpl; [stops|].
    destruct (db_error env FindJobs) as [e|]; simpl; [halts|].
    destruct (find_job (selectedJobId w) (db_jobs w)) as [job|]; simpl; [|stops].
    right. right. eexists. eexists (set_isAnalyzing true (set_errorMsg None w)).
    split; [repeat split|]. split; [|enters_loop]. reflexivity.
  - destruct parsedJd as [p|]; simpl; [|stops].
    destruct (length (files w) =? 0)%nat; simpl; [stops|].
    right. right. eexists. eexists (set_isAnalyzing true (set_errorMsg None w)).
    split; [repeat split|]. split; [|enters_loop]. reflexivity.
Qed.

(** The revision with [jdSource]. *)
Lemma startAnalysis_jdSource_shape (jdSource : JdSource)
    (jdFile : option File) (w : World) :
  aborted w (snd (startAnalysis_jdSource env jdSource jdFile w))
  \/ escaped w (snd (startAnalysis_jdSource env jdSource jdFile w))
  \/ exists job w1,
       same_stores w w1
       /\ snd (startAnalysis_jdSource env jdSource jdFile w)
          = set_isAnalyzing false
              (after_loop
                 (loop env (variant_of_job false (selectedJobId w) job)
                    0 (files w) w1)).
Proof.
  assert (Hfind :
    forall c : M (option Job.t),
      c = (allJobs <- db_jobs_find env FindJobs ;;
           ret (find_job (selectedJobId w) allJobs)) ->
      resolve_jdSource env jdSource jdFile (selectedJobId w) = c ->
      aborted w (snd (startAnalysis_jdSource env jdSource jdFile w))
      \/ escaped w (snd (startAnalysis_jdSource env jdSource jdFile w))
      \/ exists job w1,
           same_stores w w1
           /\ snd (startAnalysis_jdSource env jdSource jdFile w)
              = set_isAnalyzing false
                  (after_loop
                     (loop env (variant_of_job false (selectedJobId w) job)
                        0 (files w) w1))).
  { intros c -> E. unfold startAnalysis_jdSource. rewrite E. open_run.
    destruct (negb (JS.str_truthy (selectedJobId w))
              || (length (files w) =? 0)%nat); simpl; [stops|].
    destruct (db_error env FindJobs) as [e|]; simpl; [halts|].
    destruct (find_job (selectedJobId w) (db_jobs w)) as [job|]; simpl; [|stops].
    right. right. exists job. eexists (set_isAnalyzing true (set_errorMsg None w)).
    split; [repeat split|].
    enters_loop. }
  destruct jdSource; [apply (Hfind _ eq_refl); reflexivity|].
  destruct jdFile as [jd|]; [clear Hfind|apply (Hfind _ eq_refl); reflexivity].
  unfold startAnalysis_jdSource, resolve_jdSource, extractJobDetailsFromPDF,
    fileToBase64.
  open_run.
  destruct (negb (JS.str_truthy (selectedJobId w)) || (length (files w) =? 0)%nat);
    simpl; [stops|].
  destruct (has_key env); simpl; [|stops].
  destruct (reader_error env ReadJd); simpl; [stops|].
  destruct (gemini_jd env) as [e|extractedJd]; simpl; [halts|].
  destruct (db_error env InsertJob) as [e|]; simpl; [halts|].
  right. right. eexists. eexists. split; [|enters_loop]. repeat split.
Qed.

Lemma startAnalysis_loops (w : World) :
  reaches_loop env w ->
  exists currentJob,
    find_job (selectedJobId w) (db_jobs w) = Some currentJob
    /\ snd (startAnalysis env w)
       = set_isAnalyzing false
           (after_loop
              (loop env (variant_of_job true (selectedJobId w) currentJob)
                 0 (files w) (set_isAnalyzing true (set_errorMsg None w)))).
Proof.
  intros (Hs & Hf & Hd & Hj).
  assert (Hl : (length (files w) =? 0)%nat = false).
  { destruct (files w); [congruence|reflexivity]. }
  unfold startAnalysis. open_run. rewrite Hs, Hl. simpl. rewrite Hd. simpl.
  destruct (find_job (selectedJobId w) (db_jobs w)) as [currentJob|];
    [|congruence].
  exists currentJob. split; [reflexivity|]. enters_loop.
Qed.

End Shapes.

Section Runs.

Variable env : Env.

Lemma startAnalysis_run (w : World) :
  run_shape (loop env) w (snd (startAnalysis env w)).
Proof.
  destruct (startAnalysis_shape env w) as [A|[X|(job & w1 & S & _ & E)]];
    [left; exact A|right; left; exact X|].
  right. right. eexists. exists w1. split; [exact S|exact E].
Qed.

Lemma startAnalysis_jobSource_run (jobSource : JobSource)
    (parsedJd : option ExtractedJobDetails) (w : World) :
  run_shape (loop env) w (snd (startAnalysis_jobSource env jobSource parsedJd w)).
Proof.
  destruct (startAnalysis_jobSource_shape env jobSource parsedJd w)
    as [A|[X|(v & w1 & S & _ & E)]]; [left; exact A|right; left; exact X|].
  right. right. exists v, w1. split; [exact S|exact E].
Qed.

Lemma startAnalysis_jdSource_run (jdSource : JdSource) (jdFile : option File)
    (w : World) :
  run_shape (loop env) w (snd (startAnalysis_jdSource env jdSource jdFile w)).
Proof.
  destruct (startAnalysis_jdSource_shape env jdSource jdFile w)
    as [A|[X|(job & w1 & S & E)]]; [left; exact A|right; left; exact X|].
  right. right. eexists. exists w1. split; [exact S|exact E].
Qed.

(** The events of a run, whatever the revision. *)
Lemma run_trace (w w' : World) :
  run_shape (loop env) w w' ->
  exists evs,
    trace w' = (trace w ++ evs)%list
    /\ Forall event_ok evs
    /\ (count_analyze evs <= length (files w))%nat
    /\ (count_delays evs <= length (files w) - 1)%nat
    /\ replays (files w) evs (files w').
Proof.
  intros [(Hf & _ & _ & m & T & _)|[(Hf & _ & _ & T & _)
          |(v & w1 & (Sf & _ & St) & ->)]].
  - exists [EvError m]. split; [exact T|].
    split; [apply List.Forall_cons; [exact I|apply List.Forall_nil]|].
    unfold count_analyze, count_delays. simpl.
    split; [lia|]. split; [lia|]. rewrite Hf.
    apply replays_other; [intros ? ?; discriminate|apply replays_nil].
  - exists []. rewrite app_nil_r. split; [exact T|].
    split; [apply List.Forall_nil|].
    unfold count_analyze, count_delays. simpl.
    split; [lia|]. split; [lia|]. rewrite Hf. apply replays_nil.
  - destruct (loop_trace env v (files w) 0 w1) as (evs & T & D & A & O & R & _).
    destruct (after_loop_fields (loop env v 0 (files w) w1))
      as (Ff & _ & _ & _ & _ & _ & _ & tl & Tt & Htl).
    exists (evs ++ tl)%list. simpl.
    rewrite Tt, T, St, Ff, <- app_assoc. split; [reflexivity|].
    rewrite throttled_zero in D. rewrite Sf in R.
    pose proof (pending_le_length (files w)).
    pose proof (pending_le_length (tail (files w))).
    assert (length (tail (files w)) = (length (files w) - 1)%nat)
      by (destruct (files w); simpl; lia).
    destruct Htl as [->|(m & ->)].
    + rewrite app_nil_r. split; [exact O|]. split; [lia|]. split; [lia|exact R].
    + rewrite count_analyze_app, count_delays_app.
      unfold count_analyze at 2, count_delays at 2. simpl.
      split; [apply Forall_app; split;
                [exact O|apply List.Forall_cons; [exact I|apply List.Forall_nil]]|].
      split; [lia|]. split; [lia|].
      eapply replays_app; [exact R|].
      apply replays_other; [intros ? ?; discriminate|apply replays_nil].
Qed.

End Runs.

Section Stores.

Variable env : Env.

(** What a run of pages/ResumeScore.tsx adds to the candidate store, and
    how that relates to the items it completes. *)
Lemma startAnalysis_store (w : World) :
  exists ins,
    db_candidates (snd (startAnalysis env w)) = (db_candidates w ++ ins)%list
    /\ (forall c, In c ins ->
          exists job k f data,
            find_job (selectedJobId w) (db_jobs w) = Some job
            /\ files w !! k = Some f /\ is_completed f = false
            /\ answered env k data
            /\ c = record_of env (variant_of_job true (selectedJobId w) job)
                     k f data)
    /\ (count_completed (files w)
        <= count_completed (files (snd (startAnalysis env w))))%nat
    /\ (count_completed (files (snd (startAnalysis env w)))
        <= count_completed (files w) + length ins)%nat
    /\ ((forall k, stats_calls_succeed env k) ->
        count_completed (files (snd (startAnalysis env w)))
        = (count_completed (files w) + length ins)%nat)
    /\ (forall k f f',
          files w !! k = Some f -> is_completed f = false ->
          files (snd (startAnalysis env w)) !! k = Some f' ->
          is_completed f' = true ->
          exists job data,
            find_job (selectedJobId w) (db_jobs w) = Some job
            /\ answered env k data
            /\ In (record_of env (variant_of_job true (selectedJobId w) job)
                     k f data) ins).
Proof.
  assert (Stopped :
    files (snd (startAnalysis env w)) = files w ->
    db_candidates (snd (startAnalysis env w)) = db_candidates w ->
    exists ins,
      db_candidates (snd (startAnalysis env w)) = (db_candidates w ++ ins)%list
      /\ (forall c, In c ins ->
            exists job k f data,
              find_job (selectedJobId w) (db_jobs w) = Some job
              /\ files w !! k = Some f /\ is_completed f = false
              /\ answered env k data
              /\ c = record_of env (variant_of_job true (selectedJobId w) job)
                       k f data)
      /\ (count_completed (files w)
          <= count_completed (files (snd (startAnalysis env w))))%nat
      /\ (count_completed (files (snd (startAnalysis env w)))
          <= count_completed (files w) + length ins)%nat
      /\ ((forall k, stats_calls_succeed env k) ->
          count_completed (files (snd (startAnalysis env w)))
          = (count_completed (files w) + length ins)%nat)
      /\ (forall k f f',
            files w !! k = Some f -> is_completed f = false ->
            files (snd (startAnalysis env w)) !! k = Some f' ->
            is_completed f' = true ->
            exists job data,
              find_job (selectedJobId w) (db_jobs w) = Some job
              /\ answered env k data
              /\ In (record_of env (variant_of_job true (selectedJobId w) job)
                       k f data) ins)).
  { intros Hf Hc. exists []. rewrite Hf, Hc, app_nil_r. split; [reflexivity|].
    split; [intros c []|]. split; [lia|]. split; [simpl; lia|].
    split; [intros _; simpl; lia|].
    intros k f f' H1 H2 H3 H4. rewrite H1 in H3. inversion H3; subst f'.
    congruence. }
  destruct (startAnalysis_shape env w)
    as [(Hf & Hc & _)|[(Hf & Hc & _)|(job & w1 & (Sf & Sc & _) & Fj & E)]];
    [apply Stopped; assumption..|]. clear Stopped.
  rewrite E. simpl.
  set (v := variant_of_job true (selectedJobId w) job) in *.
  destruct (after_loop_fields (loop env v 0 (files w) w1)) as (Ff & Fc & _).
  rewrite Ff, Fc.
  assert (Hd : drop 0 (files w1) = files w) by (rewrite drop_0; exact Sf).
  destruct (loop_store env v (files w) 0 w1 Hd)
    as (_ & _ & ins & D & P & M & G & Q).
  rewrite drop_0 in M, G, Q.
  exists ins. rewrite D, Sc. split; [reflexivity|].
  split.
  { intros c Hc. rewrite List.Forall_forall in P.
    destruct (P c Hc) as (k & f & data & Hk & Hp & A & ->).
    exists job, k, f, data. simpl in A. repeat split; auto; apply A. }
  split; [exact M|]. split; [exact G|].
  split; [intros Hs; apply Q; intros k; apply Hs|].
  intros k f f' H1 H2 H3 H4.
  destruct (loop_completed_stored env v (files w) 0 w1 ins Hd D k f f'
              H1 H2 H3 H4) as (data & A & I).
  exists job, data. repeat split; auto; apply A.
Qed.

End Stores.

(** ** The order of calls and waits *)

Lemma schedule_app (a b : list Event) :
  schedule (a ++ b) = (schedule a ++ schedule b)%list.
Proof. unfold schedule. apply List.filter_app. Qed.

Lemma schedule_none (evs : list Event) :
  count_delays evs = 0%nat -> count_analyze evs = 0%nat -> schedule evs = [].
Proof.
  unfold count_delays, count_analyze, schedule, is_call_or_wait.
  induction evs as [|e evs IH]; simpl; [reflexivity|].
  destruct (is_delay e); simpl; [discriminate|].
  destruct (is_analyze e); simpl; [discriminate|]. exact IH.
Qed.

Lemma count_analyze_In (i : nat) (evs : list Event) :
  In (EvAnalyze i) evs -> (0 < count_analyze evs)%nat.
Proof.
  unfold count_analyze. induction evs as [|e evs IH]; simpl; [tauto|].
  intros [->|H]; simpl; [lia|].
  specialize (IH H). destruct (is_analyze e); simpl; lia.
Qed.

Lemma schedule_single (i : nat) (evs : list Event) :
  count_delays evs = 0%nat -> count_analyze evs = 1%nat ->
  In (EvAnalyze i) evs -> schedule evs = [EvAnalyze i].
Proof.
  induction evs as [|e evs IH]; intros D A H; [destruct H|].
  change (e :: evs) with ([e] ++ evs)%list in D, A |- *.
  rewrite count_delays_app in D. rewrite count_analyze_app in A.
  rewrite schedule_app.
  assert (E1 : count_delays [e] = (if is_delay e then 1 else 0)%nat).
  { unfold count_delays. simpl. destruct (is_delay e); reflexivity. }
  assert (E2 : count_analyze [e] = (if is_analyze e then 1 else 0)%nat).
  { unfold count_analyze. simpl. destruct (is_analyze e); reflexivity. }
  assert (E3 : schedule [e] = if is_delay e || is_analyze e then [e] else []).
  { unfold schedule, is_call_or_wait. simpl.
    destruct (is_delay e || is_analyze e); reflexivity. }
  rewrite E1 in D. rewrite E2 in A. rewrite E3.
  destruct (is_delay e) eqn:Ed; [discriminate|].
  destruct (is_analyze e) eqn:Ea; simpl in D, A |- *.
  - injection A as A. rewrite (schedule_none evs D A).
    destruct H as [->|H]; [reflexivity|].
    apply count_analyze_In in H. lia.
  - apply IH; [exact D|exact A|].
    destruct H as [->|H]; [discriminate|exact H].
Qed.


Section Schedule.

Variable env : Env.
Variable v : Variant.

Lemma iteration_schedule (i : nat) (cur : UploadFile.t) (w : World) :
  exists evs,
    trace (snd (iteration env v i cur w)) = (trace w ++ evs)%list
    /\ schedule evs
       = (if is_completed cur then []
          else (if (0 <? i)%nat then [EvDelay 3000] else []) ++ [EvAnalyze i])%list.
Proof.
  rewrite iteration_unfold. destruct (is_completed cur).
  - exists []. rewrite app_nil_r. split; reflexivity.
  - destruct (processItem_trace env v i cur (throttle i w))
      as (evs & T & D & A & _ & I & _).
    pose proof (schedule_single i evs D A I) as S.
    unfold throttle in T |- *. destruct (0 <? i)%nat.
    + exists (EvDelay 3000 :: evs). simpl in T. rewrite <- app_assoc in T.
      split; [exact T|].
      change (EvDelay 3000 :: evs) with ([EvDelay 3000] ++ evs)%list.
      rewrite schedule_app, S. reflexivity.
    + exists evs. split; [exact T|exact S].
Qed.

(** The calls and waits of the loop are those planned for the [n] items
    it goes through: all of them, unless it is abandoned. *)
Lemma loop_schedule (rest : list UploadFile.t) (i : nat) (w : World) :
  exists evs n,
    trace (snd (loop env v i rest w)) = (trace w ++ evs)%list
    /\ schedule evs = planned i (take n rest)
    /\ (n <= length rest)%nat
    /\ (fst (loop env v i rest w) = Normal tt -> n = length rest).
Proof.
  revert i w. induction rest as [|cur rest IH]; intros i w.
  - exists [], 0%nat. simpl. rewrite app_nil_r. repeat split. lia.
  - destruct (iteration_schedule i cur w) as (e1 & T1 & S1).
    destruct (loop_step env v i cur rest w) as [[_ ->]|(what & _ & ->)].
    + destruct (IH (S i) (snd (iteration env v i cur w)))
        as (e2 & n & T2 & S2 & L2 & N2).
      exists (e1 ++ e2)%list, (S n). rewrite T2, T1, <- app_assoc.
      split; [reflexivity|]. split; [|split; [simpl; lia|]].
      * rewrite schedule_app, S1, S2. reflexivity.
      * intros N. simpl. rewrite (N2 N). reflexivity.
    + exists e1, 1%nat. simpl. split; [exact T1|].
      split; [rewrite S1, app_nil_r; reflexivity|].
      split; [lia|discriminate].
Qed.

End Schedule.

Lemma planned_after_first (rest : list UploadFile.t) (i : nat) :
  (0 < i)%nat ->
  back_to_back (planned i rest) = false
  /\ (planned i rest = [] \/ exists t, planned i rest = EvDelay 3000 :: t).
Proof.
  revert i. induction rest as [|f rest IH]; intros i Hi.
  - split; [reflexivity|left; reflexivity].
  - simpl. destruct (IH (S i) ltac:(lia)) as [B H].
    destruct (is_completed f); [split; [exact B|exact H]|].
    apply Nat.ltb_lt in Hi. rewrite Hi. simpl.
    split; [|right; eexists; reflexivity].
    destruct H as [E|(t & E)]; [rewrite E; reflexivity|].
    rewrite E in B |- *. simpl in B |- *. exact B.
Qed.

Lemma planned_never_back_to_back (fs : list UploadFile.t) :
  back_to_back (planned 0 fs) = false.
Proof.
  destruct fs as [|f rest]; [reflexivity|]. simpl.
  destruct (planned_after_first rest 1 ltac:(lia)) as [B H].
  destruct (is_completed f); [exact B|]. simpl.
  destruct H as [E|(t & E)]; [rewrite E; reflexivity|].
  rewrite E in B |- *. simpl in B |- *. exact B.
Qed.

(** In the plan, the call of an item at an index above 0 comes right
    after a wait of 3000 ms. *)
Lemma planned_call_after_wait (rest : list UploadFile.t) (j : nat)
    (pre post : list Event) (i : nat) :
  planned j rest = (pre ++ EvAnalyze i :: post)%list -> (0 < i)%nat ->
  exists pre', pre = (pre' ++ [EvDelay 3000])%list.
Proof.
  revert j pre. induction rest as [|f rest IH]; intros j pre E Hi.
  - destruct pre; discriminate.
  - simpl in E. destruct (is_completed f); [exact (IH _ _ E Hi)|].
    destruct (0 <? j)%nat eqn:Hj; simpl in E.
    + destruct pre as [|a [|b pre]]; simpl in E.
      * discriminate.
      * exists []. injection E as <- _. reflexivity.
      * injection E as <- <- E. destruct (IH _ _ E Hi) as [pre' ->].
        exists (EvDelay 3000 :: EvAnalyze j :: pre'). reflexivity.
    + destruct pre as [|a pre]; simpl in E.
      * injection E as -> _. apply Nat.ltb_lt in Hi. congruence.
      * injection E as <- E. destruct (IH _ _ E Hi) as [pre' ->].
        exists (EvAnalyze j :: pre'). reflexivity.
Qed.

(** In the plan, a wait comes right before the call of an item at an
    index above 0. *)
Lemma planned_wait_before_call (rest : list UploadFile.t) (j : nat)
    (pre post : list Event) (ms : Z) :
  planned j rest = (pre ++ EvDelay ms :: post)%list ->
  ms = 3000
  /\ exists i post', post = EvAnalyze i :: post' /\ (0 < i)%nat.
Proof.
  revert j pre. induction rest as [|f rest IH]; intros j pre E.
  - destruct pre; discriminate.
  - simpl in E. destruct (is_completed f); [exact (IH _ _ E)|].
    destruct (0 <? j)%nat eqn:Hj; simpl in E.
    + destruct pre as [|a [|b pre]]; simpl in E.
      * injection E as <- <-. split; [reflexivity|].
        exists j, (planned (S j) rest). split; [reflexivity|].
        apply Nat.ltb_lt. exact Hj.
      * discriminate.
      * injection E as _ _ E. exact (IH _ _ E).
    + destruct pre as [|a pre]; simpl in E; [discriminate|].
      injection E as _ E. exact (IH _ _ E).
Qed.


Lemma count_delays_schedule (evs : list Event) :
  count_delays (schedule evs) = count_delays evs.
Proof.
  unfold count_delays, schedule, is_call_or_wait.
  induction evs as [|e evs IH]; simpl; [reflexivity|].
  destruct (is_delay e) eqn:D; simpl; [rewrite D; simpl; f_equal; exact IH|].
  destruct (is_analyze e); simpl; [rewrite D|]; exact IH.
Qed.

Lemma count_analyze_schedule (evs : list Event) :
  count_analyze (schedule evs) = count_analyze evs.
Proof.
  unfold count_analyze, schedule, is_call_or_wait.
  induction evs as [|e evs IH]; simpl; [reflexivity|].
  destruct (is_analyze e) eqn:A; simpl.
  - rewrite orb_true_r. simpl. rewrite A. simpl. f_equal. exact IH.
  - rewrite orb_false_r. destruct (is_delay e); simpl; [rewrite A|]; exact IH.
Qed.

Lemma count_planned (rest : list UploadFile.t) (i : nat) :
  count_delays (planned i rest) = throttled i rest
  /\ count_analyze (planned i rest) = pending rest.
Proof.
  revert i. induction rest as [|f rest IH]; intros i; [split; reflexivity|].
  simpl. rewrite count_delays_app, count_analyze_app, pending_cons.
  destruct (IH (S i)) as [-> ->].
  destruct (is_completed f); [split; reflexivity|].
  destruct (0 <? i)%nat; split; reflexivity.
Qed.

Lemma schedule_notice (tl : list Event) :
  tl = [] \/ (exists m, tl = [EvError m]) -> schedule tl = [].
Proof. intros [->|(m & ->)]; reflexivity. Qed.

(** The calls and waits of the loop and of what the outer [catch] adds. *)
Lemma after_loop_schedule (env : Env) (v : Variant) (fs : list UploadFile.t)
    (w1 : World) :
  exists evs n,
    trace (after_loop (loop env v 0 fs w1)) = (trace w1 ++ evs)%list
    /\ schedule evs = planned 0 (take n fs)
    /\ (n <= length fs)%nat
    /\ (fst (loop env v 0 fs w1) = Normal tt -> n = length fs).
Proof.
  destruct (loop_schedule env v fs 0 w1) as (evs & n & T & S & L & N).
  destruct (after_loop_fields (loop env v 0 fs w1))
    as (_ & _ & _ & _ & _ & _ & _ & tl & Tt & Htl).
  exists (evs ++ tl)%list, n. rewrite Tt, T, <- app_assoc.
  split; [reflexivity|].
  rewrite schedule_app, (schedule_notice tl Htl), app_nil_r.
  split; [exact S|]. split; [exact L|exact N].
Qed.

(** The calls and waits of a run, whatever the revision: those planned
    for the [n] items the loop went through. *)
Lemma run_schedule (env : Env) (w w' : World) :
  run_shape (loop env) w w' ->
  exists evs n,
    trace w' = (trace w ++ evs)%list
    /\ (n <= length (files w))%nat
    /\ schedule evs = planned 0 (take n (files w)).
Proof.
  intros [(_ & _ & _ & m & T & _)|[(_ & _ & _ & T & _)
          |(v & w1 & (_ & _ & St) & ->)]].
  - exists [EvError m], 0%nat. split; [exact T|]. split; [lia|reflexivity].
  - exists [], 0%nat. rewrite app_nil_r. split; [exact T|].
    split; [lia|reflexivity].
  - destruct (after_loop_schedule env v (files w) w1) as (evs & n & T & S & L & _).
    exists evs, n. simpl. rewrite T, St. split; [reflexivity|].
    split; [exact L|exact S].
Qed.

(** ** The outcome of an item, from the outcome of its [try] block *)

Section Isolation.

Variable env : Env.
Variable v : Variant.
Variable currentJob : Job.t.
Hypothesis from_job : stats v = StatsFromJob currentJob.

Ltac run_try :=
  unfold tryItem, analyzeResume, read_matchScore, fileToBase64,
    db_candidates_insertOne, updateJobStats, db_jobs_updateOne, db_jobs_find,
    db_call, setFiles, modify, bind, ret, throw; simpl.





End Isolation.

Lemma run_enters_error_properly (env : Env) (w w' : World) :
  run_shape (loop env) w w' ->
  exists evs,
    trace w' = (trace w ++ evs)%list
    /\ replays (files w) evs (files w')
    /\ enters_error_properly evs.
Proof.
  intros R. destruct (run_trace env w w' R) as (evs & T & O & _ & _ & Y).
  exists evs. split; [exact T|]. split; [exact Y|].
  intros before after j f f' Hin Hb Ha He.
  rewrite List.Forall_forall in O. specialize (O _ Hin). simpl in O.
  destruct (UploadFile.status f) eqn:Sf; auto;
    destruct (O j f f' Hb Ha He) as [X|X]; rewrite Sf in *; congruence.
Qed.

(** ** File names and payloads *)

Lemma all_chars_app (p : ascii -> bool) (a b : string) :
  JS.all_chars p (a ++ b) = JS.all_chars p a && JS.all_chars p b.
Proof.
  induction a as [|c a IH]; simpl; [reflexivity|].
  rewrite IH, andb_assoc. reflexivity.
Qed.

Lemma append_assoc' (a b c : string) : (a ++ b) ++ c = a ++ (b ++ c).
Proof. induction a as [|x a IH]; simpl; [reflexivity|]. rewrite IH. reflexivity. Qed.





Lemma base64_empty (l : list byte) : base64 l = "" <-> l = [].
Proof.
  destruct l as [|a [|b [|c rest]]]; simpl; split; intros H;
    try reflexivity; discriminate.
Qed.

Lemma b64_no_comma (n : N) : no_comma (b64 n) = true.
Proof.
  unfold b64.
  assert (A : forallb no_comma b64_alphabet = true) by (vm_compute; reflexivity).
  rewrite forallb_forall in A.
  destruct (nth_in_or_default (N.to_nat n) b64_alphabet "="%char) as [H| ->].
  - apply A, H.
  - reflexivity.
Qed.

Lemma base64_no_comma (l : list byte) : JS.all_chars no_comma (base64 l) = true.
Proof.
  assert (H : forall n l, (length l <= n)%nat ->
                          JS.all_chars no_comma (base64 l) = true).
  { clear l. induction n as [|n IH]; intros l Hl.
    - destruct l; [reflexivity|simpl in Hl; lia].
    - destruct l as [|a [|b [|c rest]]]; simpl;
        rewrite ?b64_no_comma; simpl; try reflexivity.
      apply IH. simpl in Hl. lia. }
  apply (H (length l)). lia.
Qed.

Lemma split_no_comma (s : string) :
  JS.all_chars no_comma s = true -> JS.split "," s = [s].
Proof.
  induction s as [|c s IH]; simpl; intros H; [reflexivity|].
  apply andb_true_iff in H. destruct H as [Hc Hs].
  unfold no_comma in Hc. apply negb_true_iff in Hc. rewrite Hc, IH by exact Hs.
  reflexivity.
Qed.

Lemma split_at_comma (p q : string) :
  JS.all_chars no_comma p = true ->
  JS.split "," (p ++ String "," q) = p :: JS.split "," q.
Proof.
  induction p as [|c p IH]; simpl; intros H; [reflexivity|].
  apply andb_true_iff in H. destruct H as [Hc Hp].
  unfold no_comma in Hc. apply negb_true_iff in Hc. rewrite Hc, IH by exact Hp.
  reflexivity.
Qed.

(** For a MIME type without a comma, [fileToBase64] yields the encoding of
    the bytes of the file. *)
Lemma payload_of_dataURL (f : File) :
  JS.all_chars no_comma (file_type f) = true ->
  base64_of_dataURL (readAsDataURL f) = base64 (content f).
Proof.
  intros H. unfold base64_of_dataURL, readAsDataURL.
  set (ty := if JS.str_truthy (file_type f) then file_type f
             else "application/octet-stream").
  assert (Hty : JS.all_chars no_comma ty = true).
  { subst ty. destruct (JS.str_truthy (file_type f)); [exact H|reflexivity]. }
  change (";base64," ++ base64 (content f))
    with (";base64" ++ String "," (base64 (content f))).
  rewrite <- !append_assoc', split_at_comma.
  - rewrite split_no_comma by apply base64_no_comma. reflexivity.
  - rewrite !all_chars_app, Hty. reflexivity.
Qed.

(** ** Properties of the pipeline *)

(** C1, as stated, fails when the counter update is rejected after the
    candidate insert: the record stays in the store and the item ends in
    [ERROR], so one record is persisted and no item is [COMPLETED]. *)
Lemma persisted_without_completion :
  length (db_candidates Examples.one_ready) = 0%nat
  /\ count_completed (files Examples.one_ready) = 0%nat
  /\ length (db_candidates
               (snd (startAnalysis Examples.update_rejected Examples.one_ready)))
     = 1%nat
  /\ map UploadFile.status
       (files (snd (startAnalysis Examples.update_rejected Examples.one_ready)))
     = [ERROR]
  /\ length (db_candidates
               (snd (startAnalysis Examples.update_rejected Examples.one_ready)))
     <> count_completed
          (files (snd (startAnalysis Examples.update_rejected Examples.one_ready))).
Proof. vm_compute. repeat split. discriminate. Qed.

(** C1, amended.  Every item a run brings to [COMPLETED] has its record
    persisted by that run, every record the run persists is the one built
    for an item it processed, and the run persists at least as many
    records as it completes items; the two numbers are equal whenever no
    store call of the counter update fails. *)
Theorem completed_items_are_persisted (env : Env) (w : World) :
  exists ins,
    db_candidates (snd (startAnalysis env w)) = (db_candidates w ++ ins)%list
    /\ (forall k f f',
          files w !! k = Some f -> UploadFile.status f <> COMPLETED ->
          files (snd (startAnalysis env w)) !! k = Some f' ->
          UploadFile.status f' = COMPLETED ->
          exists job data,
            find_job (selectedJobId w) (db_jobs w) = Some job
            /\ In (record_of env (variant_of_job true (selectedJobId w) job)
                     k f data) ins)
    /\ (forall c, In c ins ->
          exists job k f data,
            files w !! k = Some f /\ UploadFile.status f <> COMPLETED
            /\ c = record_of env (variant_of_job true (selectedJobId w) job)
                     k f data)
    /\ (count_completed (files (snd (startAnalysis env w)))
        <= count_completed (files w) + length ins)%nat
    /\ ((forall k, stats_calls_succeed env k) ->
        count_completed (files (snd (startAnalysis env w)))
        = (count_completed (files w) + length ins)%nat).
Proof.
  destruct (startAnalysis_store env w) as (ins & D & P & _ & G & Q & C).
  exists ins. split; [exact D|]. split.
  { intros k f f' H1 H2 H3 H4.
    destruct (C k f f' H1) as (job & data & Fj & _ & I); auto.
    - unfold is_completed. destruct (UploadFile.status f); auto; congruence.
    - unfold is_completed. rewrite H4. reflexivity.
    - exists job, data. split; assumption. }
  split.
  { intros c Hc. destruct (P c Hc) as (job & k & f & data & _ & Hk & Hp & _ & ->).
    exists job, k, f, data. repeat split; auto.
    intros X. unfold is_completed in Hp. rewrite X in Hp. discriminate. }
  split; [exact G|exact Q].
Qed.

Lemma completed_items_are_persisted_witness :
  exists ins,
    db_candidates (snd (startAnalysis Examples.second_rejected Examples.two_ready))
    = ([] ++ ins)%list
    /\ count_completed
         (files (snd (startAnalysis Examples.second_rejected Examples.two_ready)))
       = (0 + length ins)%nat.
Proof.
  destruct (completed_items_are_persisted Examples.second_rejected
              Examples.two_ready) as (ins & D & _ & _ & _ & Q).
  exists ins. split; [exact D|]. apply Q.
  intros k. split; reflexivity.
Defined.

(** C2, as stated, fails: the provider's 150 is stored as the match score
    and its textual sub-score is stored as it came. *)
Lemma unclamped_scores_are_stored :
  gemini_resume Examples.out_of_range 0
  = inr (Examples.answer (JS.Str "Jane Doe") (Examples.score 150) (JS.Str "high"))
  /\ map UploadFile.status
       (files (snd (startAnalysis Examples.out_of_range Examples.one_ready)))
     = [COMPLETED]
  /\ map Candidate.matchScore
       (db_candidates (snd (startAnalysis Examples.out_of_range Examples.one_ready)))
     = [JS.Fin (150 # 1)]
  /\ map (fun c => JS.in_0_100 (Candidate.matchScore c))
       (db_candidates (snd (startAnalysis Examples.out_of_range Examples.one_ready)))
     = [false]
  /\ map Candidate.jdMatchScore
       (db_candidates (snd (startAnalysis Examples.out_of_range Examples.one_ready)))
     = [JS.Str "high"].
Proof. vm_compute. repeat split. Qed.

(** C2, amended.  Neither the gateway nor the caller clamps.  The stored
    match score is [Number(value) || 0]: always a number and never NaN, the
    returned number itself whenever that is a number other than 0 and NaN,
    hence within [0,100] whenever the returned number is.  Each sub-score
    is stored exactly as returned when it is truthy, whatever its type or
    range, and as 0 otherwise. *)
Theorem scores_are_stored_unclamped (env : Env) (w : World) :
  exists ins,
    db_candidates (snd (startAnalysis env w)) = (db_candidates w ++ ins)%list
    /\ forall c, In c ins ->
         exists job k f data,
           answered env k data
           /\ c = record_of env (variant_of_job true (selectedJobId w) job) k f data
           /\ Candidate.matchScore c
              = JS.num_or (JS.Number (conv env) (JS.prop data "matchScore")) (JS.Fin 0)
           /\ Candidate.matchScore c <> JS.NaN
           /\ (forall n, JS.prop data "matchScore" = JS.Num n ->
                 Candidate.matchScore c = (if JS.num_truthy n then n else JS.Fin 0)
                 /\ (JS.in_0_100 n = true ->
                     JS.in_0_100 (Candidate.matchScore c) = true))
           /\ Candidate.jdMatchScore c
              = (if JS.truthy (JS.prop data "jdMatchScore")
                 then JS.prop data "jdMatchScore" else JS.Num (JS.Fin 0))
           /\ Candidate.qualificationMatchScore c
              = (if JS.truthy (JS.prop data "qualificationMatchScore")
                 then JS.prop data "qualificationMatchScore" else JS.Num (JS.Fin 0))
           /\ Candidate.resumeMatchScore c
              = (if JS.truthy (JS.prop data "resumeMatchScore")
                 then JS.prop data "resumeMatchScore" else JS.Num (JS.Fin 0)).
Proof.
  destruct (startAnalysis_store env w) as (ins & D & P & _).
  exists ins. split; [exact D|]. intros c Hc.
  destruct (P c Hc) as (job & k & f & data & _ & _ & _ & A & ->).
  exists job, k, f, data. split; [exact A|]. split; [reflexivity|].
  unfold record_of, matchScore_of, newCandidate, JS.or_else. simpl.
  split; [reflexivity|]. split.
  { unfold JS.num_or.
    destruct (JS.Number (conv env) (JS.prop data "matchScore")); simpl;
      try discriminate.
    destruct (negb (Qeq_bool q 0)); discriminate. }
  split; [|repeat split].
  intros n Hn. rewrite Hn. simpl. unfold JS.num_or. split; [reflexivity|].
  destruct (JS.num_truthy n); [tauto|reflexivity].
Qed.

Lemma scores_are_stored_unclamped_witness :
  exists ins,
    db_candidates (snd (startAnalysis Examples.calm Examples.one_ready))
    = ([] ++ ins)%list
    /\ forall c, In c ins -> JS.in_0_100 (Candidate.matchScore c) = true.
Proof.
  destruct (scores_are_stored_unclamped Examples.calm Examples.one_ready)
    as (ins & D & P).
  exists ins. split; [exact D|]. intros c Hc.
  destruct (P c Hc) as (job & k & f & data & (A & _) & _ & _ & _ & S & _).
  assert (Hd : data = Examples.good_answer 91) by (simpl in A; congruence).
  subst data. destruct (S (JS.Fin (91 # 1)) eq_refl) as [_ R].
  apply R. reflexivity.
Defined.

(** C3, as stated, fails on a second run.  The first run of two files,
    the first of them rejected by the provider, leaves the queue
    [ERROR; COMPLETED]; the second run retries the first item, at index 0
    and so without a wait, and skips the second before the throttle: it
    never waits, whereas the claim asks for one delay. *)
Lemma delays_counterexample :
  map UploadFile.status (files Examples.two_ready) = [READY; READY]
  /\ map UploadFile.status (files Examples.after_first_run) = [ERROR; COMPLETED]
  /\ map UploadFile.status
       (files (snd (startAnalysis Examples.calm Examples.after_first_run)))
     = [COMPLETED; COMPLETED]
  /\ trace (snd (startAnalysis Examples.calm Examples.after_first_run))
     = (trace Examples.after_first_run
        ++ drop (length (trace Examples.after_first_run))
             (trace (snd (startAnalysis Examples.calm Examples.after_first_run))))%list
  /\ count_analyze
       (drop (length (trace Examples.after_first_run))
          (trace (snd (startAnalysis Examples.calm Examples.after_first_run))))
     = 1%nat
  /\ count_delays
       (drop (length (trace Examples.after_first_run))
          (trace (snd (startAnalysis Examples.calm Examples.after_first_run))))
     = 0%nat
  /\ count_delays
       (drop (length (trace Examples.after_first_run))
          (trace (snd (startAnalysis Examples.calm Examples.after_first_run))))
     <> (length (files Examples.after_first_run) - 1)%nat.
Proof. vm_compute. repeat split; discriminate. Qed.

(** C3, amended.  A run issues at most N analysis calls and waits at most
    N-1 times.  Its calls and waits are those planned for the items the
    loop goes through, in order: no wait and no call for an item that is
    already [COMPLETED] or at index 0 and, for every other item, a wait of
    3000 ms and then its call, whatever the outcome of the items before it;
    so the call of an item at an index above 0 always comes right after a
    wait, and every wait is followed by such a call.  The loop goes through
    the whole queue when the run reaches it and no call rejects with
    [null] or [undefined] (such a rejection ends the loop early); the run
    then issues exactly one call for every item that is not already
    [COMPLETED] and waits exactly once for every such item at an index
    above 0: N calls and N-1 waits when no item is already [COMPLETED]. *)
Theorem delays_and_calls (env : Env) (w : World) :
  exists evs n,
    trace (snd (startAnalysis env w)) = (trace w ++ evs)%list
    /\ (count_analyze evs <= length (files w))%nat
    /\ (count_delays evs <= length (files w) - 1)%nat
    /\ (n <= length (files w))%nat
    /\ schedule evs = planned 0 (take n (files w))
    /\ (forall pre post i,
          schedule evs = (pre ++ EvAnalyze i :: post)%list -> (0 < i)%nat ->
          exists pre', pre = (pre' ++ [EvDelay 3000])%list)
    /\ (forall pre post ms,
          schedule evs = (pre ++ EvDelay ms :: post)%list ->
          ms = 3000
          /\ exists i post', post = EvAnalyze i :: post' /\ (0 < i)%nat)
    /\ (reaches_loop env w -> no_nullish_rejection env ->
        schedule evs = planned 0 (files w)
        /\ count_analyze evs = pending (files w)
        /\ count_delays evs = pending (tail (files w))
        /\ (count_completed (files w) = 0%nat ->
            count_analyze evs = length (files w)
            /\ count_delays evs = (length (files w) - 1)%nat)).
Proof.
  destruct (run_schedule env w _ (startAnalysis_run env w))
    as (evs & n & T & L & S).
  destruct (run_trace env w _ (startAnalysis_run env w))
    as (evs' & T' & _ & A & D & _).
  assert (evs' = evs) as ->.
  { rewrite T in T'. symmetry. eapply app_inv_head. exact T'. }
  exists evs, n. split; [exact T|]. split; [exact A|]. split; [exact D|].
  split; [exact L|]. split; [exact S|].
  split; [intros pre post i E; rewrite S in E;
          exact (planned_call_after_wait _ _ _ _ _ E)|].
  split; [intros pre post ms E; rewrite S in E;
          exact (planned_wait_before_call _ _ _ _ _ E)|].
  intros R P. destruct (startAnalysis_loops env w R) as (job & _ & E).
  set (v := variant_of_job true (selectedJobId w) job) in *.
  set (w1 := set_isAnalyzing true (set_errorMsg None w)) in *.
  destruct (after_loop_schedule env v (files w) w1)
    as (evs' & n' & T2 & S' & _ & N').
  assert (evs' = evs) as ->.
  { rewrite E in T. simpl in T. rewrite T2 in T.
    eapply app_inv_head. exact T. }
  rewrite (N' (loop_normal env v (files w) 0 w1 P)), firstn_all in S'.
  split; [exact S'|].
  rewrite <- count_analyze_schedule, <- count_delays_schedule, S'.
  destruct (count_planned (files w) 0) as [-> ->]. rewrite throttled_zero.
  split; [reflexivity|]. split; [reflexivity|].
  intros C. split; [apply pending_all, C|].
  destruct (files w) as [|f fs]; [reflexivity|]. simpl.
  rewrite count_completed_cons in C. rewrite pending_all by lia. lia.
Qed.

Lemma delays_and_calls_witness :
  exists evs,
    trace (snd (startAnalysis Examples.second_rejected Examples.three_ready))
    = ([] ++ evs)%list
    /\ schedule evs
       = [EvAnalyze 0; EvDelay 3000; EvAnalyze 1; EvDelay 3000; EvAnalyze 2]
    /\ count_analyze evs = 3%nat /\ count_delays evs = 2%nat.
Proof.
  destruct (delays_and_calls Examples.second_rejected Examples.three_ready)
    as (evs & n & T & _ & _ & _ & _ & _ & _ & H).
  exists evs. split; [exact T|].
  assert (R : reaches_loop Examples.second_rejected Examples.three_ready).
  { repeat split; discriminate. }
  assert (P : no_nullish_rejection Examples.second_rejected).
  { split; [|discriminate]. intros i e. simpl.
    destruct (Nat.eqb i 1); intros E; inversion E; reflexivity. }
  destruct (H R P) as (S & _ & _ & K). destruct (K eq_refl) as [A D].
  split; [exact S|]. split; [exact A|exact D].
Defined.




(** C5.  When the job description is taken from an uploaded document and
    the extraction throws, the run stops before the loop: the job store,
    the candidate store and the queue are as before, no analysis call is
    issued, and the run surfaces exactly one notice.  Past validation,
    that notice names the failed extraction with the message of the thrown
    value; when the thrown value is [null] or [undefined], reading its
    message throws in the inner [catch], and the one notice is that of
    the outer [catch] for this TypeError. *)
Theorem failed_extraction_aborts (env : Env) (jdFile : File) (w : World)
    (e : JS.Exn) :
  (forall w0, extractJobDetailsFromPDF env jdFile w0 = (Throw e, w0)) ->
  db_jobs (snd (startAnalysis_jdSource env UploadJd (Some jdFile) w)) = db_jobs w
  /\ db_candidates (snd (startAnalysis_jdSource env UploadJd (Some jdFile) w))
     = db_candidates w
  /\ files (snd (startAnalysis_jdSource env UploadJd (Some jdFile) w)) = files w
  /\ exists m,
       trace (snd (startAnalysis_jdSource env UploadJd (Some jdFile) w))
       = (trace w ++ [EvError m])%list
       /\ errorMsg (snd (startAnalysis_jdSource env UploadJd (Some jdFile) w))
          = Some m
       /\ (JS.str_truthy (selectedJobId w) = true -> files w <> [] ->
           m = match JS.get_message e with
               | inr message => "Failed to extract job details: " ++ tpl message
               | inl type_error => run_failed_msg (Some type_error)
               end).
Proof.
  intros H.
  unfold startAnalysis_jdSource, resolve_jdSource, function_body, try_finally,
    try_catch, catchRun, read_message, bind, setErrorMsg, setIsAnalyzing,
    setIsExtractingJd, modify, ret, throw, return_; simpl.
  destruct (JS.str_truthy (selectedJobId w)) eqn:Hs; simpl.
  - destruct (files w) as [|f fs] eqn:Hf; simpl.
    + rewrite Hf. repeat split. eexists. repeat split. intros _ X. congruence.
    + rewrite H. destruct e as [| |message]; simpl; rewrite Hf; repeat split;
        eexists; repeat split.
  - repeat split. eexists. repeat split. intros X. discriminate.
Qed.

Lemma failed_extraction_aborts_witness :
  db_jobs (snd (startAnalysis_jdSource Examples.calm UploadJd
                  (Some Examples.cv1) Examples.two_ready))
  = [Examples.backend]
  /\ map UploadFile.status
       (files (snd (startAnalysis_jdSource Examples.calm UploadJd
                      (Some Examples.cv1) Examples.two_ready)))
     = [READY; READY]
  /\ trace (snd (startAnalysis_jdSource Examples.calm UploadJd
                   (Some Examples.cv1) Examples.two_ready))
     = [EvError "Failed to extract job details: 429 quota exceeded"].
Proof.
  destruct (failed_extraction_aborts Examples.calm Examples.cv1
              Examples.two_ready Examples.quota)
    as (J & _ & F & m & T & _ & M).
  - intros w0. reflexivity.
  - split; [exact J|]. split; [rewrite F; reflexivity|].
    rewrite T, M; [reflexivity|reflexivity|discriminate].
Defined.

(** C6.  In every revision of the scheduler, no update of the queue moves
    an item into [ERROR] from a state other than [READING] or [PARSING]: an
    item that is [READY] or [COMPLETED] before an update is not in [ERROR]
    after it. *)
Theorem error_only_from_in_flight (env : Env) (w : World)
    (jobSource : JobSource) (parsedJd : option ExtractedJobDetails)
    (jdSource : JdSource) (jdFile : option File) :
  (exists evs,
     trace (snd (startAnalysis env w)) = (trace w ++ evs)%list
     /\ replays (files w) evs (files (snd (startAnalysis env w)))
     /\ enters_error_properly evs)
  /\ (exists evs,
        trace (snd (startAnalysis_jobSource env jobSource parsedJd w))
        = (trace w ++ evs)%list
        /\ replays (files w) evs
             (files (snd (startAnalysis_jobSource env jobSource parsedJd w)))
        /\ enters_error_properly evs)
  /\ (exists evs,
        trace (snd (startAnalysis_jdSource env jdSource jdFile w))
        = (trace w ++ evs)%list
        /\ replays (files w) evs
             (files (snd (startAnalysis_jdSource env jdSource jdFile w)))
        /\ enters_error_properly evs).
Proof.
  split; [|split]; apply (run_enters_error_properly env).
  - apply startAnalysis_run.
  - apply startAnalysis_jobSource_run.
  - apply startAnalysis_jdSource_run.
Qed.

Lemma error_only_from_in_flight_witness :
  exists evs,
    trace (snd (startAnalysis Examples.second_rejected Examples.two_ready))
    = ([] ++ evs)%list
    /\ replays (files Examples.two_ready) evs
         (files (snd (startAnalysis Examples.second_rejected Examples.two_ready)))
    /\ enters_error_properly evs.
Proof.
  exact (proj1 (error_only_from_in_flight Examples.second_rejected
                  Examples.two_ready Database None Select None)).
Defined.

(** The rejected item of that batch does enter [ERROR], and it does so
    from [PARSING]. *)
Example rejected_item_leaves_parsing :
  let w' := snd (startAnalysis Examples.second_rejected Examples.two_ready) in
  map UploadFile.status (files w') = [COMPLETED; ERROR]
  /\ exists before after f f',
       In (EvSetFiles before after) (trace w')
       /\ before !! 1%nat = Some f /\ after !! 1%nat = Some f'
       /\ UploadFile.status f = PARSING /\ UploadFile.status f' = ERROR.
Proof.
  split; [vm_compute; reflexivity|].
  set (w' := snd (startAnalysis Examples.second_rejected Examples.two_ready)).
  assert (E : exists ev, nth_error (trace w') 9 = Some ev
                         /\ match ev with
                            | EvSetFiles before after =>
                                option_map UploadFile.status (before !! 1%nat)
                                = Some PARSING
                                /\ option_map UploadFile.status (after !! 1%nat)
                                   = Some ERROR
                            | _ => False
                            end).
  { eexists. split; [vm_compute; reflexivity|]. split; vm_compute; reflexivity. }
  destruct E as (ev & Hn & Hev). destruct ev as [| |before after|]; try contradiction.
  destruct Hev as [Hb Ha].
  destruct (before !! 1%nat) as [f|] eqn:Eb; [|discriminate].
  destruct (after !! 1%nat) as [f'|] eqn:Ea; [|discriminate].
  exists before, after, f, f'. repeat split; auto.
  - eapply nth_error_In. exact Hn.
  - simpl in Hb. congruence.
  - simpl in Ha. congruence.
Qed.

(** C7.  The counter update of pages/ResumeScore.tsx computes both counters
    from the job object resolved once before the loop.  On a batch of two
    resumes that both succeed with score 91 against a job with counters 0,
    both candidates are stored and both items complete, yet each update
    writes 1: the applicant counter and the high-match counter end at 1,
    not at 2. *)
Theorem counters_from_stale_job :
  map Job.applicantsCount (db_jobs Examples.two_ready) = [Some 0]
  /\ map Job.matchesCount (db_jobs Examples.two_ready) = [Some 0]
  /\ map UploadFile.status
       (files (snd (startAnalysis Examples.calm Examples.two_ready)))
     = [COMPLETED; COMPLETED]
  /\ map Candidate.matchScore
       (db_candidates (snd (startAnalysis Examples.calm Examples.two_ready)))
     = [JS.Fin (91 # 1); JS.Fin (91 # 1)]
  /\ map Job.applicantsCount
       (db_jobs (snd (startAnalysis Examples.calm Examples.two_ready)))
     = [Some 1]
  /\ map Job.matchesCount
       (db_jobs (snd (startAnalysis Examples.calm Examples.two_ready)))
     = [Some 1].
Proof. vm_compute. repeat split. Qed.

(** The revision with [jobSource] fetches the job again before each update,
    and on the same batch both counters end at 2. *)
Example counters_from_refetched_job :
  let w' := snd (startAnalysis_jobSource Examples.calm Database None
                   Examples.two_ready) in
  map UploadFile.status (files w') = [COMPLETED; COMPLETED]
  /\ length (db_candidates w') = 2%nat
  /\ map Job.applicantsCount (db_jobs w') = [Some 2]
  /\ map Job.matchesCount (db_jobs w') = [Some 2].
Proof. vm_compute. repeat split. Qed.

(** Three files, the second rejected by the provider: the first and the
    third complete with their records stored, the second ends in [ERROR];
    the revision with [jobSource] counts two applicants, the page one. *)
Example three_files_second_rejected :
  let w1 := snd (startAnalysis Examples.second_rejected Examples.three_ready) in
  let w2 := snd (startAnalysis_jobSource Examples.second_rejected Database None
                   Examples.three_ready) in
  map UploadFile.status (files w1) = [COMPLETED; ERROR; COMPLETED]
  /\ map UploadFile.status (files w2) = [COMPLETED; ERROR; COMPLETED]
  /\ length (db_candidates w1) = 2%nat
  /\ length (db_candidates w2) = 2%nat
  /\ map Job.applicantsCount (db_jobs w1) = [Some 1]
  /\ map Job.applicantsCount (db_jobs w2) = [Some 2].
Proof. vm_compute. repeat split. Qed.

(** Up to [2^53] every integer is a double, and [n + 1] is exact. *)
Lemma plus_one_exact (n : Z) :
  - 2 ^ 53 <= n < 2 ^ 53 -> JS.plus_one n = n + 1.
Proof.
  intros H. unfold JS.plus_one, JS.to_double.
  destruct (Z.leb_spec (Z.abs (n + 1)) (2 ^ 53)); [reflexivity|lia].
Qed.

(** At [2^53] a counter stops rising. *)
Example plus_one_saturates : JS.plus_one (2 ^ 53) = 2 ^ 53.
Proof. vm_compute. reflexivity. Qed.

(** One update, taken alone, does what C7 says, as long as the counters
    are below [2^53]: the applicant counter of the job it starts from goes
    up by one, and the high-match counter goes up by one exactly when the
    score exceeds 80. *)
Lemma job_stats_spec (currentJob : Job.t) (matchScore : JS.number) :
  - 2 ^ 53 <= Job.count_or_0 (Job.applicantsCount currentJob) < 2 ^ 53 ->
  - 2 ^ 53 <= Job.count_or_0 (Job.matchesCount currentJob) < 2 ^ 53 ->
  Job.new_applicantsCount (job_stats currentJob matchScore)
  = Job.count_or_0 (Job.applicantsCount currentJob) + 1
  /\ Job.new_matchesCount (job_stats currentJob matchScore)
     = Job.count_or_0 (Job.matchesCount currentJob)
       + (if JS.gt matchScore threshold then 1 else 0).
Proof.
  intros Ha Hm. unfold job_stats. simpl. rewrite !plus_one_exact by assumption.
  split; [reflexivity|].
  destruct (JS.gt matchScore threshold); lia.
Qed.

Example score_91_counts : JS.gt (JS.Fin (91 # 1)) threshold = true.
Proof. reflexivity. Qed.

Example score_79_does_not_count : JS.gt (JS.Fin (79 # 1)) threshold = false.
Proof. reflexivity. Qed.

Example score_80_does_not_count : JS.gt (JS.Fin (80 # 1)) threshold = false.
Proof. reflexivity. Qed.

(** With an uploaded description, the revision with [jobSource] leaves the
    job store alone. *)
Lemma uploaded_context_skips_counters (env : Env) (sel : string) (i : nat)
    (matchScore : JS.number) (w : World) :
  updateJobStats env (StatsRefetch Upload sel) i matchScore w = (Normal tt, w).
Proof. reflexivity. Qed.

(** C8, as stated, fails on an empty document: its size 0 is below the
    threshold, the item completes, and the stored payload is empty. *)
Lemma empty_document_has_no_payload :
  map (fun f => file_size (UploadFile.file f)) (files Examples.one_blank) = [0]
  /\ (0 <? 1048576) = true
  /\ map UploadFile.status
       (files (snd (startAnalysis Examples.calm Examples.one_blank)))
     = [COMPLETED]
  /\ map Candidate.resumeBase64
       (db_candidates (snd (startAnalysis Examples.calm Examples.one_blank)))
     = [""].
Proof. vm_compute. repeat split. Qed.

(** C8, amended.  The stored payload of a document of size S is the
    encoding of the document when S < 1 MiB (1,048,576 bytes) and the empty
    string at or above the threshold; so it is non-empty if and only if
    0 < S < 1 MiB (the encoding of an empty document is empty).  No other
    field of the record depends on the bytes or the size of the document. *)
Theorem payload_follows_size (env : Env) (w : World) :
  exists ins,
    db_candidates (snd (startAnalysis env w)) = (db_candidates w ++ ins)%list
    /\ forall c, In c ins ->
         exists job k f data,
           files w !! k = Some f
           /\ c = record_of env (variant_of_job true (selectedJobId w) job) k f data
           /\ Candidate.resumeBase64 c
              = (if file_size (UploadFile.file f) <? 1048576
                 then base64_of_dataURL (readAsDataURL (UploadFile.file f))
                 else "")
           /\ (1048576 <= file_size (UploadFile.file f) ->
               Candidate.resumeBase64 c = "")
           /\ (JS.all_chars no_comma (file_type (UploadFile.file f)) = true ->
               (Candidate.resumeBase64 c <> ""
                <-> 0 < file_size (UploadFile.file f) < 1048576))
           /\ (forall bytes,
                 Candidate.with_resumeBase64 (Candidate.resumeBase64 c)
                   (record_of env (variant_of_job true (selectedJobId w) job) k
                      (UploadFile.with_file
                         (with_content bytes (UploadFile.file f)) f) data)
                 = c).
Proof.
  destruct (startAnalysis_store env w) as (ins & D & P & _).
  exists ins. split; [exact D|]. intros c Hc.
  destruct (P c Hc) as (job & k & f & data & _ & Hk & _ & _ & ->).
  exists job, k, f, data. split; [exact Hk|]. split; [reflexivity|].
  unfold record_of, newCandidate. simpl. change MiB with 1048576.
  split; [reflexivity|]. split.
  { intros H. destruct (Z.ltb_spec (file_size (UploadFile.file f)) 1048576);
      [lia|reflexivity]. }
  split; [|intros bytes; reflexivity].
  intros Hty. rewrite (payload_of_dataURL _ Hty).
  unfold file_size.
  destruct (Z.ltb_spec (Z.of_nat (length (content (UploadFile.file f)))) 1048576)
    as [Hlt|Hge].
  - rewrite base64_empty. split.
    + intros Hne. destruct (content (UploadFile.file f)); [congruence|].
      simpl length in *. lia.
    + intros [Hpos _] E. rewrite E in Hpos. simpl in Hpos. lia.
  - split; [congruence|lia].
Qed.

Lemma payload_follows_size_witness :
  exists ins,
    db_candidates (snd (startAnalysis Examples.calm Examples.one_ready))
    = ([] ++ ins)%list
    /\ forall c, In c ins -> Candidate.resumeBase64 c <> "".
Proof.
  destruct (payload_follows_size Examples.calm Examples.one_ready)
    as (ins & D & P).
  exists ins. split; [exact D|]. intros c Hc.
  destruct (P c Hc) as (job & k & f & data & Hk & _ & _ & _ & S & _).
  assert (Hf : f = Examples.item "a" Examples.cv1 READY).
  { destruct k as [|k]; simpl in Hk; [congruence|].
    destruct k; discriminate. }
  subst f. apply S; [reflexivity|]. vm_compute. split; reflexivity.
Defined.

(** C9, as stated, fails: [removeFile] removes a [COMPLETED] item like any
    other. *)
Lemma completed_item_is_removed :
  map UploadFile.status (files Examples.one_done) = [COMPLETED]
  /\ files (snd (removeFile "a" Examples.one_done)) = [].
Proof. vm_compute. split; reflexivity. Qed.

(** C9, amended.  [removeFile id] keeps, in order, exactly the items whose
    id differs from [id]: every item with that id is deleted whatever its
    status, [COMPLETED] included, and no other item is touched. *)
Theorem removeFile_filters_by_id (id : string) (w : World) :
  files (snd (removeFile id w))
  = List.filter (fun f => negb (String.eqb (UploadFile.id f) id)) (files w)
  /\ (forall f, In f (files (snd (removeFile id w)))
                <-> In f (files w) /\ UploadFile.id f <> id)
  /\ db_candidates (snd (removeFile id w)) = db_candidates w
  /\ fst (removeFile id w) = Normal tt.
Proof.
  unfold removeFile, setFiles, modify. simpl.
  split; [reflexivity|]. split; [|split; reflexivity].
  intros f. rewrite List.filter_In, negb_true_iff.
  split; intros [H1 H2]; split; auto.
  - intros E. rewrite E, String.eqb_refl in H2. discriminate.
  - destruct (String.eqb_spec (UploadFile.id f) id); congruence.
Qed.



(** The whole run of that batch, for comparison. *)
Example nameless_run :
  let w' := snd (startAnalysis Examples.nameless Examples.one_ready) in
  map Candidate.name (db_candidates w') = [JS.Str "jane doe cv"]
  /\ map Candidate.role (db_candidates w') = [JS.Str "Backend Engineer"].
Proof. vm_compute. split; reflexivity. Qed.

(** * Properties of the rest of the page *)

Section Finals.

Variable env : Env.
Variable v : Variant.

Lemma iteration_final (i : nat) (cur : UploadFile.t) (w : World) :
  files w !! i = Some cur ->
  exists f',
    files (snd (iteration env v i cur w)) !! i = Some f'
    /\ final_item env i cur f'.
Proof.
  intros Hi. rewrite iteration_unfold. destruct (is_completed cur) eqn:C.
  - exists cur. split; [exact Hi|]. apply final_skipped; auto.
  - destruct (processItem_post env v i cur (throttle i w)) as (c & w' & E & P).
    destruct (throttle_stores i w) as [Tf _]. rewrite E. simpl.
    destruct P as [data g A G F D M _|g stored G F D S M];
      rewrite F, Tf, map_at_lookup_eq, Hi; simpl; eexists; (split; [reflexivity|]).
    + rewrite G. eapply final_completed; eauto.
    + rewrite G. apply final_failed; auto.
Qed.

(** An iteration that throws has moved its item to [ERROR]. *)
Lemma iteration_thrown (i : nat) (cur : UploadFile.t) (w : World) (t : JS.Exn) :
  files w !! i = Some cur ->
  fst (iteration env v i cur w) = Throw t ->
  is_completed cur = false
  /\ files (snd (iteration env v i cur w)) !! i
     = Some (UploadFile.with_status ERROR 0 cur).
Proof.
  intros Hi. rewrite iteration_unfold. destruct (is_completed cur) eqn:C;
    [discriminate|].
  destruct (processItem_post env v i cur (throttle i w)) as (c & w' & E & P).
  destruct (throttle_stores i w) as [Tf _]. rewrite E. simpl. intros ->.
  split; [reflexivity|].
  destruct P as [data g A G F D M X|g stored G F D S M]; [discriminate|].
  rewrite F, Tf, map_at_lookup_eq, Hi. simpl. rewrite G. reflexivity.
Qed.

(** The loop goes through the first [n] items of the part of the queue
    it runs over: each of them ends as [final_item] says, and the others
    are left as they are.  It goes through all of them unless it is
    abandoned, and then the last item it went through is in [ERROR]. *)
Lemma loop_final (rest : list UploadFile.t) (i : nat) (w : World) :
  drop i (files w) = rest ->
  exists n,
    (n <= length rest)%nat
    /\ (forall k f,
          rest !! k = Some f -> (k < n)%nat ->
          exists f',
            files (snd (loop env v i rest w)) !! (i + k)%nat = Some f'
            /\ final_item env (i + k) f f')
    /\ (forall k f,
          rest !! k = Some f -> (n <= k)%nat ->
          files (snd (loop env v i rest w)) !! (i + k)%nat = Some f)
    /\ (fst (loop env v i rest w) = Normal tt -> n = length rest)
    /\ (forall t,
          fst (loop env v i rest w) = Throw t ->
          exists k f,
            n = S k /\ rest !! k = Some f /\ is_completed f = false
            /\ files (snd (loop env v i rest w)) !! (i + k)%nat
               = Some (UploadFile.with_status ERROR 0 f)).
Proof.
  revert i w. induction rest as [|cur rest IH]; intros i w Hd.
  - exists 0%nat. simpl. split; [lia|].
    split; [intros k f H; discriminate|].
    split; [intros k f H; discriminate|].
    split; [reflexivity|discriminate].
  - assert (Hcur : files w !! i = Some cur).
    { pose proof (lookup_drop (files w) i 0) as L. rewrite Hd in L.
      rewrite Nat.add_0_r in L. symmetry. exact L. }
    assert (Hr : drop (S i) (files w) = rest).
    { replace (S i) with (i + 1)%nat by lia.
      rewrite <- drop_drop, Hd. reflexivity. }
    destruct (iteration_store env v i cur rest w) as (g & ins1 & F1 & _).
    set (w1 := snd (iteration env v i cur w)) in *.
    assert (Hd1 : drop (S i) (files w1) = rest).
    { rewrite F1, map_at_drop. exact Hr. }
    assert (Later : forall k f, rest !! k = Some f ->
                                files w1 !! (i + S k)%nat = Some f).
    { intros k f Hk. rewrite <- Hk.
      pose proof (lookup_drop (files w1) (S i) k) as X. rewrite Hd1 in X.
      replace (S i + k)%nat with (i + S k)%nat in X by lia.
      symmetry. exact X. }
    destruct (loop_step env v i cur rest w) as [[N L]|(what & N & L)]; rewrite L;
      fold w1.
    + destruct (IH (S i) w1 Hd1) as (n & L2 & P2 & U2 & N2 & A2).
      destruct (loop_store env v rest (S i) w1 Hd1) as (_ & Keep & _).
      exists (S n). split; [simpl; lia|]. split.
      { intros [|k] f Hk Hlt; simpl in Hk.
        - inversion Hk; subst f. rewrite Nat.add_0_r, Keep by lia.
          apply iteration_final, Hcur.
        - replace (i + S k)%nat with (S i + k)%nat by lia.
          apply P2; [exact Hk|lia]. }
      split.
      { intros [|k] f Hk Hle; [lia|]. simpl in Hk.
        replace (i + S k)%nat with (S i + k)%nat by lia.
        apply U2; [exact Hk|lia]. }
      split; [intros X; simpl; rewrite (N2 X); reflexivity|].
      intros t X. destruct (A2 t X) as (k & f & -> & Hk & Cf & F).
      exists (S k), f. replace (i + S k)%nat with (S i + k)%nat by lia.
      repeat split; assumption.
    + exists 1%nat. simpl. split; [lia|].
      destruct (iteration_thrown i cur w _ Hcur N) as [Cc Fc]. fold w1 in Fc.
      split.
      { intros [|k] f Hk Hlt; [|lia]. simpl in Hk. inversion Hk; subst f.
        rewrite Nat.add_0_r. apply iteration_final, Hcur. }
      split.
      { intros [|k] f Hk Hle; [lia|]. simpl in Hk. apply Later, Hk. }
      split; [discriminate|].
      intros t _. exists 0%nat, cur. rewrite Nat.add_0_r.
      repeat split; assumption.
Qed.

(** Over a queue whose items are all completed the loop does nothing. *)
Lemma loop_all_completed (rest : list UploadFile.t) (i : nat) (w : World) :
  count_completed rest = length rest ->
  loop env v i rest w = (Normal tt, w).
Proof.
  revert i. induction rest as [|cur rest IH]; intros i H; [reflexivity|].
  rewrite count_completed_cons in H. simpl in H.
  assert (L : (count_completed rest <= length rest)%nat).
  { unfold count_completed. apply List.filter_length_le. }
  destruct (is_completed cur) eqn:C; [|lia].
  rewrite loop_continue by (rewrite iteration_unfold, C; reflexivity).
  rewrite iteration_unfold, C. simpl. apply IH. lia.
Qed.

End Finals.

Lemma final_item_same_upload (env : Env) (i : nat) (f f' : UploadFile.t) :
  final_item env i f f' -> same_upload f f'.
Proof.
  intros [_ ->|data _ _ ->|_ ->]; repeat split.
Qed.

(** What [run_shape] gives for the queue. *)
Lemma run_queue (env : Env) (w w' : World) :
  run_shape (loop env) w w' ->
  length (files w') = length (files w)
  /\ forall k f,
       files w !! k = Some f ->
       exists f', files w' !! k = Some f'
                  /\ same_upload f f'
                  /\ (UploadFile.status f = COMPLETED -> f' = f).
Proof.
  assert (Same : files w' = files w ->
    length (files w') = length (files w)
    /\ forall k f,
         files w !! k = Some f ->
         exists f', files w' !! k = Some f'
                    /\ same_upload f f'
                    /\ (UploadFile.status f = COMPLETED -> f' = f)).
  { intros Hf. rewrite Hf. split; [reflexivity|]. intros k f Hk. exists f.
    split; [exact Hk|]. split; [repeat split|reflexivity]. }
  intros [(Hf & _)|[(Hf & _)|(v & w1 & (Sf & _ & _) & ->)]];
    [apply Same, Hf..|]. clear Same.
  simpl.
  destruct (after_loop_fields (loop env v 0 (files w) w1)) as (-> & _).
  assert (Hd : drop 0 (files w1) = files w) by (rewrite drop_0; exact Sf).
  destruct (loop_store env v (files w) 0 w1 Hd) as (L & _).
  split; [rewrite L, Sf; reflexivity|].
  intros k f Hk.
  destruct (loop_final env v (files w) 0 w1 Hd) as (n & _ & P & U & _).
  destruct (Nat.lt_ge_cases k n) as [Hlt|Hge].
  - destruct (P k f Hk Hlt) as (f' & Hf' & Fi).
    exists f'. split; [exact Hf'|]. split; [eapply final_item_same_upload, Fi|].
    intros Hs. destruct Fi as [_ ->|data C _ _|C _]; [reflexivity| |];
      unfold is_completed in C; rewrite Hs in C; discriminate.
  - exists f. split; [exact (U k f Hk Hge)|].
    split; [repeat split|reflexivity].
Qed.

(** X1.  A run, in any of the three revisions, keeps the queue as long as it
    was and every entry at its index with its id, file, name and size
    label; an entry that is already [COMPLETED] is left exactly as it is. *)
Theorem run_keeps_the_uploads (env : Env) (w : World)
    (jobSource : JobSource) (parsedJd : option ExtractedJobDetails)
    (jdSource : JdSource) (jdFile : option File) (w' : World) :
  w' = snd (startAnalysis env w)
  \/ w' = snd (startAnalysis_jobSource env jobSource parsedJd w)
  \/ w' = snd (startAnalysis_jdSource env jdSource jdFile w) ->
  length (files w') = length (files w)
  /\ forall k f,
       files w !! k = Some f ->
       exists f', files w' !! k = Some f'
                  /\ same_upload f f'
                  /\ (UploadFile.status f = COMPLETED -> f' = f).
Proof.
  intros H. apply (run_queue env).
  destruct H as [->|[->| ->]].
  - apply startAnalysis_run.
  - apply startAnalysis_jobSource_run.
  - apply startAnalysis_jdSource_run.
Qed.

Lemma run_keeps_the_uploads_witness :
  length (files (snd (startAnalysis Examples.second_rejected Examples.rerun)))
  = 2%nat
  /\ files (snd (startAnalysis Examples.second_rejected Examples.rerun)) !! 1%nat
     = Some (Examples.item "b" Examples.cv2 COMPLETED).
Proof.
  destruct (run_keeps_the_uploads Examples.second_rejected Examples.rerun
              Database None Select None
              (snd (startAnalysis Examples.second_rejected Examples.rerun)))
    as (L & K).
  - left. reflexivity.
  - split; [exact L|].
    destruct (K 1%nat (Examples.item "b" Examples.cv2 COMPLETED) eq_refl)
      as (f' & Hf & _ & E).
    rewrite Hf, (E eq_refl). reflexivity.
Defined.

(** What [run_shape] gives for the items, one by one. *)
Lemma run_finals (env : Env) (w w' : World) :
  run_shape (loop env) w w' ->
  aborted w w' \/ escaped w w'
  \/ exists n,
       (n <= length (files w))%nat
       /\ (forall k f,
             files w !! k = Some f -> (k < n)%nat ->
             exists f', files w' !! k = Some f' /\ final_item env k f f')
       /\ (forall k f,
             files w !! k = Some f -> (n <= k)%nat -> files w' !! k = Some f)
       /\ (no_nullish_rejection env -> n = length (files w))
       /\ ((n < length (files w))%nat ->
           exists k f what,
             n = S k /\ files w !! k = Some f
             /\ UploadFile.status f <> COMPLETED
             /\ files w' !! k = Some (UploadFile.with_status ERROR 0 f)
             /\ errorMsg w'
                = Some (run_failed_msg (Some (JS.no_message what)))).
Proof.
  intros [A|[X|(v & w1 & (Sf & _ & _) & ->)]];
    [left; exact A|right; left; exact X|]. right. right.
  simpl.
  destruct (after_loop_fields (loop env v 0 (files w) w1)) as (-> & _).
  assert (Hd : drop 0 (files w1) = files w) by (rewrite drop_0; exact Sf).
  destruct (loop_final env v (files w) 0 w1 Hd) as (n & L & P & U & N & A).
  exists n. split; [exact L|]. split; [exact P|]. split; [exact U|].
  split; [intros Q; apply N, loop_normal, Q|].
  intros Hlt.
  destruct (loop_completion env v (files w) 0 w1) as [K|(what & K)];
    [specialize (N K); lia|].
  destruct (A _ K) as (k & f & -> & Hk & Cf & F).
  exists k, f, what. split; [reflexivity|]. split; [exact Hk|].
  split; [intros Hs; unfold is_completed in Cf; rewrite Hs in Cf; discriminate|].
  split; [exact F|].
  rewrite (after_loop_throw _ _ K). reflexivity.
Qed.

(** X2.  A run of any revision that gets to the loop goes through the
    first [n] items of the queue and leaves none of them in flight: each
    ends [COMPLETED] or [ERROR].  An item the run completes has progress
    100 and carries the answer of the provider as its result; an item that
    ends in [ERROR] without having been completed before has progress 0
    and the result it had.  The run goes through the whole queue when no
    call rejects with [null] or [undefined]; otherwise it may stop early,
    with the last item it went through in [ERROR], the notice "Analysis
    failed", and the items after that one left as they were. *)
Theorem run_ends_in_terminal_states (env : Env) (w : World)
    (jobSource : JobSource) (parsedJd : option ExtractedJobDetails)
    (jdSource : JdSource) (jdFile : option File) (w' : World) :
  w' = snd (startAnalysis env w)
  \/ w' = snd (startAnalysis_jobSource env jobSource parsedJd w)
  \/ w' = snd (startAnalysis_jdSource env jdSource jdFile w) ->
  aborted w w' \/ escaped w w'
  \/ exists n,
       (n <= length (files w))%nat
       /\ (forall k f,
             files w !! k = Some f -> (k < n)%nat ->
             exists f',
               files w' !! k = Some f'
               /\ (UploadFile.status f' = COMPLETED
                   \/ UploadFile.status f' = ERROR)
               /\ (UploadFile.status f <> COMPLETED ->
                   UploadFile.status f' = COMPLETED ->
                   UploadFile.progress f' = 100
                   /\ exists data, answered env k data
                                   /\ UploadFile.result f' = Some data)
               /\ (UploadFile.status f <> COMPLETED ->
                   UploadFile.status f' = ERROR ->
                   UploadFile.progress f' = 0
                   /\ UploadFile.result f' = UploadFile.result f))
       /\ (forall k f,
             files w !! k = Some f -> (n <= k)%nat -> files w' !! k = Some f)
       /\ (no_nullish_rejection env -> n = length (files w))
       /\ ((n < length (files w))%nat ->
           exists k f what,
             n = S k /\ files w !! k = Some f
             /\ UploadFile.status f <> COMPLETED
             /\ files w' !! k = Some (UploadFile.with_status ERROR 0 f)
             /\ errorMsg w'
                = Some (run_failed_msg (Some (JS.no_message what)))).
Proof.
  intros H.
  assert (R : run_shape (loop env) w w').
  { destruct H as [->|[->| ->]];
      [apply startAnalysis_run|apply startAnalysis_jobSource_run
      |apply startAnalysis_jdSource_run]. }
  destruct (run_finals env w w' R) as [A|[X|(n & L & P & U & N & Ab)]];
    [left; exact A|right; left; exact X|]. right. right.
  exists n. split; [exact L|]. split; [|split; [exact U|split; [exact N|exact Ab]]].
  intros k f Hk Hlt. destruct (P k f Hk Hlt) as (f' & Hf' & Fi).
  exists f'. split; [exact Hf'|].
  destruct Fi as [C ->|data C A ->|C ->]; simpl.
  - unfold is_completed in C. destruct (UploadFile.status f); try discriminate.
    split; [left; reflexivity|]. split; intros X; congruence.
  - split; [left; reflexivity|]. split; [|intros _ X; discriminate].
    intros _ _. split; [reflexivity|]. exists data. split; [exact A|reflexivity].
  - split; [right; reflexivity|]. split; [intros _ X; discriminate|].
    intros _ _. split; reflexivity.
Qed.

Lemma run_ends_in_terminal_states_witness :
  exists f0 f1,
    files (snd (startAnalysis Examples.second_rejected Examples.two_ready))
      !! 0%nat = Some f0
    /\ files (snd (startAnalysis Examples.second_rejected Examples.two_ready))
         !! 1%nat = Some f1
    /\ (UploadFile.status f0 = COMPLETED \/ UploadFile.status f0 = ERROR)
    /\ (UploadFile.status f1 = COMPLETED \/ UploadFile.status f1 = ERROR).
Proof.
  assert (Q : no_nullish_rejection Examples.second_rejected).
  { split; [|discriminate]. intros i e. simpl.
    destruct (Nat.eqb i 1); intros E; inversion E; reflexivity. }
  destruct (run_ends_in_terminal_states Examples.second_rejected
              Examples.two_ready Database None Select None _
              (or_introl eq_refl))
    as [(Hf & _)|[(Hf & _)|(n & _ & P & _ & N & _)]];
    [vm_compute in Hf; discriminate..|].
  specialize (N Q). subst n.
  destruct (P 0%nat Examples.item_a eq_refl) as (f0 & H0 & S0 & _);
    [simpl; lia|].
  destruct (P 1%nat Examples.item_b eq_refl) as (f1 & H1 & S1 & _);
    [simpl; lia|].
  exists f0, f1. repeat split; assumption.
Defined.

(** The page either stops before the loop, or runs the loop for the job it
    found, from the state of the call with the notice cleared and the busy
    flag set. *)
Lemma startAnalysis_cases (env : Env) (w : World) :
  aborted w (snd (startAnalysis env w))
  \/ escaped w (snd (startAnalysis env w))
  \/ exists job,
       find_job (selectedJobId w) (db_jobs w) = Some job
       /\ snd (startAnalysis env w)
          = set_isAnalyzing false
              (after_loop
                 (loop env (variant_of_job true (selectedJobId w) job) 0
                    (files w) (set_isAnalyzing true (set_errorMsg None w)))).
Proof.
  destruct (JS.str_truthy (selectedJobId w)) eqn:Hs.
  - destruct (files w) as [|f fs] eqn:Hf.
    + left. unfold startAnalysis, function_body, bind, setErrorMsg, modify,
        return_. simpl. rewrite Hs, Hf. simpl.
      repeat split. eexists. split; reflexivity.
    + destruct (db_error env FindJobs) as [e|] eqn:Hd.
      * unfold startAnalysis, function_body, try_finally, try_catch, catchRun,
          read_message, bind, setErrorMsg, setIsAnalyzing, db_jobs_find,
          db_call, modify, ret, throw.
        simpl. rewrite Hs, Hf, Hd.
        destruct e as [| |message]; simpl;
          [right; left; repeat split..|left].
        repeat split. eexists. split; reflexivity.
      * destruct (find_job (selectedJobId w) (db_jobs w)) as [job|] eqn:Fj.
        -- right. right. destruct (startAnalysis_loops env w) as (job' & Fj' & E).
           { repeat split; auto; congruence. }
           exists job'. split; [congruence|]. rewrite <- Hf. exact E.
        -- left. unfold startAnalysis, function_body, try_finally, try_catch,
             bind, setErrorMsg, setIsAnalyzing, db_jobs_find, db_call, modify,
             ret, return_.
           simpl. rewrite Hs, Hf, Hd. simpl. rewrite Fj. simpl.
           repeat split. eexists. split; reflexivity.
  - left. unfold startAnalysis, function_body, bind, setErrorMsg, modify,
      return_. simpl. rewrite Hs. simpl.
    repeat split. eexists. split; reflexivity.
Qed.

(** X3.  A second run over a queue whose items are all [COMPLETED] issues no
    analysis call, waits for nothing, and leaves the queue and both stores
    as they were. *)
Theorem rerun_of_a_completed_queue (env : Env) (w : World) :
  count_completed (files w) = length (files w) ->
  files (snd (startAnalysis env w)) = files w
  /\ db_candidates (snd (startAnalysis env w)) = db_candidates w
  /\ db_jobs (snd (startAnalysis env w)) = db_jobs w
  /\ exists evs,
       trace (snd (startAnalysis env w)) = (trace w ++ evs)%list
       /\ count_analyze evs = 0%nat /\ count_delays evs = 0%nat.
Proof.
  intros C.
  destruct (startAnalysis_cases env w)
    as [(Hf & Hc & Hj & m & T & _)|[(Hf & Hc & Hj & T & _)|(job & Fj & E)]].
  - split; [exact Hf|]. split; [exact Hc|]. split; [exact Hj|].
    exists [EvError m]. split; [exact T|]. split; reflexivity.
  - split; [exact Hf|]. split; [exact Hc|]. split; [exact Hj|].
    exists []. rewrite app_nil_r. split; [exact T|]. split; reflexivity.
  - rewrite E, loop_all_completed by exact C. simpl.
    repeat split. exists []. rewrite app_nil_r. repeat split.
Qed.

Lemma rerun_of_a_completed_queue_witness :
  files (snd (startAnalysis Examples.calm Examples.one_done))
  = files Examples.one_done
  /\ db_candidates (snd (startAnalysis Examples.calm Examples.one_done)) = [].
Proof.
  destruct (rerun_of_a_completed_queue Examples.calm Examples.one_done)
    as (F & C & _).
  - reflexivity.
  - split; [exact F|exact C].
Defined.

(** ** A batch without an API key *)

Ltac unfold_item :=
  unfold processItem, tryItem, catchItem, read_message, try_catch,
    analyzeResume, read_matchScore, fileToBase64, db_candidates_insertOne,
    updateJobStats, db_jobs_updateOne, db_jobs_find, db_call, setFiles,
    setErrorMsg, modify, bind, ret, throw; simpl.


Section NoKey.

Variable env : Env.
Variable v : Variant.
Hypothesis no_key : has_key env = false.

Lemma processItem_no_key (i : nat) (cur : UploadFile.t) (w : World) :
  exists w',
    processItem env v i cur w = (Normal tt, w')
    /\ files w' = map_at i (UploadFile.with_status ERROR 0) (files w)
    /\ db_candidates w' = db_candidates w
    /\ db_jobs w' = db_jobs w
    /\ errorMsg w' = Some (key_missing_msg cur).
Proof.
  unfold_item. rewrite no_key. simpl. eexists. split; [reflexivity|]. simpl.
  rewrite !map_at_map_at. repeat split.
Qed.

Lemma iteration_no_key (i : nat) (cur : UploadFile.t) (w : World) :
  db_candidates (snd (iteration env v i cur w)) = db_candidates w
  /\ db_jobs (snd (iteration env v i cur w)) = db_jobs w
  /\ files (snd (iteration env v i cur w))
     = (if is_completed cur then files w
        else map_at i (UploadFile.with_status ERROR 0) (files w))
  /\ errorMsg (snd (iteration env v i cur w))
     = (if is_completed cur then errorMsg w else Some (key_missing_msg cur)).
Proof.
  rewrite iteration_unfold. destruct (is_completed cur); [repeat split|].
  destruct (processItem_no_key i cur (throttle i w)) as (w' & E & F & C & J & M).
  rewrite E. simpl. rewrite F, C, J, M. unfold throttle.
  destruct (0 <? i)%nat; repeat split.
Qed.

Lemma iteration_no_key_normal (i : nat) (cur : UploadFile.t) (w : World) :
  fst (iteration env v i cur w) = Normal tt.
Proof.
  rewrite iteration_unfold. destruct (is_completed cur); [reflexivity|].
  destruct (processItem_no_key i cur (throttle i w)) as (w' & E & _).
  rewrite E. reflexivity.
Qed.

Lemma loop_no_key (rest : list UploadFile.t) (i : nat) (w : World) :
  db_candidates (snd (loop env v i rest w)) = db_candidates w
  /\ db_jobs (snd (loop env v i rest w)) = db_jobs w.
Proof.
  revert i w. induction rest as [|cur rest IH]; intros i w; [split; reflexivity|].
  rewrite loop_continue by apply iteration_no_key_normal.
  destruct (iteration_no_key i cur w) as (C & J & _).
  destruct (IH (S i) (snd (iteration env v i cur w))) as [C2 J2].
  rewrite C2, J2, C, J. split; reflexivity.
Qed.

Lemma final_item_no_key (i : nat) (cur f' : UploadFile.t) (w : World) :
  files w !! i = Some cur ->
  files (snd (iteration env v i cur w)) !! i = Some f' ->
  f' = (if is_completed cur then cur else UploadFile.with_status ERROR 0 cur).
Proof.
  intros Hi. destruct (iteration_no_key i cur w) as (_ & _ & F & _). rewrite F.
  destruct (is_completed cur).
  - rewrite Hi. congruence.
  - rewrite map_at_lookup_eq, Hi. simpl. congruence.
Qed.

Lemma loop_final_no_key (rest : list UploadFile.t) (i : nat) (w : World) :
  drop i (files w) = rest ->
  forall k f,
    rest !! k = Some f ->
    files (snd (loop env v i rest w)) !! (i + k)%nat
    = Some (if is_completed f then f else UploadFile.with_status ERROR 0 f).
Proof.
  revert i w. induction rest as [|cur rest IH]; intros i w Hd k f Hk;
    [discriminate|].
  rewrite loop_continue by apply iteration_no_key_normal.
  assert (Hcur : files w !! i = Some cur).
  { pose proof (lookup_drop (files w) i 0) as L. rewrite Hd in L.
    rewrite Nat.add_0_r in L. symmetry. exact L. }
  assert (Hr : drop (S i) (files w) = rest).
  { replace (S i) with (i + 1)%nat by lia.
    rewrite <- drop_drop, Hd. reflexivity. }
  destruct (iteration_store env v i cur rest w) as (g & ins1 & F1 & _).
  assert (Hd1 : drop (S i) (files (snd (iteration env v i cur w))) = rest).
  { rewrite F1, map_at_drop. exact Hr. }
  destruct k as [|k]; simpl in Hk.
  - inversion Hk; subst f. rewrite Nat.add_0_r.
    destruct (loop_store env v rest (S i) _ Hd1) as (_ & U & _).
    rewrite U by lia.
    destruct (iteration_final env v i cur w Hcur) as (f' & Hf' & _).
    rewrite Hf'. f_equal. eapply final_item_no_key; eassumption.
  - replace (i + S k)%nat with (S i + k)%nat by lia.
    apply IH; assumption.
Qed.

End NoKey.

(** X4.  Without an API key, a run of the page that reaches the loop stores no
    candidate and leaves the job store alone; every item that was not
    already [COMPLETED] ends in [ERROR] with progress 0, and the completed
    ones are left as they are. *)
Theorem batch_without_key_fails_every_item (env : Env) (w : World) :
  has_key env = false -> reaches_loop env w ->
  db_candidates (snd (startAnalysis env w)) = db_candidates w
  /\ db_jobs (snd (startAnalysis env w)) = db_jobs w
  /\ forall k f,
       files w !! k = Some f ->
       files (snd (startAnalysis env w)) !! k
       = Some (if Status_eqb (UploadFile.status f) COMPLETED then f
               else UploadFile.with_status ERROR 0 f).
Proof.
  intros K R. destruct (startAnalysis_loops env w R) as (job & _ & E).
  rewrite E. simpl.
  destruct (after_loop_fields
              (loop env (variant_of_job true (selectedJobId w) job) 0 (files w)
                 (set_isAnalyzing true (set_errorMsg None w))))
    as (-> & -> & -> & _).
  destruct (loop_no_key env (variant_of_job true (selectedJobId w) job) K
              (files w) 0 (set_isAnalyzing true (set_errorMsg None w))) as [C J].
  split; [exact C|]. split; [exact J|].
  intros k f Hk.
  apply (loop_final_no_key env (variant_of_job true (selectedJobId w) job) K
           (files w) 0 (set_isAnalyzing true (set_errorMsg None w)));
    [apply drop_0|exact Hk].
Qed.

Lemma batch_without_key_fails_every_item_witness :
  db_candidates (snd (startAnalysis MoreExamples.keyless Examples.two_ready)) = [].
Proof.
  assert (R : reaches_loop MoreExamples.keyless Examples.two_ready).
  { repeat split; discriminate. }
  destruct (batch_without_key_fails_every_item MoreExamples.keyless
              Examples.two_ready eq_refl R) as (C & _).
  exact C.
Defined.

(** ** One iteration, in full *)

Lemma throttle_fields (i : nat) (w : World) :
  files (throttle i w) = files w /\ db_jobs (throttle i w) = db_jobs w
  /\ errorMsg (throttle i w) = errorMsg w
  /\ db_candidates (throttle i w) = db_candidates w.
Proof. unfold throttle. destruct (0 <? i)%nat; repeat split. Qed.

(** What the [try] block of item [i] does to the job store: the counters
    are written when it completes, and nothing is when it throws. *)
Lemma tryItem_jobs (env : Env) (v : Variant) (i : nat) (cur : UploadFile.t)
    (w : World) :
  match tryItem env v i cur w with
  | (Normal _, w') =>
      exists data,
        answered env i data
        /\ db_jobs w'
           = stats_written (stats v) (matchScore_of env data) (db_jobs w)
  | (Throw _, w') => db_jobs w' = db_jobs w
  | (Return, _) => False
  end.
Proof.
  unfold tryItem, analyzeResume, read_matchScore, fileToBase64,
    db_candidates_insertOne, updateJobStats, db_jobs_updateOne, db_jobs_find,
    db_call, setFiles, modify, bind, ret, throw, stats_written; simpl.
  destruct (has_key env); simpl; [|reflexivity].
  destruct (reader_error env (ReadInGateway i)); simpl; [reflexivity|].
  destruct (ctx_skills (ctx v)); simpl; [|reflexivity].
  destruct (gemini_resume env i) as [e|data] eqn:G; simpl; [reflexivity|].
  destruct (JS.nullish data) eqn:N; simpl; [reflexivity|].
  destruct (reader_error env (ReadInScheduler i)); simpl; [reflexivity|].
  destruct (db_error env (InsertCandidate i)) as [e|]; simpl; [reflexivity|].
  destruct (stats v) as [currentJob|[|] sel]; simpl.
  - destruct (db_error env (UpdateJob i)) as [e|]; simpl; [reflexivity|].
    exists data. split; [split; assumption|reflexivity].
  - destruct (db_error env (FindJobsAfter i)) as [e|]; simpl; [reflexivity|].
    destruct (find_job sel (db_jobs w)) eqn:Fj; simpl.
    + destruct (db_error env (UpdateJob i)) as [e|]; simpl; [reflexivity|].
      exists data. split; [split; assumption|reflexivity].
    + exists data. split; [split; assumption|reflexivity].
  - exists data. split; [split; assumption|reflexivity].
Qed.

Lemma processItem_iter (env : Env) (v : Variant) (i : nat) (cur : UploadFile.t)
    (w : World) :
  is_completed cur = false ->
  IterPost env v i cur w (fst (processItem env v i cur w))
    (snd (processItem env v i cur w)).
Proof.
  intros C. rewrite processItem_try.
  set (w0 := snd (setFiles (map_at i (UploadFile.with_status READING 10)) w)).
  assert (F0 : files w0 = map_at i (UploadFile.with_status READING 10) (files w))
    by reflexivity.
  assert (J0 : db_jobs w0 = db_jobs w) by reflexivity.
  assert (M0 : errorMsg w0 = errorMsg w) by reflexivity.
  clearbody w0.
  pose proof (tryItem_jobs env v i cur w0) as J.
  destruct (tryItem_post env v i cur w0)
    as (c & w1 & g & E & F & M & [(data & -> & A & G & _)|(e & stored & -> & G & _)]);
    rewrite E in *; simpl.
  - destruct J as (data' & A' & J).
    assert (data' = data) as ->.
    { destruct A as [A _], A' as [A' _]. congruence. }
    eapply iter_completed; [exact C|exact A| |congruence|congruence|reflexivity].
    rewrite F, F0, map_at_map_at. apply map_at_ext. intros x. rewrite G.
    reflexivity.
  - destruct (catchItem_post i cur e w1) as (F2 & _ & J2 & _).
    pose proof (catchItem_caught i cur e w1) as K.
    apply iter_failed; [exact C| |congruence|rewrite <- M0, <- M; exact K].
    rewrite F2, F, F0, !map_at_map_at. apply map_at_ext. intros x.
    rewrite G. reflexivity.
Qed.

Lemma iteration_post (env : Env) (v : Variant) (i : nat) (cur : UploadFile.t)
    (w : World) :
  IterPost env v i cur w (fst (iteration env v i cur w))
    (snd (iteration env v i cur w)).
Proof.
  rewrite iteration_unfold. destruct (is_completed cur) eqn:C.
  - apply iter_skipped; [exact C|reflexivity|reflexivity].
  - destruct (throttle_fields i w) as (TF & TJ & TE & _).
    destruct (processItem_iter env v i cur (throttle i w) C)
      as [C'|data C' A F J M N|C' F J M]; [congruence| |].
    + eapply iter_completed; try eassumption; congruence.
    + eapply iter_failed; try eassumption; congruence.
Qed.

(** ** The job store *)

Lemma find_job_id (id : string) (js : list Job.t) (j : Job.t) :
  find_job id js = Some j -> Job.id j = id.
Proof.
  unfold find_job. intros H. apply List.find_some in H.
  destruct H as [_ H]. apply String.eqb_eq in H. exact H.
Qed.

Lemma counters_only_refl (j : Job.t) : counters_only j j.
Proof. repeat split. Qed.

Lemma counters_only_apply (u : Job.stats) (j : Job.t) :
  counters_only j (Job.apply u j).
Proof. repeat split. Qed.

Lemma job_frame_refl (sel : string) (js : list Job.t) : job_frame sel js js.
Proof.
  induction js as [|j js IH]; [apply Forall2_nil_2|].
  apply Forall2_cons_2; [|exact IH].
  split; [apply counters_only_refl|reflexivity].
Qed.

Lemma job_frame_trans (sel : string) (a b c : list Job.t) :
  job_frame sel a b -> job_frame sel b c -> job_frame sel a c.
Proof.
  unfold job_frame. intros H. revert c.
  induction H as [|j j' a b [C1 F1] H IH]; intros c Hc.
  - inversion Hc. apply Forall2_nil_2.
  - inversion Hc as [|j0 j'' b0 c' [C2 F2] Hc']; subst.
    apply Forall2_cons_2; [|apply IH; exact Hc'].
    destruct C1 as (I1 & T1 & D1 & L1 & Y1 & S1 & K1 & E1).
    destruct C2 as (I2 & T2 & D2 & L2 & Y2 & S2 & K2 & E2).
    split; [repeat split; congruence|].
    intros N. rewrite F2 by congruence. apply F1. exact N.
Qed.

Lemma update_first_frame (id : string) (u : Job.stats) (js : list Job.t) :
  job_frame id js (update_first id u js).
Proof.
  induction js as [|j js IH]; simpl; [apply Forall2_nil_2|].
  destruct (String.eqb_spec (Job.id j) id) as [E|N].
  - apply Forall2_cons_2; [|apply job_frame_refl].
    split; [apply counters_only_apply|congruence].
  - apply Forall2_cons_2; [|exact IH].
    split; [apply counters_only_refl|reflexivity].
Qed.

Lemma find_job_update_first (id : string) (u : Job.stats) (js : list Job.t) :
  find_job id (update_first id u js) = option_map (Job.apply u) (find_job id js).
Proof.
  unfold find_job. induction js as [|j js IH]; simpl; [reflexivity|].
  destruct (String.eqb (Job.id j) id) eqn:E; simpl.
  - rewrite E. reflexivity.
  - rewrite E. exact IH.
Qed.

Lemma stats_written_frame (p : StatsPolicy) (sel : string) (s : JS.number)
    (js : list Job.t) :
  targets p sel -> job_frame sel js (stats_written p s js).
Proof.
  destruct p as [cj|[|] s0]; simpl; intros T.
  - rewrite T. apply update_first_frame.
  - subst s0. destruct (find_job sel js) as [cj|] eqn:F;
      [|apply job_frame_refl].
    rewrite (find_job_id _ _ _ F). apply update_first_frame.
  - apply job_frame_refl.
Qed.

Lemma stats_written_upload (sel : string) (s : JS.number) (js : list Job.t) :
  stats_written (StatsRefetch Upload sel) s js = js.
Proof. reflexivity. Qed.

Section JobStore.

Variable env : Env.
Variable v : Variant.

Lemma iteration_job_frame (sel : string) (i : nat) (cur : UploadFile.t)
    (w : World) :
  targets (stats v) sel ->
  job_frame sel (db_jobs w) (db_jobs (snd (iteration env v i cur w))).
Proof.
  intros T.
  destruct (iteration_post env v i cur w) as [C E N|data C A F J M N|C F J M].
  - rewrite E. apply job_frame_refl.
  - rewrite J. apply stats_written_frame. exact T.
  - rewrite J. apply job_frame_refl.
Qed.

Lemma loop_job_frame (sel : string) (rest : list UploadFile.t) (i : nat)
    (w : World) :
  targets (stats v) sel ->
  job_frame sel (db_jobs w) (db_jobs (snd (loop env v i rest w))).
Proof.
  intros T.
  apply (loop_invariant env v
           (fun a b => job_frame sel (db_jobs a) (db_jobs b))).
  - intros a. apply job_frame_refl.
  - intros a b c. apply job_frame_trans.
  - intros j cur a. apply iteration_job_frame, T.
Qed.

Lemma loop_upload_jobs (sel : string) (rest : list UploadFile.t) (i : nat)
    (w : World) :
  stats v = StatsRefetch Upload sel ->
  db_jobs (snd (loop env v i rest w)) = db_jobs w.
Proof.
  intros Hs.
  apply (loop_invariant env v (fun a b => db_jobs b = db_jobs a)).
  - reflexivity.
  - intros a b c H1 H2. congruence.
  - intros j cur a.
    destruct (iteration_post env v j cur a) as [C E N|data C A F J M N|C F J M].
    + rewrite E. reflexivity.
    + rewrite J, Hs. reflexivity.
    + exact J.
Qed.

Lemma loop_assoc_id (rest : list UploadFile.t) (i : nat) (w : World) :
  drop i (files w) = rest ->
  exists ins,
    db_candidates (snd (loop env v i rest w)) = (db_candidates w ++ ins)%list
    /\ Forall (fun c => Candidate.associatedJdId c = assoc_id v) ins.
Proof.
  intros Hd. destruct (loop_store env v rest i w Hd) as (_ & _ & ins & D & P & _).
  exists ins. split; [exact D|].
  eapply Forall_impl; [exact P|].
  intros c (k & f & data & _ & _ & _ & ->). reflexivity.
Qed.

End JobStore.

(** ** Counting completions *)

Lemma count_completed_map_at (i : nat) (g : UploadFile.t -> UploadFile.t)
    (l : list UploadFile.t) (cur : UploadFile.t) :
  l !! i = Some cur ->
  (count_completed (map_at i g l) + (if is_completed cur then 1 else 0)
   = count_completed l + (if is_completed (g cur) then 1 else 0))%nat.
Proof.
  rewrite map_at_alter. revert i.
  induction l as [|x l IH]; intros [|i] H; try discriminate.
  - inversion H; subst x. simpl. rewrite !count_completed_cons.
    destruct (is_completed cur), (is_completed (g cur)); lia.
  - simpl in H. simpl. rewrite !count_completed_cons.
    specialize (IH i H). change (alter g i l) with (list_alter g i l) in IH.
    destruct (is_completed cur), (is_completed (g cur)), (is_completed x); lia.
Qed.

Lemma queue_head (i : nat) (cur : UploadFile.t) (rest : list UploadFile.t)
    (fs : list UploadFile.t) :
  drop i fs = cur :: rest -> fs !! i = Some cur /\ drop (S i) fs = rest.
Proof.
  intros Hd. split.
  - pose proof (lookup_drop fs i 0) as L. rewrite Hd in L.
    rewrite Nat.add_0_r in L. symmetry. exact L.
  - replace (S i) with (i + 1)%nat by lia.
    rewrite <- drop_drop, Hd. reflexivity.
Qed.

(** What one iteration does to the number of completed items. *)
Lemma iteration_count (env : Env) (v : Variant) (i : nat) (cur : UploadFile.t)
    (rest : list UploadFile.t) (w : World) :
  drop i (files w) = cur :: rest ->
  drop (S i) (files (snd (iteration env v i cur w))) = rest
  /\ ((count_completed (files (snd (iteration env v i cur w)))
       = count_completed (files w)
       /\ db_jobs (snd (iteration env v i cur w)) = db_jobs w)
      \/ (count_completed (files (snd (iteration env v i cur w)))
          = S (count_completed (files w))
          /\ exists data,
               db_jobs (snd (iteration env v i cur w))
               = stats_written (stats v) (matchScore_of env data) (db_jobs w))).
Proof.
  intros Hd. destruct (queue_head _ _ _ _ Hd) as [Hc Hr].
  destruct (iteration_post env v i cur w) as [C E X|data C A F J M X|C F J M].
  - rewrite E. split; [exact Hr|]. left. split; reflexivity.
  - rewrite F, map_at_drop. split; [exact Hr|]. right.
    pose proof (count_completed_map_at i
                  (UploadFile.with_result COMPLETED 100 data) _ _ Hc) as N.
    rewrite C in N. simpl in N. split; [lia|]. exists data. exact J.
  - rewrite F, map_at_drop. split; [exact Hr|]. left.
    pose proof (count_completed_map_at i (UploadFile.with_status ERROR 0) _ _ Hc)
      as N.
    rewrite C in N. simpl in N. split; [lia|exact J].
Qed.

Lemma apply_apply (u u' : Job.stats) (o : option Job.t) :
  option_map (Job.apply u') (option_map (Job.apply u) o)
  = option_map (Job.apply u') o.
Proof. destruct o; reflexivity. Qed.

(** As long as the counter stays within [2^53], [n] increments add [n]. *)
Lemma iter_plus_one (n : nat) (c : Z) :
  - 2 ^ 53 <= c -> c + Z.of_nat n <= 2 ^ 53 ->
  Nat.iter n JS.plus_one c = c + Z.of_nat n.
Proof.
  induction n as [|n IH]; intros Hl Hu; simpl Nat.iter; [lia|].
  rewrite IH by lia. rewrite plus_one_exact by lia. lia.
Qed.

Section Counters.

Variable env : Env.
Variable v : Variant.

Lemma loop_stale_counter (cj : Job.t) (rest : list UploadFile.t) (i : nat)
    (w : World) :
  stats v = StatsFromJob cj ->
  drop i (files w) = rest ->
  (count_completed (files (snd (loop env v i rest w))) = count_completed (files w)
   /\ db_jobs (snd (loop env v i rest w)) = db_jobs w)
  \/ ((count_completed (files w)
       < count_completed (files (snd (loop env v i rest w))))%nat
      /\ exists s,
           find_job (Job.id cj) (db_jobs (snd (loop env v i rest w)))
           = option_map (Job.apply (job_stats cj s))
               (find_job (Job.id cj) (db_jobs w))).
Proof.
  intros Hs. revert i w.
  induction rest as [|cur rest IH]; intros i w Hd;
    [left; split; reflexivity|].
  destruct (iteration_count env v i cur rest w Hd) as [Hr [[N J]|[N [data J]]]];
    destruct (loop_step env v i cur rest w) as [[_ ->]|(what & _ & ->)]; simpl.
  - destruct (IH (S i) _ Hr) as [[N2 J2]|[N2 [s F2]]].
    + left. split; congruence.
    + right. split; [lia|]. exists s. rewrite F2, J. reflexivity.
  - left. split; assumption.
  - rewrite Hs in J. simpl in J.
    destruct (IH (S i) _ Hr) as [[N2 J2]|[N2 [s F2]]].
    + right. split; [lia|]. exists (matchScore_of env data).
      rewrite J2, J. apply find_job_update_first.
    + right. split; [lia|]. exists s.
      rewrite F2, J, find_job_update_first. apply apply_apply.
  - rewrite Hs in J. simpl in J.
    right. split; [lia|]. exists (matchScore_of env data).
    rewrite J. apply find_job_update_first.
Qed.

Lemma loop_refetched_counter (sel : string) (rest : list UploadFile.t)
    (i : nat) (w : World) (j : Job.t) :
  stats v = StatsRefetch Database sel ->
  drop i (files w) = rest ->
  find_job sel (db_jobs w) = Some j ->
  exists j',
    find_job sel (db_jobs (snd (loop env v i rest w))) = Some j'
    /\ (count_completed (files w)
        <= count_completed (files (snd (loop env v i rest w))))%nat
    /\ Job.count_or_0 (Job.applicantsCount j')
       = Nat.iter (count_completed (files (snd (loop env v i rest w)))
                   - count_completed (files w))
           JS.plus_one (Job.count_or_0 (Job.applicantsCount j)).
Proof.
  intros Hs. revert i w j.
  induction rest as [|cur rest IH]; intros i w j Hd Fj.
  - exists j. simpl. split; [exact Fj|]. split; [lia|].
    rewrite Nat.sub_diag. reflexivity.
  - destruct (iteration_count env v i cur rest w Hd) as [Hr [[N J]|[N [data J]]]];
      destruct (loop_step env v i cur rest w) as [[_ ->]|(what & _ & ->)]; simpl.
    + rewrite <- J in Fj.
      destruct (IH (S i) _ j Hr Fj) as (j' & F' & L' & C').
      exists j'. split; [exact F'|]. split; [lia|]. rewrite C', N. reflexivity.
    + exists j. rewrite J, N, Nat.sub_diag. split; [exact Fj|].
      split; [lia|reflexivity].
    + rewrite Hs in J. simpl in J. rewrite Fj in J.
      rewrite (find_job_id _ _ _ Fj) in J.
      assert (F1 : find_job sel (db_jobs (snd (iteration env v i cur w)))
                   = Some (Job.apply (job_stats j (matchScore_of env data)) j)).
      { rewrite J, find_job_update_first, Fj. reflexivity. }
      destruct (IH (S i) _ _ Hr F1) as (j' & F' & L' & C').
      exists j'. split; [exact F'|]. split; [lia|]. rewrite C'. simpl.
      rewrite N.
      replace (count_completed (files (snd (loop env v (S i) rest
                                              (snd (iteration env v i cur w)))))
               - count_completed (files w))%nat
        with (S (count_completed (files (snd (loop env v (S i) rest
                                                (snd (iteration env v i cur w)))))
                 - S (count_completed (files w))))%nat by lia.
      rewrite Nat.iter_succ_r. reflexivity.
    + rewrite Hs in J. simpl in J. rewrite Fj in J.
      rewrite (find_job_id _ _ _ Fj) in J.
      eexists. split; [rewrite J, find_job_update_first, Fj; reflexivity|].
      split; [lia|]. rewrite N.
      replace (S (count_completed (files w)) - count_completed (files w))%nat
        with 1%nat by lia.
      reflexivity.
Qed.

End Counters.

(** ** The revisions, with the state the loop starts from *)

Ltac open_page :=
  unfold function_body, try_finally, try_catch, catchRun, read_message, bind,
    setErrorMsg, setIsAnalyzing, setIsExtractingJd, setJobs, setSelectedJobId,
    db_jobs_find, db_jobs_insertOne, db_call, modify, ret, throw, return_;
  simpl.

Ltac page_stops := left; repeat split; eexists; split; reflexivity.

Ltac page_escapes := right; left; repeat split.

(** A rejection before the loop, by cases on the rejected value. *)
Ltac page_halts :=
  try match goal with
      | |- context [JS.get_message ?e] => is_var e; destruct e as [| |message]
      end;
  simpl; first [page_stops | page_escapes].

(** The loop and the outer [catch], by cases on the way the loop ends. *)
Ltac page_loops :=
  simpl;
  lazymatch goal with
  | |- _ = set_isAnalyzing false (after_loop (loop ?env ?ve 0 _ ?we)) =>
      match goal with
      | |- context [loop env ?v' 0 ?fs ?w'] =>
          assert_fails (has_evar v'); assert_fails (has_evar w');
          unify ve v'; unify we w';
          destruct (loop env v' 0 fs w') as [[[]|[| |message]|] w2]
      end
  end;
  reflexivity.

Lemma startAnalysis_jobSource_cases (env : Env) (jobSource : JobSource)
    (parsedJd : option ExtractedJobDetails) (w : World) :
  aborted w (snd (startAnalysis_jobSource env jobSource parsedJd w))
  \/ escaped w (snd (startAnalysis_jobSource env jobSource parsedJd w))
  \/ exists v,
       stats v = StatsRefetch jobSource (selectedJobId w)
       /\ assoc_id v = match jobSource with
                       | Database => selectedJobId w
                       | Upload => "temp-uploaded-jd"
                       end
       /\ snd (startAnalysis_jobSource env jobSource parsedJd w)
          = set_isAnalyzing false
              (after_loop
                 (loop env v 0 (files w)
                    (set_isAnalyzing true (set_errorMsg None w)))).
Proof.
  unfold startAnalysis_jobSource, resolve_jobSource. open_page.
  destruct jobSource; simpl.
  - destruct (negb (JS.str_truthy (selectedJobId w))); simpl; [page_stops|].
    destruct (length (files w) =? 0)%nat; simpl; [page_stops|].
    destruct (db_error env FindJobs) as [e|]; simpl; [page_halts|].
    destruct (find_job (selectedJobId w) (db_jobs w)) as [job|]; simpl;
      [|page_stops].
    right. right. eexists. split; [|split]; [| |page_loops]; reflexivity.
  - destruct parsedJd as [p|]; simpl; [|page_stops].
    destruct (length (files w) =? 0)%nat; simpl; [page_stops|].
    right. right. eexists. split; [|split]; [| |page_loops]; reflexivity.
Qed.

Lemma startAnalysis_jdSource_uploads (env : Env) (jd : File)
    (ex : ExtractedJobDetails) (w : World) :
  JS.str_truthy (selectedJobId w) = true -> files w <> [] ->
  has_key env = true -> reader_error env ReadJd = None ->
  gemini_jd env = inr ex -> db_error env InsertJob = None ->
  snd (startAnalysis_jdSource env UploadJd (Some jd) w)
  = set_isAnalyzing false
      (after_loop
         (loop env (variant_of_job false (selectedJobId w) (newJob env ex jd))
            0 (files w) (after_upload env ex jd w))).
Proof.
  intros Hs Hf Hk Hr Hg Hi.
  assert (Hl : (length (files w) =? 0)%nat = false).
  { destruct (files w); [congruence|reflexivity]. }
  unfold startAnalysis_jdSource, resolve_jdSource, extractJobDetailsFromPDF,
    fileToBase64, after_upload.
  open_page. rewrite Hs, Hl. simpl. rewrite Hk. simpl. rewrite Hr. simpl.
  rewrite Hg. simpl. rewrite Hi. simpl.
  page_loops.
Qed.

Ltac thrown_cases :=
  try match goal with
      | |- context [JS.get_message ?e] => is_var e; destruct e as [| |message]
      end;
  simpl.

Lemma iteration_page_state (env : Env) (v : Variant) (i : nat)
    (cur : UploadFile.t) (w : World) :
  selectedJobId (snd (iteration env v i cur w)) = selectedJobId w
  /\ jobs (snd (iteration env v i cur w)) = jobs w
  /\ isAnalyzing (snd (iteration env v i cur w)) = isAnalyzing w
  /\ isExtractingJd (snd (iteration env v i cur w)) = isExtractingJd w.
Proof.
  rewrite iteration_unfold. destruct (is_completed cur); [repeat split|].
  assert (T : selectedJobId (throttle i w) = selectedJobId w
              /\ jobs (throttle i w) = jobs w
              /\ isAnalyzing (throttle i w) = isAnalyzing w
              /\ isExtractingJd (throttle i w) = isExtractingJd w).
  { unfold throttle. destruct (0 <? i)%nat; repeat split. }
  destruct T as (T1 & T2 & T3 & T4). rewrite <- T1, <- T2, <- T3, <- T4.
  generalize (throttle i w). intros w0.
  unfold_item.
  destruct (has_key env); simpl; [|repeat split].
  destruct (reader_error env (ReadInGateway i)); simpl; [repeat split|].
  destruct (ctx_skills (ctx v)); simpl; [|repeat split].
  destruct (gemini_resume env i) as [e|data]; simpl;
    [thrown_cases; repeat split|].
  destruct (JS.nullish data); simpl; [repeat split|].
  destruct (reader_error env (ReadInScheduler i)); simpl; [repeat split|].
  destruct (db_error env (InsertCandidate i)) as [e|]; simpl;
    [thrown_cases; repeat split|].
  destruct (stats v) as [currentJob|[|] sel]; simpl.
  - destruct (db_error env (UpdateJob i)) as [e|]; simpl;
      thrown_cases; repeat split.
  - destruct (db_error env (FindJobsAfter i)) as [e|]; simpl;
      [thrown_cases; repeat split|].
    destruct (find_job sel (db_jobs w0)); simpl; [|repeat split].
    destruct (db_error env (UpdateJob i)) as [e|]; simpl;
      thrown_cases; repeat split.
  - repeat split.
Qed.

(** The loop leaves the rest of the page state alone. *)
Lemma loop_page_state (env : Env) (v : Variant) (rest : list UploadFile.t)
    (i : nat) (w : World) :
  selectedJobId (snd (loop env v i rest w)) = selectedJobId w
  /\ jobs (snd (loop env v i rest w)) = jobs w
  /\ isAnalyzing (snd (loop env v i rest w)) = isAnalyzing w
  /\ isExtractingJd (snd (loop env v i rest w)) = isExtractingJd w.
Proof.
  apply (loop_invariant env v
           (fun a b => selectedJobId b = selectedJobId a /\ jobs b = jobs a
                       /\ isAnalyzing b = isAnalyzing a
                       /\ isExtractingJd b = isExtractingJd a)).
  - repeat split.
  - intros a b c (A1 & A2 & A3 & A4) (B1 & B2 & B3 & B4).
    repeat split; congruence.
  - intros j cur a. apply iteration_page_state.
Qed.

(** ** Properties of the job store *)

(** X5.  Whatever happens during a run of the page or of its revision with
    [jobSource], the job store keeps the same jobs in the same order, and
    only the two counters of jobs with the selected id may have changed. *)
Theorem run_only_touches_the_selected_counters (env : Env) (w : World)
    (jobSource : JobSource) (parsedJd : option ExtractedJobDetails)
    (w' : World) :
  w' = snd (startAnalysis env w)
  \/ w' = snd (startAnalysis_jobSource env jobSource parsedJd w) ->
  Forall2 (fun j j' => counters_only j j'
                       /\ (Job.id j <> selectedJobId w -> j' = j))
    (db_jobs w) (db_jobs w').
Proof.
  intros [->| ->].
  - destruct (startAnalysis_cases env w)
      as [(_ & _ & J & _)|[(_ & _ & J & _)|(job & F & E)]].
    + rewrite J. apply job_frame_refl.
    + rewrite J. apply job_frame_refl.
    + rewrite E. simpl.
      destruct (after_loop_fields
                  (loop env (variant_of_job true (selectedJobId w) job) 0
                     (files w) (set_isAnalyzing true (set_errorMsg None w))))
        as (_ & _ & -> & _).
      apply (loop_job_frame env (variant_of_job true (selectedJobId w) job)
               (selectedJobId w) (files w) 0
               (set_isAnalyzing true (set_errorMsg None w))).
      simpl. apply (find_job_id _ _ _ F).
  - destruct (startAnalysis_jobSource_cases env jobSource parsedJd w)
      as [(_ & _ & J & _)|[(_ & _ & J & _)|(v & S & _ & E)]].
    + rewrite J. apply job_frame_refl.
    + rewrite J. apply job_frame_refl.
    + rewrite E. simpl.
      destruct (after_loop_fields
                  (loop env v 0 (files w)
                     (set_isAnalyzing true (set_errorMsg None w))))
        as (_ & _ & -> & _).
      apply (loop_job_frame env v (selectedJobId w) (files w) 0
               (set_isAnalyzing true (set_errorMsg None w))).
      rewrite S. reflexivity.
Qed.

Lemma run_only_touches_the_selected_counters_witness :
  Forall2 (fun j j' => counters_only j j' /\ (Job.id j <> "j-1" -> j' = j))
    [Examples.backend]
    (db_jobs (snd (startAnalysis Examples.calm Examples.two_ready))).
Proof.
  apply (run_only_touches_the_selected_counters Examples.calm Examples.two_ready
           Database None).
  left. reflexivity.
Defined.

(** X6.  In pages/ResumeScore.tsx the counters are computed from the job
    read before the loop, so a run increments the applicant counter of the
    selected job once when it completes at least one item, however many it
    completes, and leaves it alone otherwise.  The increment is that of
    the host's numbers: it adds one as long as the counter is below
    [2^53]. *)
Theorem stale_counter_rises_at_most_once (env : Env) (w : World) (job : Job.t) :
  find_job (selectedJobId w) (db_jobs w) = Some job ->
  exists job',
    find_job (selectedJobId w) (db_jobs (snd (startAnalysis env w))) = Some job'
    /\ Job.count_or_0 (Job.applicantsCount job')
       = (if (count_completed (files w)
              <? count_completed (files (snd (startAnalysis env w))))%nat
          then JS.plus_one (Job.count_or_0 (Job.applicantsCount job))
          else Job.count_or_0 (Job.applicantsCount job))
    /\ (- 2 ^ 53 <= Job.count_or_0 (Job.applicantsCount job) < 2 ^ 53 ->
        Job.count_or_0 (Job.applicantsCount job')
        = Job.count_or_0 (Job.applicantsCount job)
          + (if (count_completed (files w)
                 <? count_completed (files (snd (startAnalysis env w))))%nat
             then 1 else 0)).
Proof.
  intros Fj.
  assert (G : forall job',
    Job.count_or_0 (Job.applicantsCount job')
    = (if (count_completed (files w)
           <? count_completed (files (snd (startAnalysis env w))))%nat
       then JS.plus_one (Job.count_or_0 (Job.applicantsCount job))
       else Job.count_or_0 (Job.applicantsCount job)) ->
    - 2 ^ 53 <= Job.count_or_0 (Job.applicantsCount job) < 2 ^ 53 ->
    Job.count_or_0 (Job.applicantsCount job')
    = Job.count_or_0 (Job.applicantsCount job)
      + (if (count_completed (files w)
             <? count_completed (files (snd (startAnalysis env w))))%nat
         then 1 else 0)).
  { intros job' E B. rewrite E.
    destruct (count_completed (files w)
              <? count_completed (files (snd (startAnalysis env w))))%nat;
      [apply plus_one_exact, B|lia]. }
  assert (Same :
    files (snd (startAnalysis env w)) = files w ->
    db_jobs (snd (startAnalysis env w)) = db_jobs w ->
    exists job',
      find_job (selectedJobId w) (db_jobs (snd (startAnalysis env w))) = Some job'
      /\ Job.count_or_0 (Job.applicantsCount job')
         = (if (count_completed (files w)
                <? count_completed (files (snd (startAnalysis env w))))%nat
            then JS.plus_one (Job.count_or_0 (Job.applicantsCount job))
            else Job.count_or_0 (Job.applicantsCount job))).
  { intros F J. exists job. rewrite J, F, Nat.ltb_irrefl.
    split; [exact Fj|reflexivity]. }
  assert (Main :
    exists job',
      find_job (selectedJobId w) (db_jobs (snd (startAnalysis env w))) = Some job'
      /\ Job.count_or_0 (Job.applicantsCount job')
         = (if (count_completed (files w)
                <? count_completed (files (snd (startAnalysis env w))))%nat
            then JS.plus_one (Job.count_or_0 (Job.applicantsCount job))
            else Job.count_or_0 (Job.applicantsCount job))).
  { destruct (startAnalysis_cases env w)
      as [(F & _ & J & _)|[(F & _ & J & _)|(job0 & F0 & E)]];
      [apply Same; assumption..|]. clear Same.
    rewrite Fj in F0. injection F0 as <-. rewrite E. simpl.
    destruct (after_loop_fields
                (loop env (variant_of_job true (selectedJobId w) job) 0
                   (files w) (set_isAnalyzing true (set_errorMsg None w))))
      as (-> & _ & -> & _).
    destruct (loop_stale_counter env (variant_of_job true (selectedJobId w) job)
                job (files w) 0 (set_isAnalyzing true (set_errorMsg None w))
                eq_refl (drop_0 _)) as [[N J]|[N [s F]]]; simpl in *.
    + exists job. rewrite J, N, Nat.ltb_irrefl. split; [exact Fj|reflexivity].
    + rewrite (find_job_id _ _ _ Fj) in F. rewrite Fj in F. simpl in F.
      eexists. split; [exact F|].
      apply Nat.ltb_lt in N. rewrite N. reflexivity. }
  destruct Main as (job' & F & E). exists job'.
  split; [exact F|]. split; [exact E|apply G, E].
Qed.

Lemma stale_counter_rises_at_most_once_witness :
  exists job',
    find_job "j-1" (db_jobs (snd (startAnalysis Examples.calm Examples.two_ready)))
    = Some job'
    /\ Job.count_or_0 (Job.applicantsCount job') = 0 + 1.
Proof.
  destruct (stale_counter_rises_at_most_once Examples.calm Examples.two_ready
              Examples.backend eq_refl) as (job' & F & _ & C).
  exists job'. split; [exact F|]. apply C. simpl. lia.
Defined.

(** X7.  In the revision that fetches the job again before each update, a
    run in database mode increments the applicant counter of the selected
    job once for every item it brings to [COMPLETED]: it raises it by
    exactly the number of those items as long as the counter stays within
    [2^53], where the increments of the host's numbers are exact. *)
Theorem refetched_counter_counts_completions (env : Env)
    (parsedJd : option ExtractedJobDetails) (w : World) (job : Job.t) :
  find_job (selectedJobId w) (db_jobs w) = Some job ->
  exists job',
    find_job (selectedJobId w)
      (db_jobs (snd (startAnalysis_jobSource env Database parsedJd w)))
    = Some job'
    /\ (count_completed (files w)
        <= count_completed
             (files (snd (startAnalysis_jobSource env Database parsedJd w))))%nat
    /\ Job.count_or_0 (Job.applicantsCount job')
       = Nat.iter
           (count_completed
              (files (snd (startAnalysis_jobSource env Database parsedJd w)))
            - count_completed (files w))
           JS.plus_one (Job.count_or_0 (Job.applicantsCount job))
    /\ (- 2 ^ 53 <= Job.count_or_0 (Job.applicantsCount job) ->
        Job.count_or_0 (Job.applicantsCount job)
        + Z.of_nat
            (count_completed
               (files (snd (startAnalysis_jobSource env Database parsedJd w)))
             - count_completed (files w)) <= 2 ^ 53 ->
        Job.count_or_0 (Job.applicantsCount job')
        = Job.count_or_0 (Job.applicantsCount job)
          + Z.of_nat
              (count_completed
                 (files (snd (startAnalysis_jobSource env Database parsedJd w)))
               - count_completed (files w))).
Proof.
  intros Fj.
  assert (Main :
    exists job',
      find_job (selectedJobId w)
        (db_jobs (snd (startAnalysis_jobSource env Database parsedJd w)))
      = Some job'
      /\ (count_completed (files w)
          <= count_completed
               (files (snd (startAnalysis_jobSource env Database parsedJd w))))%nat
      /\ Job.count_or_0 (Job.applicantsCount job')
         = Nat.iter
             (count_completed
                (files (snd (startAnalysis_jobSource env Database parsedJd w)))
              - count_completed (files w))
             JS.plus_one (Job.count_or_0 (Job.applicantsCount job))).
  { destruct (startAnalysis_jobSource_cases env Database parsedJd w)
      as [(F & _ & J & _)|[(F & _ & J & _)|(v & S & _ & E)]].
    - exists job. rewrite J, F, Nat.sub_diag. split; [exact Fj|].
      split; [lia|reflexivity].
    - exists job. rewrite J, F, Nat.sub_diag. split; [exact Fj|].
      split; [lia|reflexivity].
    - rewrite E. simpl.
      destruct (after_loop_fields
                  (loop env v 0 (files w)
                     (set_isAnalyzing true (set_errorMsg None w))))
        as (-> & _ & -> & _).
      apply (loop_refetched_counter env v (selectedJobId w) (files w) 0
               (set_isAnalyzing true (set_errorMsg None w)) job S (drop_0 _) Fj). }
  destruct Main as (job' & F & L & E). exists job'.
  split; [exact F|]. split; [exact L|]. split; [exact E|].
  intros Hl Hu. rewrite E. apply iter_plus_one; assumption.
Qed.

Lemma refetched_counter_counts_completions_witness :
  exists job',
    find_job "j-1"
      (db_jobs (snd (startAnalysis_jobSource Examples.calm Database None
                       Examples.two_ready)))
    = Some job'
    /\ Job.count_or_0 (Job.applicantsCount job') = 2.
Proof.
  destruct (refetched_counter_counts_completions Examples.calm None
              Examples.two_ready Examples.backend eq_refl)
    as (job' & F & _ & _ & C).
  exists job'. split; [exact F|]. rewrite C; vm_compute; congruence.
Defined.

(** X8.  A run of the [jobSource] revision over an uploaded description
    never writes the job store, and every candidate it stores carries the
    placeholder id [temp-uploaded-jd] instead of the id of a stored job. *)
Theorem uploaded_description_leaves_the_job_store (env : Env)
    (parsedJd : option ExtractedJobDetails) (w : World) :
  db_jobs (snd (startAnalysis_jobSource env Upload parsedJd w)) = db_jobs w
  /\ exists ins,
       db_candidates (snd (startAnalysis_jobSource env Upload parsedJd w))
       = (db_candidates w ++ ins)%list
       /\ Forall (fun c => Candidate.associatedJdId c = "temp-uploaded-jd") ins.
Proof.
  destruct (startAnalysis_jobSource_cases env Upload parsedJd w)
    as [(_ & C & J & _)|[(_ & C & J & _)|(v & S & A & E)]].
  - split; [exact J|]. exists []. rewrite app_nil_r. split; [exact C|].
    apply List.Forall_nil.
  - split; [exact J|]. exists []. rewrite app_nil_r. split; [exact C|].
    apply List.Forall_nil.
  - rewrite E. simpl.
    destruct (after_loop_fields
                (loop env v 0 (files w)
                   (set_isAnalyzing true (set_errorMsg None w))))
      as (_ & -> & -> & _).
    split.
    + apply (loop_upload_jobs env v (selectedJobId w) (files w) 0
               (set_isAnalyzing true (set_errorMsg None w)) S).
    + rewrite <- A.
      apply (loop_assoc_id env v (files w) 0
               (set_isAnalyzing true (set_errorMsg None w)) (drop_0 _)).
Qed.

(** X9.  In the [jdSource] revision, when the uploaded description is
    extracted and stored, the new job is appended to the store and becomes
    the selected job, but every candidate the run stores carries the id
    that was selected when the run started, not the id of the new job. *)
Theorem uploaded_job_is_stored_but_not_referenced (env : Env) (jd : File)
    (ex : ExtractedJobDetails) (w : World) :
  JS.str_truthy (selectedJobId w) = true -> files w <> [] ->
  has_key env = true -> reader_error env ReadJd = None ->
  gemini_jd env = inr ex -> db_error env InsertJob = None ->
  job_frame (Job.id (newJob env ex jd)) (db_jobs w ++ [newJob env ex jd])
    (db_jobs (snd (startAnalysis_jdSource env UploadJd (Some jd) w)))
  /\ selectedJobId (snd (startAnalysis_jdSource env UploadJd (Some jd) w))
     = Job.id (newJob env ex jd)
  /\ exists ins,
       db_candidates (snd (startAnalysis_jdSource env UploadJd (Some jd) w))
       = (db_candidates w ++ ins)%list
       /\ Forall (fun c => Candidate.associatedJdId c = selectedJobId w) ins.
Proof.
  intros Hs Hf Hk Hr Hg Hi.
  rewrite (startAnalysis_jdSource_uploads env jd ex w Hs Hf Hk Hr Hg Hi). simpl.
  destruct (after_loop_fields
              (loop env (variant_of_job false (selectedJobId w) (newJob env ex jd))
                 0 (files w) (after_upload env ex jd w)))
    as (_ & -> & -> & -> & _).
  split; [|split].
  - apply (loop_job_frame env
             (variant_of_job false (selectedJobId w) (newJob env ex jd))
             (Job.id (newJob env ex jd)) (files w) 0 (after_upload env ex jd w)).
    reflexivity.
  - destruct (loop_page_state env
                (variant_of_job false (selectedJobId w) (newJob env ex jd))
                (files w) 0 (after_upload env ex jd w)) as (A & _).
    rewrite A. reflexivity.
  - apply (loop_assoc_id env
             (variant_of_job false (selectedJobId w) (newJob env ex jd))
             (files w) 0 (after_upload env ex jd w) (drop_0 _)).
Qed.

Lemma uploaded_job_is_stored_but_not_referenced_witness :
  exists ins,
    db_candidates
      (snd (startAnalysis_jdSource MoreExamples.extracting UploadJd
              (Some MoreExamples.jd) Examples.two_ready))
    = ([] ++ ins)%list
    /\ Forall (fun c => Candidate.associatedJdId c = "j-1") ins.
Proof.
  assert (Hf : files Examples.two_ready <> []) by discriminate.
  destruct (uploaded_job_is_stored_but_not_referenced MoreExamples.extracting
              MoreExamples.jd MoreExamples.parsed Examples.two_ready
              eq_refl Hf eq_refl eq_refl eq_refl eq_refl) as (_ & _ & R).
  exact R.
Defined.

(** X10.  The optimistic update of the [jdSource] revision is not rolled
    back: when the store rejects the extracted job, the run stops with one
    notice, the stores and the queue are untouched, but the page keeps the
    new job in its list and as its selection.  The notice names the failed
    extraction with the message of the rejection; when the store rejects
    with [null] or [undefined], reading that message throws in the inner
    [catch], and the notice is that of the outer [catch] for this
    TypeError. *)
Theorem rejected_job_stays_selected (env : Env) (jd : File)
    (ex : ExtractedJobDetails) (e : JS.Exn) (w : World) :
  JS.str_truthy (selectedJobId w) = true -> files w <> [] ->
  has_key env = true -> reader_error env ReadJd = None ->
  gemini_jd env = inr ex -> db_error env InsertJob = Some e ->
  aborted w (snd (startAnalysis_jdSource env UploadJd (Some jd) w))
  /\ jobs (snd (startAnalysis_jdSource env UploadJd (Some jd) w))
     = newJob env ex jd :: jobs w
  /\ selectedJobId (snd (startAnalysis_jdSource env UploadJd (Some jd) w))
     = Job.id (newJob env ex jd)
  /\ errorMsg (snd (startAnalysis_jdSource env UploadJd (Some jd) w))
     = Some (match JS.get_message e with
             | inr message => "Failed to extract job details: " ++ tpl message
             | inl type_error => "Analysis failed: " ++ type_error
             end)
  /\ isAnalyzing (snd (startAnalysis_jdSource env UploadJd (Some jd) w)) = false
  /\ isExtractingJd (snd (startAnalysis_jdSource env UploadJd (Some jd) w))
     = false.
Proof.
  intros Hs Hf Hk Hr Hg Hi.
  assert (Hl : (length (files w) =? 0)%nat = false).
  { destruct (files w); [congruence|reflexivity]. }
  unfold startAnalysis_jdSource, resolve_jdSource, extractJobDetailsFromPDF,
    fileToBase64.
  open_page. rewrite Hs, Hl. simpl. rewrite Hk. simpl. rewrite Hr. simpl.
  rewrite Hg. simpl. rewrite Hi.
  destruct e as [| |message]; simpl;
    (split; [|repeat split]); repeat split; eexists; split; reflexivity.
Qed.

Lemma rejected_job_stays_selected_witness :
  selectedJobId
    (snd (startAnalysis_jdSource MoreExamples.insert_rejected UploadJd
            (Some MoreExamples.jd) Examples.two_ready))
  = "j-1700000000000"
  /\ errorMsg
       (snd (startAnalysis_jdSource MoreExamples.insert_rejected UploadJd
               (Some MoreExamples.jd) Examples.two_ready))
     = Some "Failed to extract job details: 500".
Proof.
  assert (Hf : files Examples.two_ready <> []) by discriminate.
  destruct (rejected_job_stays_selected MoreExamples.insert_rejected
              MoreExamples.jd MoreExamples.parsed (JS.Error "500")
              Examples.two_ready eq_refl Hf eq_refl eq_refl eq_refl eq_refl)
    as (_ & _ & S & M & _).
  rewrite S, M. vm_compute. split; reflexivity.
Defined.

(** ** The notice after a run *)


Section Notice.

Variable env : Env.
Variable v : Variant.


End Notice.



(** ** Selecting files *)

Lemma string_of_Z_inj (a b : Z) : JS.string_of_Z a = JS.string_of_Z b -> a = b.
Proof.
  unfold JS.string_of_Z. intros H. apply DecimalZ.to_int_inj.
  assert (N : forall z, Z.to_int z <> Decimal.Pos Decimal.Nil
                        /\ Z.to_int z <> Decimal.Neg Decimal.Nil).
  { intros [|p|p]; simpl; split; try discriminate; intros E; injection E as E;
      apply (DecimalPos.Unsigned.to_uint_nonnil p); exact E. }
  pose proof (NilZero.isi (Z.to_int a) (proj1 (N a)) (proj2 (N a))) as A.
  pose proof (NilZero.isi (Z.to_int b) (proj1 (N b)) (proj2 (N b))) as B.
  rewrite H in A. congruence.
Qed.

Lemma append_length (s t : string) :
  String.length (s ++ t) = (String.length s + String.length t)%nat.
Proof. induction s as [|c s IH]; simpl; [reflexivity|]. rewrite IH. reflexivity. Qed.

Lemma size_tenths_zero (size : Z) :
  0 <= size -> (size_tenths size = 0 <-> size < 52429).
Proof.
  intros H. unfold size_tenths. split; intros E.
  - apply Z.div_small_iff in E; lia.
  - apply Z.div_small. lia.
Qed.

Lemma size_label_zero (size : Z) :
  0 <= size -> (size_label size = "0.0 MB" <-> size_tenths size = 0).
Proof.
  intros H. unfold size_label. split.
  - intros E.
    assert (N : 0 <= size_tenths size).
    { unfold size_tenths. apply Z.div_pos; lia. }
    pose proof (Z.mod_pos_bound (size_tenths size) 10 ltac:(lia)) as R.
    pose proof (Z.div_pos (size_tenths size) 10 N ltac:(lia)) as Q.
    pose proof (Z.div_mod (size_tenths size) 10 ltac:(lia)) as DM.
    revert E R Q DM.
    generalize (size_tenths size / 10). generalize (size_tenths size mod 10).
    intros r q E R Q DM.
    assert (L : (String.length (JS.string_of_Z q)
                 + S (String.length (JS.string_of_Z r) + 3) = 6)%nat).
    { apply (f_equal String.length) in E.
      rewrite append_length in E. simpl in E. rewrite append_length in E.
      simpl in E. exact E. }
    assert (Lr : String.length (JS.string_of_Z r) = 1%nat).
    { assert (C : r = 0 \/ r = 1 \/ r = 2 \/ r = 3 \/ r = 4 \/ r = 5 \/ r = 6
                  \/ r = 7 \/ r = 8 \/ r = 9) by lia.
      repeat (destruct C as [->|C]; [reflexivity|]). subst r. reflexivity. }
    rewrite Lr in L.
    destruct (JS.string_of_Z q) as [|c [|c' s]] eqn:Sq; simpl in L; try lia.
    destruct (JS.string_of_Z r) as [|d [|d' s]] eqn:Sr; simpl in Lr; try lia.
    simpl in E. inversion E; subst c d.
    apply (string_of_Z_inj q 0) in Sq. apply (string_of_Z_inj r 0) in Sr. lia.
  - intros ->. reflexivity.
Qed.

Lemma handleFileSelect_files (random_id : nat -> string)
    (selected : option (list File)) (w : World) :
  files (snd (handleFileSelect random_id selected w))
  = (files w
     ++ imap (fun k f => newFile (random_id k) f)
          (match selected with Some l => l | None => [] end))%list.
Proof. reflexivity. Qed.

(** X12.  A selected file is listed as [0.0 MB] exactly when it is smaller
    than 52,429 bytes. *)
Theorem small_files_are_listed_as_zero (id : string) (f : File) :
  UploadFile.size (newFile id f) = "0.0 MB" <-> file_size f < 52429.
Proof.
  assert (P : 0 <= file_size f) by (unfold file_size; lia).
  rewrite <- (size_tenths_zero _ P), <- (size_label_zero _ P). reflexivity.
Qed.

Lemma pending_app (a b : list UploadFile.t) :
  pending (a ++ b) = (pending a + pending b)%nat.
Proof. unfold pending. rewrite List.filter_app, length_app. reflexivity. Qed.

Lemma pending_imap (g : nat -> File -> UploadFile.t) (l : list File) :
  (forall k f, is_completed (g k f) = false) ->
  pending (imap g l) = length l.
Proof.
  revert g. induction l as [|x l IH]; intros g H; [reflexivity|].
  simpl. rewrite pending_cons, H. simpl. f_equal. apply IH.
  intros k f. apply H.
Qed.

(** X13.  A run of the page that reaches the loop issues at most one
    analysis call for each file selected before it, besides those for the
    items that were already waiting; when no rejection carries [null] or
    [undefined] it issues exactly that many, so that every selected file is
    analysed. *)
Theorem every_selected_file_is_analysed (env : Env) (random_id : nat -> string)
    (selected : list File) (w : World) :
  reaches_loop env (snd (handleFileSelect random_id (Some selected) w)) ->
  exists evs,
    trace (snd (startAnalysis env
                  (snd (handleFileSelect random_id (Some selected) w))))
    = (trace (snd (handleFileSelect random_id (Some selected) w)) ++ evs)%list
    /\ (count_analyze evs <= pending (files w) + length selected)%nat
    /\ (no_nullish_rejection env ->
        count_analyze evs = (pending (files w) + length selected)%nat
        /\ forall k f,
             selected !! k = Some f ->
             In (EvAnalyze (length (files w) + k)) evs).
Proof.
  intros R. destruct (startAnalysis_loops env _ R) as (job & _ & E).
  rewrite E. simpl.
  match goal with
  | |- context [after_loop (loop env ?v 0%nat ?fs ?w0)] =>
      destruct (loop_trace env v fs 0 w0) as (evs & T & _ & A & _ & _ & N);
      destruct (after_loop_fields (loop env v 0%nat fs w0))
        as (_ & _ & _ & _ & _ & _ & _ & tl & T' & Tl);
      pose proof (loop_normal env v fs 0 w0) as Nm
  end.
  rewrite T', T, <- app_assoc. simpl trace.
  exists (evs ++ tl)%list. split; [reflexivity|].
  assert (Z : count_analyze tl = 0%nat).
  { destruct Tl as [->|[m ->]]; reflexivity. }
  rewrite count_analyze_app, Z, Nat.add_0_r.
  rewrite pending_app, pending_imap in A by reflexivity.
  split; [exact A|].
  intros H. destruct (N (Nm H)) as (_ & Ca & I).
  rewrite pending_app, pending_imap in Ca by reflexivity.
  split; [exact Ca|].
  intros k f Hk. apply in_or_app. left.
  apply (I (length (files w) + k)%nat (newFile (random_id k) f)); [|reflexivity].
  rewrite lookup_app_r by lia.
  replace (length (files w) + k - length (files w))%nat with k by lia.
  rewrite list_lookup_imap, Hk. reflexivity.
Qed.

Lemma every_selected_file_is_analysed_witness :
  exists evs,
    trace (snd (startAnalysis Examples.calm
                  (snd (handleFileSelect (fun _ => "c") (Some [Examples.cv2])
                          Examples.rerun))))
    = (trace (snd (handleFileSelect (fun _ => "c") (Some [Examples.cv2])
                     Examples.rerun)) ++ evs)%list
    /\ count_analyze evs = 2%nat
    /\ In (EvAnalyze 2) evs.
Proof.
  assert (R : reaches_loop Examples.calm
                (snd (handleFileSelect (fun _ => "c") (Some [Examples.cv2])
                        Examples.rerun))).
  { repeat split; discriminate. }
  assert (Q : no_nullish_rejection Examples.calm).
  { split; intros i e H; vm_compute in H; discriminate. }
  destruct (every_selected_file_is_analysed Examples.calm (fun _ => "c")
              [Examples.cv2] Examples.rerun R) as (evs & T & _ & N).
  destruct (N Q) as [C I].
  exists evs. split; [exact T|]. split; [exact C|].
  apply (I 0%nat Examples.cv2). reflexivity.
Defined.

Lemma filter_keeps_all (id : string) (l : list UploadFile.t) :
  (forall g, In g l -> UploadFile.id g <> id) ->
  List.filter (fun f => negb (String.eqb (UploadFile.id f) id)) l = l.
Proof.
  induction l as [|x l IH]; intros H; simpl; [reflexivity|].
  destruct (String.eqb_spec (UploadFile.id x) id) as [E|N]; simpl.
  - exfalso. apply (H x); [left; reflexivity|exact E].
  - rewrite IH; [reflexivity|]. intros g Hg. apply H. right. exact Hg.
Qed.

(** X14.  Selecting one file and removing it again restores the queue,
    provided the id drawn for it is carried by no item already queued. *)
Theorem removing_a_fresh_upload_restores_the_queue (random_id : nat -> string)
    (f : File) (w : World) :
  (forall g, In g (files w) -> UploadFile.id g <> random_id 0%nat) ->
  files (snd (removeFile (random_id 0%nat)
                (snd (handleFileSelect random_id (Some [f]) w))))
  = files w.
Proof.
  intros H. unfold removeFile, handleFileSelect, setFiles, modify. simpl.
  rewrite List.filter_app. simpl. rewrite String.eqb_refl. simpl.
  rewrite app_nil_r. apply filter_keeps_all. exact H.
Qed.

Lemma removing_a_fresh_upload_restores_the_queue_witness :
  files (snd (removeFile "c"
                (snd (handleFileSelect (fun _ => "c") (Some [Examples.cv2])
                        Examples.two_ready))))
  = files Examples.two_ready.
Proof.
  apply (removing_a_fresh_upload_restores_the_queue (fun _ => "c") Examples.cv2
           Examples.two_ready).
  intros g [<-|[<-|[]]]; discriminate.
Defined.

(** ** Loading the jobs and uploading a description *)

(** X15.  On a page mounted over a store whose first job has a non-empty id,
    with no job selected yet, the first stored job is selected; once files
    are selected, a run finds that job and reaches the loop. *)
Theorem preselected_job_is_found (env : Env) (random_id : nat -> string)
    (selected : list File) (w : World) (first : Job.t) (others : list Job.t) :
  selectedJobId w = "" -> db_jobs w = first :: others ->
  JS.str_truthy (Job.id first) = true -> selected <> [] ->
  db_error env FindJobs = None ->
  selectedJobId (snd (fetchJobs None w)) = Job.id first
  /\ jobs (snd (fetchJobs None w)) = db_jobs w
  /\ reaches_loop env
       (snd (handleFileSelect random_id (Some selected) (snd (fetchJobs None w))))
  /\ find_job
       (selectedJobId
          (snd (handleFileSelect random_id (Some selected)
                  (snd (fetchJobs None w)))))
       (db_jobs w)
     = Some first.
Proof.
  intros Hs Hj Ht Hn Hd.
  unfold fetchJobs, db_jobs_find_at_mount, bind, modify, ret. simpl.
  rewrite Hs, Hj. simpl.
  assert (F : find_job (Job.id first) (first :: others) = Some first).
  { unfold find_job. simpl. rewrite String.eqb_refl. reflexivity. }
  split; [reflexivity|]. split; [reflexivity|]. split; [|exact F].
  unfold reaches_loop. simpl. rewrite ?Hj, F.
  split; [exact Ht|]. split; [|split; [exact Hd|discriminate]].
  destruct selected; [congruence|]. destruct (files w); discriminate.
Qed.

Lemma preselected_job_is_found_witness :
  selectedJobId (snd (fetchJobs None (set_selectedJobId "" (Examples.page []))))
  = "j-1".
Proof.
  assert (N : [Examples.cv1] <> []) by discriminate.
  destruct (preselected_job_is_found Examples.calm (fun _ => "c") [Examples.cv1]
              (set_selectedJobId "" (Examples.page [])) Examples.backend []
              eq_refl eq_refl eq_refl N eq_refl) as (S & _).
  exact S.
Defined.

(** X16.  [handleJdUpload] always ends with the parsing flag down.  The
    description is kept exactly when the key is present, the file can be
    read and the provider answers: then the upload is kept too and no
    notice is shown.  Otherwise no description is left; the upload is
    cleared and a notice is shown, unless the provider rejected with [null]
    or [undefined], in which case the [catch] block throws before either;
    and in both cases a run started from that state stops at validation
    without touching the queue or the stores. *)
Theorem failed_description_upload_blocks_the_batch (env : Env) (f : File)
    (s : JdUpload) (w : World) :
  isParsingJd (fst (handleJdUpload env (Some f) s w)) = false
  /\ (forall ex,
        parsedJd (fst (handleJdUpload env (Some f) s w)) = Some ex
        <-> has_key env = true /\ reader_error env ReadJd = None
            /\ gemini_jd env = inr ex)
  /\ (forall ex,
        parsedJd (fst (handleJdUpload env (Some f) s w)) = Some ex ->
        uploadedJdFile (fst (handleJdUpload env (Some f) s w)) = Some f
        /\ errorMsg (snd (handleJdUpload env (Some f) s w)) = None)
  /\ (parsedJd (fst (handleJdUpload env (Some f) s w)) = None ->
      ((uploadedJdFile (fst (handleJdUpload env (Some f) s w)) = None
        /\ exists message,
             errorMsg (snd (handleJdUpload env (Some f) s w))
             = Some (parse_failed_msg message))
       \/ (uploadedJdFile (fst (handleJdUpload env (Some f) s w)) = Some f
           /\ errorMsg (snd (handleJdUpload env (Some f) s w)) = None
           /\ exists e, gemini_jd env = inl e /\ JS.nullish_exn e = true))
      /\ aborted (snd (handleJdUpload env (Some f) s w))
           (snd (startAnalysis_jobSource env Upload
                   (parsedJd (fst (handleJdUpload env (Some f) s w)))
                   (snd (handleJdUpload env (Some f) s w))))).
Proof.
  unfold handleJdUpload, extractJobDetailsFromPDF, fileToBase64, setErrorMsg,
    modify, bind, ret, throw. simpl.
  assert (A : forall w0 : World,
              aborted w0 (snd (startAnalysis_jobSource env Upload None w0))).
  { intros w0. unfold startAnalysis_jobSource. open_page.
    repeat split. eexists. split; reflexivity. }
  destruct (has_key env); simpl.
  - destruct (reader_error env ReadJd); simpl.
    + split; [reflexivity|]. split; [|split].
      * intros ex. split; [discriminate|]. intros (_ & H & _). discriminate.
      * intros ex H. discriminate.
      * intros _. split; [|apply A]. left. split; [reflexivity|].
        eexists. reflexivity.
    + destruct (gemini_jd env) as [e|ex] eqn:G; simpl.
      * destruct e as [| |message]; simpl;
          (split; [reflexivity|]; split; [|split];
           [intros ex; split; [discriminate|]; intros (_ & _ & H); discriminate
           |intros ex H; discriminate
           |intros _; split; [|apply A]]).
        -- right. split; [reflexivity|]. split; [reflexivity|].
           eexists. split; reflexivity.
        -- right. split; [reflexivity|]. split; [reflexivity|].
           eexists. split; reflexivity.
        -- left. split; [reflexivity|]. eexists. reflexivity.
      * split; [reflexivity|]. split; [|split].
        -- intros ex'. split.
           ++ intros H. injection H as <-. repeat split.
           ++ intros (_ & _ & H). injection H as <-. reflexivity.
        -- intros ex' _. split; reflexivity.
        -- discriminate.
  - split; [reflexivity|]. split; [|split].
    + intros ex. split; [discriminate|]. intros (H & _). discriminate.
    + intros ex H. discriminate.
    + intros _. split; [|apply A]. left. split; [reflexivity|].
      eexists. reflexivity.
Qed.

Lemma failed_description_upload_blocks_the_batch_witness :
  parsedJd (fst (handleJdUpload MoreExamples.extracting (Some MoreExamples.jd)
                   {| uploadedJdFile := None; parsedJd := None;
                      isParsingJd := false |}
                   (Examples.page [Examples.item_a])))
  = Some MoreExamples.parsed
  /\ uploadedJdFile
       (fst (handleJdUpload Examples.calm (Some MoreExamples.jd)
               {| uploadedJdFile := None; parsedJd := Some MoreExamples.parsed;
                  isParsingJd := false |}
               (Examples.page [Examples.item_a])))
     = None
  /\ errorMsg
       (snd (handleJdUpload Examples.calm (Some MoreExamples.jd)
               {| uploadedJdFile := None; parsedJd := Some MoreExamples.parsed;
                  isParsingJd := false |}
               (Examples.page [Examples.item_a])))
     = Some "Failed to parse Job Description: 429 quota exceeded. Please try a clearer PDF."
  /\ files
       (snd (startAnalysis_jobSource Examples.calm Upload None
               (snd (handleJdUpload Examples.calm (Some MoreExamples.jd)
                       {| uploadedJdFile := None;
                          parsedJd := Some MoreExamples.parsed;
                          isParsingJd := false |}
                       (Examples.page [Examples.item_a])))))
     = [Examples.item_a].
Proof.
  split.
  - apply (failed_description_upload_blocks_the_batch MoreExamples.extracting
             MoreExamples.jd _ (Examples.page [Examples.item_a])).
    repeat split.
  - destruct (failed_description_upload_blocks_the_batch Examples.calm
                MoreExamples.jd
                {| uploadedJdFile := None; parsedJd := Some MoreExamples.parsed;
                   isParsingJd := false |}
                (Examples.page [Examples.item_a]))
      as (_ & _ & _ & H).
    destruct (H eq_refl) as ([[U (message & M)]|[U _]] & Ab & _).
    + split; [exact U|]. split; [reflexivity|]. exact Ab.
    + vm_compute in U. discriminate.
Defined.

(** ** The API key *)

(** X17.  [getApiKey] never returns an empty key, so the test [!API_KEY] of
    the services fails exactly when a key was found; and it finds none
    only when each of the five variables it looks at is unset, empty or
    out of reach. *)
Theorem the_key_is_never_empty (h : Host) :
  (forall k, getApiKey h = Some k -> JS.str_truthy k = true)
  /\ (forall env, has_key (on_host h env) = true <-> getApiKey h <> None)
  /\ (getApiKey h = None ->
      var_truthy (meta_var h "VITE_GEMINI_API_KEY") = false
      /\ var_truthy (meta_var h "GEMINI_API_KEY") = false
      /\ forall vars,
           process h = ProcessEnv vars ->
           var_truthy (vars "VITE_GEMINI_API_KEY") = false
           /\ var_truthy (vars "GEMINI_API_KEY") = false
           /\ var_truthy (vars "API_KEY") = false).
Proof.
  assert (T : forall k, getApiKey h = Some k -> JS.str_truthy k = true).
  { unfold getApiKey. intros k.
    destruct (var_truthy (meta_var h "VITE_GEMINI_API_KEY")) eqn:A;
      [intros E; rewrite E in A; exact A|].
    destruct (var_truthy (meta_var h "GEMINI_API_KEY")) eqn:B;
      [intros E; rewrite E in B; exact B|].
    destruct (process h) as [| |vars]; try discriminate.
    destruct (var_truthy (vars "VITE_GEMINI_API_KEY")) eqn:C;
      [intros E; rewrite E in C; exact C|].
    destruct (var_truthy (vars "GEMINI_API_KEY")) eqn:D;
      [intros E; rewrite E in D; exact D|].
    destruct (var_truthy (vars "API_KEY")) eqn:F;
      [intros E; rewrite E in F; exact F|discriminate]. }
  split; [exact T|]. split.
  { intros env. unfold has_key, on_host. simpl.
    destruct (getApiKey h) as [k|] eqn:E.
    - rewrite (T k eq_refl). split; [discriminate|reflexivity].
    - split; [discriminate|congruence]. }
  clear T. unfold getApiKey.
  destruct (var_truthy (meta_var h "VITE_GEMINI_API_KEY")) eqn:A.
  { intros E. rewrite E in A. discriminate. }
  destruct (var_truthy (meta_var h "GEMINI_API_KEY")) eqn:B.
  { intros E. rewrite E in B. discriminate. }
  destruct (process h) as [| |vars];
    try (intros _; split; [reflexivity|]; split; [reflexivity|];
         intros vars' E; discriminate).
  destruct (var_truthy (vars "VITE_GEMINI_API_KEY")) eqn:C.
  { intros E. rewrite E in C. discriminate. }
  destruct (var_truthy (vars "GEMINI_API_KEY")) eqn:D.
  { intros E. rewrite E in D. discriminate. }
  destruct (var_truthy (vars "API_KEY")) eqn:F.
  { intros E. rewrite E in F. discriminate. }
  intros _. split; [reflexivity|]. split; [reflexivity|].
  intros vars' E. injection E as <-. repeat split; assumption.
Qed.

(** X18.  Whenever the chat page finds a key, the services use the same key;
    when the chat page finds none although the services have one, that key
    comes from [process.env], which the chat page never reads. *)
Theorem the_chat_key_is_the_service_key (h : Host) :
  (forall k, chat_API_KEY h = Some k -> getApiKey h = Some k)
  /\ (forall k, chat_API_KEY h = None -> getApiKey h = Some k ->
                exists vars, process h = ProcessEnv vars
                             /\ (vars "VITE_GEMINI_API_KEY" = Some k
                                 \/ vars "GEMINI_API_KEY" = Some k
                                 \/ vars "API_KEY" = Some k)).
Proof.
  unfold chat_API_KEY, getApiKey.
  destruct (var_truthy (meta_var h "VITE_GEMINI_API_KEY")) eqn:A.
  { split; [intros k E; exact E|]. intros k E. rewrite E in A. discriminate. }
  destruct (var_truthy (meta_var h "GEMINI_API_KEY")) eqn:B.
  { split; [intros k E; exact E|]. intros k E. rewrite E in B. discriminate. }
  split; [discriminate|]. intros k _.
  destruct (process h) as [| |vars]; try discriminate.
  intros E. exists vars. split; [reflexivity|].
  destruct (var_truthy (vars "VITE_GEMINI_API_KEY")); [left; exact E|].
  destruct (var_truthy (vars "GEMINI_API_KEY")); [right; left; exact E|].
  destruct (var_truthy (vars "API_KEY")); [right; right; exact E|discriminate].
Qed.

(** ** Cleaning the answer of the provider *)

Lemma starts_with_app (p s : ustring) :
  starts_with p s = true -> exists b, s = (p ++ b)%list.
Proof.
  revert s. induction p as [|a p IH]; intros s H; [exists s; reflexivity|].
  destruct s as [|b s]; simpl in H; [discriminate|].
  apply andb_prop in H. destruct H as [E H]. apply N.eqb_eq in E. subst b.
  destruct (IH s H) as [r ->]. exists r. reflexivity.
Qed.

Lemma starts_with_prefix (p b : ustring) : starts_with p (p ++ b)%list = true.
Proof.
  induction p as [|a p IH]; simpl; [reflexivity|].
  rewrite N.eqb_refl. exact IH.
Qed.

Lemma no_fence_nil : no_fence [].
Proof. intros [|x a] b H; discriminate. Qed.

Lemma no_fence_cons (x : N) (s : ustring) :
  starts_with fence (x :: s) = false -> no_fence s -> no_fence (x :: s).
Proof.
  intros H N [|y a] b E.
  - change (x :: s = fence ++ b)%list in E. rewrite E in H.
    rewrite (starts_with_prefix fence b) in H. discriminate.
  - injection E as _ E. exact (N a b E).
Qed.

Lemma no_fence_tail (x : N) (s : ustring) : no_fence (x :: s) -> no_fence s.
Proof. intros N a b E. apply (N (x :: a) b). rewrite E. reflexivity. Qed.

Lemma no_fence_head (s : ustring) : no_fence s -> starts_with fence s = false.
Proof.
  intros N. destruct (starts_with fence s) eqn:E; [|reflexivity].
  destruct (starts_with_app _ _ E) as [b ->]. exfalso. exact (N [] b eq_refl).
Qed.

Lemma no_fence_suffix (a s : ustring) : no_fence (a ++ s)%list -> no_fence s.
Proof.
  induction a as [|x a IH]; intros N; [exact N|].
  apply IH. exact (no_fence_tail x _ N).
Qed.

Lemma no_fence_prefix (s b : ustring) : no_fence (s ++ b)%list -> no_fence s.
Proof.
  intros N a c E. apply (N a (c ++ b)%list). rewrite E.
  rewrite <- !app_assoc. reflexivity.
Qed.

(** What the removal of the fences does at the head of the text. *)
Lemma remove_fence_steps (x y z : N) (t : ustring) :
  (x <> 96%N -> remove_all fence (x :: t) = x :: remove_all fence t)
  /\ (y <> 96%N ->
      remove_all fence (96%N :: y :: t) = 96%N :: y :: remove_all fence t)
  /\ (z <> 96%N ->
      remove_all fence (96%N :: 96%N :: z :: t)
      = 96%N :: 96%N :: z :: remove_all fence t)
  /\ remove_all fence (96%N :: 96%N :: 96%N :: t) = remove_all fence t.
Proof.
  unfold remove_all, fence. repeat split.
  - intros H. apply N.eqb_neq in H. rewrite N.eqb_sym in H.
    cbn [remove_from starts_with]. rewrite H. reflexivity.
  - intros H. apply N.eqb_neq in H. rewrite N.eqb_sym in H.
    cbn [remove_from starts_with]. rewrite H, N.eqb_refl. cbn [andb].
    destruct t; reflexivity.
  - intros H. apply N.eqb_neq in H. rewrite N.eqb_sym in H.
    cbn [remove_from starts_with]. rewrite H, N.eqb_refl. cbn [andb].
    reflexivity.
Qed.

Lemma remove_fence_no_fence (s : ustring) : no_fence (remove_all fence s).
Proof.
  assert (G : forall n s, (length s <= n)%nat -> no_fence (remove_all fence s)).
  { clear s. induction n as [|n IH]; intros s L.
    - destruct s; [apply no_fence_nil|simpl in L; lia].
    - destruct s as [|x s]; [apply no_fence_nil|]. simpl in L.
      destruct (N.eq_dec x 96%N) as [->|Hx].
      2:{ destruct (remove_fence_steps x 0%N 0%N s) as (E & _). rewrite (E Hx).
          apply no_fence_cons; [|apply IH; lia].
          unfold fence. cbn [starts_with].
          apply N.eqb_neq in Hx. rewrite N.eqb_sym in Hx. rewrite Hx.
          reflexivity. }
      destruct s as [|y s].
      { apply no_fence_cons; [reflexivity|apply no_fence_nil]. }
      simpl in L. destruct (N.eq_dec y 96%N) as [->|Hy].
      2:{ destruct (remove_fence_steps 0%N y 0%N s) as (_ & E & _). rewrite (E Hy).
          apply N.eqb_neq in Hy. rewrite N.eqb_sym in Hy.
          apply no_fence_cons; [unfold fence; cbn [starts_with]; rewrite ?N.eqb_refl, Hy; reflexivity|].
          apply no_fence_cons; [unfold fence; cbn [starts_with]; rewrite ?N.eqb_refl, Hy; reflexivity|].
          apply IH. lia. }
      destruct s as [|z s].
      { apply no_fence_cons; [reflexivity|].
        apply no_fence_cons; [reflexivity|apply no_fence_nil]. }
      simpl in L. destruct (N.eq_dec z 96%N) as [->|Hz].
      2:{ destruct (remove_fence_steps 0%N 0%N z s) as (_ & _ & E & _).
          rewrite (E Hz).
          apply N.eqb_neq in Hz. rewrite N.eqb_sym in Hz.
          apply no_fence_cons; [unfold fence; cbn [starts_with]; rewrite ?N.eqb_refl, Hz; reflexivity|].
          apply no_fence_cons; [unfold fence; cbn [starts_with]; rewrite ?N.eqb_refl, Hz; reflexivity|].
          apply no_fence_cons; [unfold fence; cbn [starts_with]; rewrite ?N.eqb_refl, Hz; reflexivity|].
          apply IH. lia. }
      destruct (remove_fence_steps 0%N 0%N 0%N s) as (_ & _ & _ & E). rewrite E.
      apply IH. lia. }
  apply (G (length s) s). lia.
Qed.

Lemma trim_start_suffix (s : ustring) : exists a, s = (a ++ trim_start s)%list.
Proof.
  induction s as [|x s [a IH]]; [exists []; reflexivity|]. simpl.
  destruct (is_space x); [|exists []; reflexivity].
  exists (x :: a). simpl. rewrite <- IH. reflexivity.
Qed.

Lemma trim_end_prefix (s : ustring) : exists b, s = (trim_end s ++ b)%list.
Proof.
  induction s as [|x s [b IH]]; [exists []; reflexivity|]. simpl.
  destruct (trim_end s) as [|y r].
  - destruct (is_space x); [exists (x :: s); reflexivity|].
    exists b. simpl. rewrite IH. reflexivity.
  - exists b. simpl. rewrite IH. reflexivity.
Qed.

Lemma trim_no_fence (s : ustring) : no_fence s -> no_fence (trim s).
Proof.
  intros N. unfold trim.
  destruct (trim_start_suffix s) as [a Ea].
  destruct (trim_end_prefix (trim_start s)) as [b Eb].
  rewrite Ea in N. apply no_fence_suffix in N. rewrite Eb in N.
  apply no_fence_prefix in N. exact N.
Qed.

Lemma remove_absent (p s : ustring) :
  (forall a b, s <> (a ++ p ++ b)%list) -> remove_all p s = s.
Proof.
  unfold remove_all. induction s as [|x s IH]; intros N; [reflexivity|].
  cbn [remove_from].
  destruct (starts_with p (x :: s)) eqn:E.
  - destruct (starts_with_app _ _ E) as [b Hb]. exfalso.
    exact (N [] b Hb).
  - f_equal. apply IH. intros a b H. apply (N (x :: a) b). rewrite H.
    reflexivity.
Qed.

Lemma has_fence_spec (s : ustring) : has_fence s = false <-> no_fence s.
Proof.
  induction s as [|x s IH]; simpl; [split; [intros _; apply no_fence_nil|reflexivity]|].
  rewrite orb_false_iff, IH. split.
  - intros [H N]. apply no_fence_cons; assumption.
  - intros N. split; [exact (no_fence_head _ N)|exact (no_fence_tail _ _ N)].
Qed.

(** X19.  Whatever the provider answers, the text handed to [JSON.parse]
    holds no code fence: no three backticks in a row. *)
Theorem cleaned_answer_has_no_fence (text : ustring) :
  has_fence (cleanJson text) = false.
Proof.
  apply has_fence_spec, trim_no_fence, remove_fence_no_fence.
Qed.

(** X20.  An answer without a code fence is only trimmed. *)
Theorem fence_free_answer_is_only_trimmed (text : ustring) :
  has_fence text = false -> cleanJson text = trim text.
Proof.
  intros H. apply has_fence_spec in H. unfold cleanJson.
  rewrite (remove_absent fence_json text).
  - rewrite (remove_absent fence text H). reflexivity.
  - intros a b E. apply (H a ([106; 115; 111; 110]%N ++ b)%list).
    rewrite E. reflexivity.
Qed.

Lemma fence_free_answer_is_only_trimmed_witness :
  cleanJson [32; 123; 125; 10]%N = [123; 125]%N.
Proof.
  rewrite (fence_free_answer_is_only_trimmed [32; 123; 125; 10]%N eq_refl).
  reflexivity.
Defined.

(** ** The history sent to the provider *)

Module ChatFacts.
Import Chat.

Lemma HistRole_eqb_eq (a b : HistRole) : HistRole_eqb a b = true <-> a = b.
Proof. destruct a, b; simpl; split; intros H; try reflexivity; discriminate. Qed.

Lemma lastAdded_cons (a : Turn) (h : list Turn) :
  exists l, lastAdded (a :: h) = Some l.
Proof.
  revert a. induction h as [|b h IH]; intros a; [exists a; reflexivity|].
  destruct (IH b) as [l E]. exists l. exact E.
Qed.

Lemma alternates_snoc (r : HistRole) (h : list Turn) (t l : Turn) :
  alternates_from r h -> lastAdded h = Some l ->
  turn_role l <> turn_role t ->
  alternates_from r (h ++ [t]).
Proof.
  revert r. induction h as [|a h IH]; intros r A L N; [discriminate|].
  destruct A as [Ha A]. simpl. split; [exact Ha|].
  destruct h as [|b h].
  - simpl in *. injection L as <-. split; [|exact I].
    subst r. destruct (turn_role a), (turn_role t); simpl; congruence.
  - apply IH; [exact A|exact L|exact N].
Qed.

Lemma push_messages_head (a : Turn) (h : list Turn) (msgs : list Message) :
  exists h', push_messages (a :: h) msgs = a :: h'.
Proof.
  revert h. induction msgs as [|msg msgs IH]; intros h; [exists h; reflexivity|].
  cbn [push_messages]. destruct (lastAdded_cons a h) as [l ->].
  destruct (HistRole_eqb (turn_role l) (turn_role (turn_of msg)));
    [apply IH|apply (IH (h ++ [turn_of msg])%list)].
Qed.

Lemma push_messages_alternates (r : HistRole) (a : Turn) (h : list Turn)
    (msgs : list Message) :
  alternates_from r (a :: h) ->
  alternates_from r (push_messages (a :: h) msgs).
Proof.
  revert h. induction msgs as [|msg msgs IH]; intros h A; [exact A|].
  cbn [push_messages]. destruct (lastAdded_cons a h) as [l L]. rewrite L.
  destruct (HistRole_eqb (turn_role l) (turn_role (turn_of msg))) eqn:E.
  - apply IH. exact A.
  - apply (IH (h ++ [turn_of msg])%list).
    apply (alternates_snoc r (a :: h) (turn_of msg) l A L).
    intros H. apply HistRole_eqb_eq in H. congruence.
Qed.

(** The history before the adjustment: empty, or alternating from its
    first turn, which is the injected one when a document is injected. *)
Lemma history_before_adjustment (injected : list Turn) (msgs : list Message) :
  injected = [] \/ alternates_from user injected ->
  push_messages injected msgs = []
  \/ exists first rest,
       push_messages injected msgs = first :: rest
       /\ alternates_from (turn_role first) (first :: rest)
       /\ (injected <> [] -> turn_role first = user).
Proof.
  intros [->|A].
  - destruct msgs as [|msg msgs]; [left; reflexivity|]. right.
    cbn [push_messages].
    destruct (push_messages_head (turn_of msg) [] msgs) as [h' E].
    exists (turn_of msg), h'. split; [exact E|]. split; [|congruence].
    rewrite <- E. apply push_messages_alternates. simpl. split; [reflexivity|exact I].
  - destruct injected as [|a h]; [destruct msgs; [left; reflexivity|]|].
    + right. cbn [push_messages].
      destruct (push_messages_head (turn_of m) [] msgs) as [h' E].
      exists (turn_of m), h'. split; [exact E|]. split; [|congruence].
      rewrite <- E. apply push_messages_alternates. simpl.
      split; [reflexivity|exact I].
    + right. destruct (push_messages_head a h msgs) as [h' E].
      exists a, h'. split; [exact E|].
      assert (Ha : turn_role a = user) by apply A.
      split; [|intros _; exact Ha].
      rewrite <- E, Ha. apply push_messages_alternates. exact A.
Qed.

End ChatFacts.

(** X21.  The history handed to the provider is empty or starts with a user
    turn and alternates between user and model turns; and building it
    never fails when the context of a profile carries its data, as every
    context set by [loadContextData] does. *)
Theorem history_alternates_from_the_user (c : Chat.ChatContext)
    (messages : list Chat.Message) :
  (forall h, Chat.conversationHistory c messages = inr h ->
             Chat.alternates_from Chat.user h)
  /\ ((Chat.is_profile (Chat.type c) = true -> Chat.data c <> None) ->
      exists h, Chat.conversationHistory c messages = inr h).
Proof.
  unfold Chat.conversationHistory.
  set (injected := match Chat.injected_resume c with
                   | Some b64 => Chat.resume_turns b64
                   | None => []
                   end).
  assert (Hi : injected = [] \/ Chat.alternates_from Chat.user injected).
  { unfold injected. destruct (Chat.injected_resume c); [right|left; reflexivity].
    simpl. repeat split. }
  destruct (ChatFacts.history_before_adjustment injected (List.tl messages) Hi)
    as [->|(first & rest & -> & A & U)].
  { split; [intros h E; injection E as <-; exact I|].
    intros _. exists []. reflexivity. }
  destruct (Chat.HistRole_eqb (Chat.turn_role first) Chat.user) eqn:F.
  { apply ChatFacts.HistRole_eqb_eq in F. rewrite F in A.
    split; [intros h E; injection E as <-; exact A|].
    intros _. eexists. reflexivity. }
  assert (R : Chat.alternates_from Chat.user rest).
  { destruct A as [_ A]. destruct (Chat.turn_role first); [discriminate|exact A]. }
  assert (Hn : injected = []).
  { destruct injected; [reflexivity|]. rewrite U in F by discriminate.
    discriminate. }
  destruct (Chat.is_profile (Chat.type c)) eqn:P.
  2:{ split; [intros h E; injection E as <-; exact R|].
      intros _. eexists. reflexivity. }
  destruct (Chat.data c) as [d|] eqn:D.
  2:{ split; [discriminate|]. intros W. exfalso. apply W; reflexivity. }
  assert (Hr : match Chat.resumeBase64_of d with
               | Some (String _ _) => False
               | _ => True
               end).
  { unfold injected, Chat.injected_resume in Hn. rewrite P, D in Hn.
    destruct (Chat.resumeBase64_of d) as [[|ch s]|]; simpl in *;
      [exact I|discriminate|exact I]. }
  destruct (Chat.resumeBase64_of d) as [[|ch s]|]; try contradiction;
    (split; [intros h E; injection E as <-; exact R|]);
    intros _; eexists; reflexivity.
Qed.

Lemma history_alternates_from_the_user_witness :
  exists h,
    Chat.conversationHistory
      {| Chat.type := Some Chat.CtxResume; Chat.data := Some (inl Examples.backend) |}
      [ {| Chat.id := "1"; Chat.role := Chat.Assistant; Chat.content := "Hello";
           Chat.timestamp := 0 |};
        {| Chat.id := "2"; Chat.role := Chat.Assistant;
           Chat.content := "Now reviewing"; Chat.timestamp := 1 |};
        {| Chat.id := "3"; Chat.role := Chat.User; Chat.content := "Strengths?";
           Chat.timestamp := 2 |} ]
    = inr h.
Proof.
  apply history_alternates_from_the_user. intros _. discriminate.
Defined.

(** ** The busy flags *)

Ltac flags_done env :=
  simpl;
  try match goal with
      | |- context [loop env ?v 0%nat ?fs ?w0] =>
          let P := fresh "P" in
          pose proof (loop_page_state env v fs 0 w0) as P;
          destruct (loop env v 0%nat fs w0) as [[[]|[| |message]|] w2];
          simpl in P; destruct P as (_ & _ & _ & P); simpl
      end;
  try match goal with
      | |- context [JS.get_message ?e] => destruct e as [| |?]; simpl
      end;
  split; solve [reflexivity | assumption | congruence].

(** X22.  The busy flags never stick.  Whatever fails during a run of any
    revision that was started on an idle page, the page is idle again when
    the run is over: neither [isAnalyzing] nor [isExtractingJd] is left
    up. *)
Theorem busy_flags_never_stick (env : Env) (w : World)
    (jobSource : JobSource) (parsedJd : option ExtractedJobDetails)
    (jdSource : JdSource) (jdFile : option File) (w' : World) :
  w' = snd (startAnalysis env w)
  \/ w' = snd (startAnalysis_jobSource env jobSource parsedJd w)
  \/ w' = snd (startAnalysis_jdSource env jdSource jdFile w) ->
  isAnalyzing w = false -> isExtractingJd w = false ->
  isAnalyzing w' = false /\ isExtractingJd w' = false.
Proof.
  intros H A X. destruct H as [->|[->| ->]].
  - unfold startAnalysis. open_page.
    destruct (negb (JS.str_truthy (selectedJobId w)) || (length (files w) =? 0)%nat);
      [flags_done env|].
    simpl. destruct (db_error env FindJobs); [flags_done env|].
    simpl. destruct (find_job (selectedJobId w) (db_jobs w)); flags_done env.
  - unfold startAnalysis_jobSource, resolve_jobSource. open_page.
    destruct jobSource; simpl.
    + destruct (negb (JS.str_truthy (selectedJobId w))); [flags_done env|].
      simpl. destruct (length (files w) =? 0)%nat; [flags_done env|].
      simpl. destruct (db_error env FindJobs); [flags_done env|].
      simpl. destruct (find_job (selectedJobId w) (db_jobs w)); flags_done env.
    + destruct parsedJd; [|flags_done env].
      simpl. destruct (length (files w) =? 0)%nat; flags_done env.
  - assert (Find :
      forall c : M (option Job.t),
        c = (allJobs <- db_jobs_find env FindJobs ;;
             ret (find_job (selectedJobId w) allJobs)) ->
        resolve_jdSource env jdSource jdFile (selectedJobId w) = c ->
        isAnalyzing (snd (startAnalysis_jdSource env jdSource jdFile w)) = false
        /\ isExtractingJd (snd (startAnalysis_jdSource env jdSource jdFile w))
           = false).
    { intros c -> E. unfold startAnalysis_jdSource. rewrite E. open_page.
      destruct (negb (JS.str_truthy (selectedJobId w))
                || (length (files w) =? 0)%nat); [flags_done env|].
      simpl. destruct (db_error env FindJobs); [flags_done env|].
      simpl. destruct (find_job (selectedJobId w) (db_jobs w)); flags_done env. }
    destruct jdSource; [apply (Find _ eq_refl); reflexivity|].
    destruct jdFile as [jd|]; [clear Find|apply (Find _ eq_refl); reflexivity].
    unfold startAnalysis_jdSource, resolve_jdSource, extractJobDetailsFromPDF,
      fileToBase64.
    open_page.
    destruct (negb (JS.str_truthy (selectedJobId w))
              || (length (files w) =? 0)%nat); [flags_done env|].
    simpl. destruct (has_key env); [|flags_done env].
    simpl. destruct (reader_error env ReadJd); [flags_done env|].
    simpl. destruct (gemini_jd env); [flags_done env|].
    simpl. destruct (db_error env InsertJob); flags_done env.
Qed.

Lemma busy_flags_never_stick_witness :
  isAnalyzing
    (snd (startAnalysis_jdSource MoreExamples.insert_rejected UploadJd
            (Some MoreExamples.jd) Examples.two_ready)) = false
  /\ isExtractingJd
       (snd (startAnalysis_jdSource MoreExamples.insert_rejected UploadJd
               (Some MoreExamples.jd) Examples.two_ready)) = false.
Proof.
  apply (busy_flags_never_stick MoreExamples.insert_rejected Examples.two_ready
           Database None UploadJd (Some MoreExamples.jd));
    [right; right; reflexivity|reflexivity|reflexivity].
Defined.

(** ** The ids and payloads of the stored candidates *)

Lemma base64_length (l : list byte) :
  String.length (base64 l) = (4 * ((length l + 2) / 3))%nat.
Proof.
  assert (G : forall n l, (length l <= n)%nat ->
                          String.length (base64 l) = (4 * ((length l + 2) / 3))%nat).
  { clear l. induction n as [|n IH]; intros l L.
    - destruct l; [reflexivity|simpl in L; lia].
    - destruct l as [|a [|b [|c rest]]]; try reflexivity.
      cbn [base64 String.length length]. rewrite IH by (simpl in L; lia).
      replace (S (S (S (length rest))) + 2)%nat
        with (length rest + 2 + 1 * 3)%nat by lia.
      rewrite Nat.div_add by lia. lia. }
  apply (G (length l) l). lia.
Qed.

Lemma payload_bound (f : File) :
  JS.all_chars no_comma (file_type f) = true ->
  Z.of_nat (String.length
              (if file_size f <? MiB
               then base64_of_dataURL (readAsDataURL f) else ""))
  <= 1398100.
Proof.
  intros H. destruct (file_size f <? MiB) eqn:S; [|simpl; lia].
  rewrite (payload_of_dataURL f H), base64_length.
  apply Z.ltb_lt in S. unfold file_size, MiB in S.
  rewrite Nat2Z.inj_mul, Nat2Z.inj_div, Nat2Z.inj_add. simpl Z.of_nat.
  assert (D : (Z.of_nat (length (content f)) + 2) / 3 < 349526).
  { apply Z.div_lt_upper_bound; lia. }
  lia.
Qed.

Lemma uint_no_dash (d : Decimal.uint) :
  JS.all_chars no_dash (NilEmpty.string_of_uint d) = true.
Proof. induction d; simpl; try reflexivity; exact IHd. Qed.

Lemma string_of_nat_no_dash (n : nat) :
  JS.all_chars no_dash (JS.string_of_nat n) = true.
Proof.
  unfold JS.string_of_nat, JS.string_of_Z.
  destruct (Z.of_nat n) as [|p|p] eqn:E; [reflexivity| |lia].
  simpl. unfold NilZero.string_of_uint.
  destruct (Pos.to_uint p); try reflexivity; apply uint_no_dash.
Qed.

Lemma string_of_nat_inj (i j : nat) :
  JS.string_of_nat i = JS.string_of_nat j -> i = j.
Proof.
  unfold JS.string_of_nat. intros H. apply string_of_Z_inj in H. lia.
Qed.

(** The text after the last dash. *)
Lemma after_last_dash (a a' i j : string) :
  JS.all_chars no_dash i = true -> JS.all_chars no_dash j = true ->
  a ++ "-" ++ i = a' ++ "-" ++ j -> i = j.
Proof.
  intros Hi Hj. revert a'.
  induction a as [|c a IH]; intros [|c' a'] E; simpl in E.
  - injection E as E. exact E.
  - injection E as <- E. rewrite E, all_chars_app in Hi. simpl in Hi.
    rewrite andb_false_r in Hi. discriminate.
  - injection E as -> E. rewrite <- E, all_chars_app in Hj. simpl in Hj.
    rewrite andb_false_r in Hj. discriminate.
  - injection E as _ E. exact (IH a' E).
Qed.

Lemma candidate_id_inj (env : Env) (i j : nat) :
  candidate_id env i = candidate_id env j -> i = j.
Proof.
  unfold candidate_id. intros E.
  apply string_of_nat_inj.
  apply (after_last_dash ("c-" ++ JS.string_of_Z (now env i))
           ("c-" ++ JS.string_of_Z (now env j)));
    [apply string_of_nat_no_dash..|].
  exact E.
Qed.

Section Records.

Variable env : Env.
Variable v : Variant.

Lemma iteration_ids (i : nat) (cur : UploadFile.t) (w : World) :
  exists ins,
    db_candidates (snd (iteration env v i cur w)) = (db_candidates w ++ ins)%list
    /\ (ins = [] \/ exists c, ins = [c] /\ Candidate.id c = candidate_id env i).
Proof.
  rewrite iteration_unfold. destruct (is_completed cur).
  - exists []. rewrite app_nil_r. split; [reflexivity|left; reflexivity].
  - destruct (throttle_fields i w) as (_ & _ & _ & TC).
    destruct (processItem_post env v i cur (throttle i w)) as (c & w' & E & P).
    rewrite E. simpl. rewrite <- TC.
    destruct P as [data g A G F D M _|g stored G F D S M].
    + eexists. split; [exact D|]. right. eexists. split; reflexivity.
    + exists stored. split; [exact D|].
      destruct S as [->|(data & _ & -> & _)]; [left; reflexivity|].
      right. eexists. split; reflexivity.
Qed.

Lemma loop_ids (rest : list UploadFile.t) (i : nat) (w : World) :
  exists ins idxs,
    db_candidates (snd (loop env v i rest w)) = (db_candidates w ++ ins)%list
    /\ map Candidate.id ins = map (candidate_id env) idxs
    /\ Forall (fun k => (i <= k)%nat) idxs
    /\ List.NoDup idxs.
Proof.
  revert i w. induction rest as [|cur rest IH]; intros i w.
  - exists [], []. simpl. rewrite app_nil_r.
    repeat split; [apply List.Forall_nil|apply List.NoDup_nil].
  - destruct (iteration_ids i cur w) as (ins1 & D1 & C1).
    destruct (loop_step env v i cur rest w) as [[_ L]|(what & _ & L)];
      rewrite L.
    + destruct (IH (S i) (snd (iteration env v i cur w)))
        as (ins2 & idxs & D2 & M & F & N).
      assert (F' : Forall (fun k => (i <= k)%nat) idxs).
      { eapply Forall_impl; [exact F|]. intros k Hk. simpl in Hk. lia. }
      exists (ins1 ++ ins2)%list.
      destruct C1 as [->|(c & -> & Ic)].
      * exists idxs. rewrite D2, D1, app_nil_r.
        split; [reflexivity|]. split; [exact M|]. split; [exact F'|exact N].
      * exists (i :: idxs). rewrite D2, D1, <- app_assoc. simpl.
        split; [reflexivity|]. split; [rewrite Ic, M; reflexivity|].
        split; [apply List.Forall_cons; [lia|exact F']|].
        apply List.NoDup_cons; [|exact N].
        intros H. rewrite List.Forall_forall in F. specialize (F i H).
        simpl in F. lia.
    + simpl. exists ins1. destruct C1 as [->|(c & -> & Ic)].
      * exists []. split; [exact D1|]. split; [reflexivity|].
        split; [apply List.Forall_nil|apply List.NoDup_nil].
      * exists [i]. split; [exact D1|]. split; [simpl; rewrite Ic; reflexivity|].
        split; [apply List.Forall_cons; [lia|apply List.Forall_nil]|].
        apply List.NoDup_cons; [intros []|apply List.NoDup_nil].
Qed.

End Records.

Lemma candidate_ids_NoDup (env : Env) (idxs : list nat) :
  List.NoDup idxs -> List.NoDup (map (candidate_id env) idxs).
Proof.
  induction 1 as [|k idxs Hk N IH]; simpl; [apply List.NoDup_nil|].
  apply List.NoDup_cons; [|exact IH].
  intros H. apply in_map_iff in H. destruct H as (j & E & Hj).
  apply candidate_id_inj in E. subst j. exact (Hk Hj).
Qed.

Lemma run_records (env : Env) (w w' : World) :
  run_shape (loop env) w w' ->
  exists ins,
    db_candidates w' = (db_candidates w ++ ins)%list
    /\ List.NoDup (map Candidate.id ins)
    /\ Forall (fun c => exists f,
                 In f (files w)
                 /\ Candidate.resumeBase64 c
                    = (if file_size (UploadFile.file f) <? MiB
                       then base64_of_dataURL (readAsDataURL (UploadFile.file f))
                       else "")) ins.
Proof.
  intros [(_ & C & _)|[(_ & C & _)|(v & w1 & (Sf & Sc & _) & ->)]].
  - exists []. rewrite app_nil_r. split; [exact C|].
    split; [apply List.NoDup_nil|apply List.Forall_nil].
  - exists []. rewrite app_nil_r. split; [exact C|].
    split; [apply List.NoDup_nil|apply List.Forall_nil].
  - simpl.
    destruct (after_loop_fields (loop env v 0 (files w) w1)) as (_ & -> & _).
    assert (Hd : drop 0 (files w1) = files w) by (rewrite drop_0; exact Sf).
    destruct (loop_store env v (files w) 0 w1 Hd) as (_ & _ & ins & D & P & _).
    destruct (loop_ids env v (files w) 0 w1) as (ins' & idxs & D' & M & _ & N).
    assert (ins' = ins) as ->.
    { rewrite D in D'. apply app_inv_head in D'. congruence. }
    exists ins. rewrite <- Sc. split; [exact D|].
    split; [rewrite M; apply candidate_ids_NoDup; exact N|].
    eapply Forall_impl; [exact P|].
    intros c (k & f & data & Hk & _ & _ & ->). exists f.
    split; [|reflexivity].
    apply list_elem_of_In. eapply list_elem_of_lookup_2. exact Hk.
Qed.

(** X23.  Within one run, of any revision, the candidates stored carry
    pairwise distinct ids. *)
Theorem stored_ids_are_distinct (env : Env) (w : World)
    (jobSource : JobSource) (parsedJd : option ExtractedJobDetails)
    (jdSource : JdSource) (jdFile : option File) (w' : World) :
  w' = snd (startAnalysis env w)
  \/ w' = snd (startAnalysis_jobSource env jobSource parsedJd w)
  \/ w' = snd (startAnalysis_jdSource env jdSource jdFile w) ->
  exists ins,
    db_candidates w' = (db_candidates w ++ ins)%list
    /\ List.NoDup (map Candidate.id ins).
Proof.
  intros H.
  assert (R : run_shape (loop env) w w').
  { destruct H as [->|[->| ->]];
      [apply startAnalysis_run|apply startAnalysis_jobSource_run
      |apply startAnalysis_jdSource_run]. }
  destruct (run_records env w w' R) as (ins & D & N & _).
  exists ins. split; [exact D|exact N].
Qed.

Lemma stored_ids_are_distinct_witness :
  exists ins,
    db_candidates (snd (startAnalysis Examples.calm Examples.two_ready))
    = ([] ++ ins)%list
    /\ List.NoDup (map Candidate.id ins).
Proof.
  apply (stored_ids_are_distinct Examples.calm Examples.two_ready Database None
           Select None).
  left. reflexivity.
Defined.

(** X24.  The document stored with a candidate is bounded: for files whose
    MIME type holds no comma, no run of any revision stores a payload of
    more than 1,398,100 characters, the encoding of 1 MiB less one byte. *)
Theorem stored_payload_is_bounded (env : Env) (w : World)
    (jobSource : JobSource) (parsedJd : option ExtractedJobDetails)
    (jdSource : JdSource) (jdFile : option File) (w' : World) :
  w' = snd (startAnalysis env w)
  \/ w' = snd (startAnalysis_jobSource env jobSource parsedJd w)
  \/ w' = snd (startAnalysis_jdSource env jdSource jdFile w) ->
  (forall f, In f (files w) ->
             JS.all_chars no_comma (file_type (UploadFile.file f)) = true) ->
  exists ins,
    db_candidates w' = (db_candidates w ++ ins)%list
    /\ Forall (fun c => Z.of_nat (String.length (Candidate.resumeBase64 c))
                        <= 1398100) ins.
Proof.
  intros H T.
  assert (R : run_shape (loop env) w w').
  { destruct H as [->|[->| ->]];
      [apply startAnalysis_run|apply startAnalysis_jobSource_run
      |apply startAnalysis_jdSource_run]. }
  destruct (run_records env w w' R) as (ins & D & _ & P).
  exists ins. split; [exact D|].
  eapply Forall_impl; [exact P|].
  intros c (f & Hf & ->). simpl. apply payload_bound, T, Hf.
Qed.

Lemma stored_payload_is_bounded_witness :
  exists ins,
    db_candidates (snd (startAnalysis Examples.calm Examples.two_ready))
    = ([] ++ ins)%list
    /\ Forall (fun c => Z.of_nat (String.length (Candidate.resumeBase64 c))
                        <= 1398100) ins.
Proof.
  apply (stored_payload_is_bounded Examples.calm Examples.two_ready Database
           None Select None).
  - left. reflexivity.
  - intros f [<-|[<-|[]]]; reflexivity.
Defined.

(** ** A description without skills *)

Section Blocked.

Variable env : Env.
Variable v : Variant.
Hypothesis blocked : ctx_skills (ctx v) = None.

Lemma iteration_blocked (i : nat) (cur : UploadFile.t) (w : World) :
  fst (iteration env v i cur w) = Normal tt
  /\ db_candidates (snd (iteration env v i cur w)) = db_candidates w
  /\ db_jobs (snd (iteration env v i cur w)) = db_jobs w
  /\ files (snd (iteration env v i cur w))
     = (if is_completed cur then files w
        else map_at i (UploadFile.with_status ERROR 0) (files w)).
Proof.
  rewrite iteration_unfold. destruct (is_completed cur); [repeat split|].
  destruct (throttle_fields i w) as (TF & TJ & _ & TC).
  rewrite <- TF, <- TJ, <- TC. generalize (throttle i w). intros w0.
  unfold_item.
  destruct (has_key env); simpl;
    [|rewrite !map_at_map_at; repeat split].
  destruct (reader_error env (ReadInGateway i)); simpl;
    [rewrite !map_at_map_at; repeat split|].
  rewrite blocked. simpl. rewrite !map_at_map_at. repeat split.
Qed.

Lemma loop_blocked (rest : list UploadFile.t) (i : nat) (w : World) :
  drop i (files w) = rest ->
  fst (loop env v i rest w) = Normal tt
  /\ db_candidates (snd (loop env v i rest w)) = db_candidates w
  /\ db_jobs (snd (loop env v i rest w)) = db_jobs w
  /\ forall k f,
       rest !! k = Some f ->
       files (snd (loop env v i rest w)) !! (i + k)%nat
       = Some (if is_completed f then f else UploadFile.with_status ERROR 0 f).
Proof.
  revert i w. induction rest as [|cur rest IH]; intros i w Hd.
  - split; [reflexivity|]. split; [reflexivity|]. split; [reflexivity|].
    intros k f H. discriminate.
  - destruct (iteration_blocked i cur w) as (N & C & J & F).
    rewrite (loop_continue env v i cur rest w N).
    destruct (queue_head _ _ _ _ Hd) as [Hc Hr].
    assert (Hd1 : drop (S i) (files (snd (iteration env v i cur w))) = rest).
    { rewrite F. destruct (is_completed cur); [exact Hr|].
      rewrite map_at_drop. exact Hr. }
    destruct (IH (S i) _ Hd1) as (N2 & C2 & J2 & F2).
    split; [exact N2|]. split; [congruence|]. split; [congruence|].
    intros [|k] f Hk; simpl in Hk.
    + inversion Hk; subst f. rewrite Nat.add_0_r.
      destruct (loop_store env v rest (S i) _ Hd1) as (_ & U & _).
      rewrite U by lia. rewrite F.
      destruct (is_completed cur); [exact Hc|].
      rewrite map_at_lookup_eq, Hc. reflexivity.
    + replace (i + S k)%nat with (S i + k)%nat by lia. exact (F2 k f Hk).
Qed.

End Blocked.

Lemma startAnalysis_jobSource_parsed (env : Env) (p : ExtractedJobDetails)
    (w : World) :
  files w <> [] ->
  snd (startAnalysis_jobSource env Upload (Some p) w)
  = set_isAnalyzing false
      (after_loop
         (loop env (variant_of_parsed (selectedJobId w) p) 0 (files w)
            (set_isAnalyzing true (set_errorMsg None w)))).
Proof.
  intros Hf.
  assert (Hl : (length (files w) =? 0)%nat = false).
  { destruct (files w); [congruence|reflexivity]. }
  unfold startAnalysis_jobSource, resolve_jobSource, variant_of_parsed.
  open_page. rewrite Hl. simpl. page_loops.
Qed.

(** X25.  In the [jobSource] revision the context of an uploaded
    description takes [parsedJd.skills] as it is, where the other two
    revisions fall back to an empty list: when the parsed description has
    no skills, building the prompt throws for every item, so whatever the
    provider would answer, the run stores nothing and every item that was
    not already [COMPLETED] ends in [ERROR]. *)
Theorem description_without_skills_fails_every_item (env : Env)
    (p : ExtractedJobDetails) (w : World) :
  jd_skills p = None -> files w <> [] ->
  db_candidates (snd (startAnalysis_jobSource env Upload (Some p) w))
  = db_candidates w
  /\ db_jobs (snd (startAnalysis_jobSource env Upload (Some p) w)) = db_jobs w
  /\ forall k f,
       files w !! k = Some f ->
       files (snd (startAnalysis_jobSource env Upload (Some p) w)) !! k
       = Some (if Status_eqb (UploadFile.status f) COMPLETED then f
               else UploadFile.with_status ERROR 0 f).
Proof.
  intros Hp Hf. rewrite (startAnalysis_jobSource_parsed env p w Hf). simpl.
  destruct (loop_blocked env (variant_of_parsed (selectedJobId w) p) Hp
              (files w) 0 (set_isAnalyzing true (set_errorMsg None w))
              (drop_0 _)) as (N & C & J & F).
  rewrite (after_loop_normal _ N). split; [exact C|]. split; [exact J|exact F].
Qed.

Lemma description_without_skills_fails_every_item_witness :
  UploadFile.status
    <$> files (snd (startAnalysis_jobSource Examples.calm Upload
                      (Some MoreExamples.skill_less) Examples.rerun))
  = [ERROR; COMPLETED].
Proof.
  assert (Hf : files Examples.rerun <> []) by discriminate.
  destruct (description_without_skills_fails_every_item Examples.calm
              MoreExamples.skill_less Examples.rerun eq_refl Hf) as (_ & _ & F).
  apply list_eq. intros [|[|k]]; rewrite list_lookup_fmap.
  - rewrite (F 0%nat _ eq_refl). reflexivity.
  - rewrite (F 1%nat _ eq_refl). reflexivity.
  - vm_compute. reflexivity.
Defined.

(** X26.  The scheduler never issues two analysis calls back to back: in a
    run of any revision, whatever fails, a wait of 3000 ms lies between
    any two consecutive analysis calls. *)
Theorem calls_are_never_back_to_back (env : Env) (w : World)
    (jobSource : JobSource) (parsedJd : option ExtractedJobDetails)
    (jdSource : JdSource) (jdFile : option File) (w' : World) :
  w' = snd (startAnalysis env w)
  \/ w' = snd (startAnalysis_jobSource env jobSource parsedJd w)
  \/ w' = snd (startAnalysis_jdSource env jdSource jdFile w) ->
  exists evs,
    trace w' = (trace w ++ evs)%list
    /\ back_to_back (schedule evs) = false.
Proof.
  intros H.
  assert (R : run_shape (loop env) w w').
  { destruct H as [->|[->| ->]];
      [apply startAnalysis_run|apply startAnalysis_jobSource_run
      |apply startAnalysis_jdSource_run]. }
  destruct (run_schedule env w w' R) as (evs & n & T & _ & S).
  exists evs. split; [exact T|].
  rewrite S. apply planned_never_back_to_back.
Qed.

Lemma calls_are_never_back_to_back_witness :
  exists evs,
    trace (snd (startAnalysis Examples.second_rejected Examples.three_ready))
    = ([] ++ evs)%list
    /\ back_to_back (schedule evs) = false.
Proof.
  apply (calls_are_never_back_to_back Examples.second_rejected
           Examples.three_ready Database None Select None).
  left. reflexivity.
Defined.
